(** * Workflow execution engine: a shallow embedding and its properties

    The development follows the TypeScript engine ([WorkflowEngine], with
    [operators.ts]) and, in [Module Legacy], the skeleton of the older
    JavaScript engine ([workflow-engine.js], [BooleanBuilder] of
    [operators.js]).

    - JavaScript values are an inductive type; numbers are IEEE-754 doubles
      (primitive floats); objects and arrays carry the reference that [===]
      compares.
    - Plain objects used as maps ([context.variables], [context.results],
      the resolved inputs of an operator) are finite maps over strings that
      hold their own properties; the members a plain object inherits from
      [Object.prototype] are not part of the model.
    - Strings are sequences of 8-bit characters.
    - Host functions the ECMAScript standard leaves to the implementation
      ([Math.pow], [Math.random], number printing, regular expressions, JSON
      printing) are the fields of the class [Host].
    - The engine is a state-and-exception monad over the execution context
      and the calls made to the [onLog] callback; the recursive graph walk
      takes fuel, and running out of fuel is a third outcome that no
      handler catches. *)

From Stdlib Require Import ZArith List Ascii String Bool Lia Floats.
From stdpp Require Import base option list gmap strings pretty.

Set Warnings "-register-all".

Local Open Scope string_scope.
Local Open Scope list_scope.

(* ================================================================== *)
(** ** JavaScript values and coercions *)
(* ================================================================== *)

Module JS.

(** A reference: what [===] compares on objects. *)
Definition loc := nat.

Inductive value : Type :=
| VUndefined
| VNull
| VBool (b : bool)
| VNum (x : float)
| VStr (s : string)
| VArr (l : loc) (elems : list value)
| VObj (l : loc) (fields : list (string * value))
| VDate (l : loc) (ms : float).

(** A thrown [Error]: its constructor name and its [message]. *)
Record error := Error { err_name : string; err_message : string }.

Definition is_array (v : value) : bool :=
  match v with VArr _ _ => true | _ => false end.

Definition is_string (v : value) : bool :=
  match v with VStr _ => true | _ => false end.

(** [ToBoolean]: the truthiness used by [!x], [x || y], [x && y], [if (x)]. *)
Definition ToBoolean (v : value) : bool :=
  match v with
  | VUndefined | VNull => false
  | VBool b => b
  | VNum x => negb (PrimFloat.is_nan x || PrimFloat.is_zero x)
  | VStr s => negb (String.eqb s "")
  | VArr _ _ | VObj _ _ | VDate _ _ => true
  end.

(** *** [StringToNumber] *)

Definition is_ws (c : ascii) : bool :=
  let n := nat_of_ascii c in
  existsb (Nat.eqb n) (9 :: 10 :: 11 :: 12 :: 13 :: 32 :: 160 :: nil)%nat.

Fixpoint trim_left (l : list ascii) : list ascii :=
  match l with
  | c :: l' => if is_ws c then trim_left l' else l
  | nil => nil
  end.

Fixpoint trim_right (l : list ascii) : list ascii :=
  match l with
  | c :: l' =>
      match trim_right l' with
      | nil => if is_ws c then nil else c :: nil
      | r => c :: r
      end
  | nil => nil
  end.

(** The value of a digit in the given radix, when it is one. *)
Definition digit_value (radix : Z) (c : ascii) : option Z :=
  let n := Z.of_nat (nat_of_ascii c) in
  let d :=
    if (48 <=? n)%Z && (n <=? 57)%Z then Some (n - 48)%Z
    else if (97 <=? n)%Z && (n <=? 102)%Z then Some (n - 87)%Z
    else if (65 <=? n)%Z && (n <=? 70)%Z then Some (n - 55)%Z
    else None in
  match d with
  | Some k => if (k <? radix)%Z then Some k else None
  | None => None
  end.

(** Reads the longest run of digits: the number read (continuing [acc]),
    how many digits there were, and what follows them. *)
Fixpoint read_digits (radix acc : Z) (count : nat) (l : list ascii)
  : Z * nat * list ascii :=
  match l with
  | c :: l' =>
      match digit_value radix c with
      | Some d => read_digits radix (acc * radix + d)%Z (S count) l'
      | None => (acc, count, l)
      end
  | nil => (acc, count, nil)
  end.

(** The double nearest to [m * 10^e] (ties to even), for [0 <= m]. *)
Definition round_decimal (m e : Z) : float :=
  match m with
  | Zpos p =>
      match e with
      | Zneg k =>
          SF2Prim (SFdiv prec emax
                     (S754_finite false p 0)
                     (S754_finite false (Pos.pow 10 k) 0))
      | _ => SF2Prim (binary_normalize prec emax (m * 10 ^ e) 0 false)
      end
  | _ => PrimFloat.zero
  end.

(** [ExponentPart_opt] at the end of the literal: the exponent, or [None]
    when what is left is not an exponent part. *)
Definition read_exponent (l : list ascii) : option Z :=
  match l with
  | nil => Some 0%Z
  | c :: l' =>
      if Ascii.eqb c "e" || Ascii.eqb c "E" then
        let '(neg, l'') :=
          match l' with
          | s :: r =>
              if Ascii.eqb s "-" then (true, r)
              else if Ascii.eqb s "+" then (false, r)
              else (false, l')
          | nil => (false, l')
          end in
        match read_digits 10 0 0 l'' with
        | (ev, S _, nil) => Some (if neg then (- ev)%Z else ev)
        | _ => None
        end
      else None
  end.

(** [StrUnsignedDecimalLiteral]. *)
Definition read_unsigned_decimal (l : list ascii) : option float :=
  if bool_decide (l = list_ascii_of_string "Infinity")
  then Some PrimFloat.infinity
  else
    let '(ip, n1, r1) := read_digits 10 0 0 l in
    match r1 with
    | "."%char :: r1' =>
        let '(m, n2, r2) := read_digits 10 ip 0 r1' in
        match (n1 + n2)%nat, read_exponent r2 with
        | S _, Some ev => Some (round_decimal m (ev - Z.of_nat n2))
        | _, _ => None
        end
    | _ =>
        match n1, read_exponent r1 with
        | S _, Some ev => Some (round_decimal ip ev)
        | _, _ => None
        end
    end.

(** [NonDecimalIntegerLiteral]: [0x], [0o], [0b] and their capitals. *)
Definition read_non_decimal (l : list ascii) : option float :=
  match l with
  | "0"%char :: p :: ds =>
      let radix :=
        if Ascii.eqb p "x" || Ascii.eqb p "X" then Some 16%Z
        else if Ascii.eqb p "o" || Ascii.eqb p "O" then Some 8%Z
        else if Ascii.eqb p "b" || Ascii.eqb p "B" then Some 2%Z
        else None in
      match radix with
      | Some r =>
          match read_digits r 0 0 ds with
          | (n, S _, nil) => Some (SF2Prim (binary_normalize prec emax n 0 false))
          | _ => None
          end
      | None => None
      end
  | _ => None
  end.

(** [StrNumericLiteral] between the white space. *)
Definition read_numeric (l : list ascii) : option float :=
  match l with
  | nil => Some PrimFloat.zero
  | c :: l' =>
      if Ascii.eqb c "-" then
        option_map PrimFloat.opp (read_unsigned_decimal l')
      else if Ascii.eqb c "+" then read_unsigned_decimal l'
      else
        match read_non_decimal l with
        | Some x => Some x
        | None => read_unsigned_decimal l
        end
  end.

(** [Number(s)] for a string [s]: [NaN] when [s] is not a numeric literal. *)
Definition StringToNumber (s : string) : float :=
  match read_numeric (trim_right (trim_left (list_ascii_of_string s))) with
  | Some x => x
  | None => PrimFloat.nan
  end.

(** *** The host *)

(** What the ECMAScript standard leaves to the implementation, or what
    depends on the outside world.  Every field is a total function: none of
    these built-ins throws on the values of this model. *)
Class Host := {
  (** [Number::toString(x)] in radix 10 *)
  Number_toString : float -> string;
  (** [Date.prototype.toString] of a time value *)
  Date_toString : float -> string;
  Math_pow : float -> float -> float;
  Math_round : float -> float;
  Math_floor : float -> float;
  Math_ceil : float -> float;
  (** the [%] operator on numbers *)
  Number_remainder : float -> float -> float;
  (** the value the [k]-th call of [Math.random()] returns *)
  Math_random : nat -> float;
  (** the time value [new Date()] reads at tick [k] *)
  Date_now : nat -> float;
  (** whether [new RegExp(pattern)] succeeds (it throws a [SyntaxError]
      otherwise), and [new RegExp(pattern).test(subject)] *)
  RegExp_valid : string -> bool;
  RegExp_test : string -> string -> bool;
  (** the text [JSON.stringify(v)] leaves in a template literal *)
  JSON_stringify : value -> string;
  (** [JSON.parse(s)], [None] when it throws a [SyntaxError] *)
  JSON_parse : string -> option value;
}.

Section Coercions.
Context `{Host}.

(** [String(v)], for the values that convert: on an object that has an
    own property [toString], and on an array that holds one, the code
    throws a [TypeError] ([Domain.convertible]). *)
Fixpoint ToString (v : value) : string :=
  match v with
  | VUndefined => "undefined"
  | VNull => "null"
  | VBool true => "true"
  | VBool false => "false"
  | VNum x => Number_toString x
  | VStr s => s
  | VArr _ elems =>
      (* Array.prototype.join: null and undefined elements print empty *)
      (fix join (l : list value) : string :=
         match l with
         | nil => ""
         | e :: l' =>
             let here :=
               match e with VUndefined | VNull => "" | _ => ToString e end in
             match l' with
             | nil => here
             | _ => (here ++ "," ++ join l')%string
             end
         end) elems
  | VObj _ _ => "[object Object]"
  | VDate _ ms => Date_toString ms
  end.

(** [Number(v)], for the values that convert ([Domain.convertible]). *)
Definition ToNumber (v : value) : float :=
  match v with
  | VUndefined => PrimFloat.nan
  | VNull => PrimFloat.zero
  | VBool true => PrimFloat.one
  | VBool false => PrimFloat.zero
  | VNum x => x
  | VStr s => StringToNumber s
  | VArr _ _ | VObj _ _ => StringToNumber (ToString v)
  | VDate _ ms => ms
  end.

End Coercions.

(** [a === b]. *)
Definition strict_equals (a b : value) : bool :=
  match a, b with
  | VUndefined, VUndefined => true
  | VNull, VNull => true
  | VBool x, VBool y => Bool.eqb x y
  | VNum x, VNum y => PrimFloat.eqb x y
  | VStr x, VStr y => String.eqb x y
  | (VArr l _ | VObj l _ | VDate l _), (VArr l' _ | VObj l' _ | VDate l' _) =>
      Nat.eqb l l'
  | _, _ => false
  end.

(** [o[k]] on an object used as a map: [undefined] when [k] is missing.
    The members that the code finds on [Object.prototype] ([constructor],
    [toString], ...) are not part of the map ([Domain.reads_own]). *)
Definition get (o : gmap string value) (k : string) : value :=
  default VUndefined (o !! k).

(** [v.k] / [v?.k] on a value of the model: own fields of an object. *)
Definition field (v : value) (k : string) : value :=
  match v with
  | VObj _ fields =>
      match List.find (fun kv => String.eqb (fst kv) k) fields with
      | Some kv => snd kv
      | None => VUndefined
      end
  | _ => VUndefined
  end.

(** [s.startsWith(p)], [s.endsWith(p)], [s.includes(p)]. *)
Definition startsWith (s p : string) : bool := String.prefix p s.

Fixpoint includes_list (s p : list ascii) : bool :=
  bool_decide (p = take (length p) s) ||
  match s with
  | nil => false
  | _ :: s' => includes_list s' p
  end.

Definition includes (s p : string) : bool :=
  includes_list (list_ascii_of_string s) (list_ascii_of_string p).

Definition endsWith (s p : string) : bool :=
  let ls := list_ascii_of_string s in
  let lp := list_ascii_of_string p in
  bool_decide (lp = drop (length ls - length lp) ls).

(** [Math.min(...xs)] and [Math.max(...xs)]. *)
Definition min2 (x y : float) : float :=
  if PrimFloat.is_nan x || PrimFloat.is_nan y then PrimFloat.nan
  else if PrimFloat.ltb x y then x
  else if PrimFloat.ltb y x then y
  else if PrimFloat.get_sign x then x else y.

Definition max2 (x y : float) : float :=
  if PrimFloat.is_nan x || PrimFloat.is_nan y then PrimFloat.nan
  else if PrimFloat.ltb x y then y
  else if PrimFloat.ltb y x then x
  else if PrimFloat.get_sign x then y else x.

Definition Math_min (xs : list float) : float :=
  fold_left min2 xs PrimFloat.infinity.

Definition Math_max (xs : list float) : float :=
  fold_left max2 xs PrimFloat.neg_infinity.

End JS.

Import JS.

(** A call either returns or throws. *)
Inductive result (A : Type) : Type :=
| Ok (a : A)
| Thrown (e : error).
Arguments Ok {A} a.
Arguments Thrown {A} e.

Definition result_map {A B} (f : A -> B) (r : result A) : result B :=
  match r with Ok a => Ok (f a) | Thrown e => Thrown e end.

Definition is_ok {A} (r : result A) : bool :=
  match r with Ok _ => true | Thrown _ => false end.

(* ================================================================== *)
(** ** [operators.ts] *)
(* ================================================================== *)

Module Operators.

(** [types.ts] *)
Record Condition := {
  leftOperand : value;
  operator : string;
  rightOperand : value;
}.

(** [BooleanExpression]: [type], [operator?], [operands?], [condition?],
    [value?] (an absent [value] is [undefined]). *)
Inductive BooleanExpression : Type :=
| BoolExpr (type : string) (operator : option string)
           (operands : option (list BooleanExpression))
           (condition : option Condition) (value : JS.value).

Record OperatorConfig := {
  operation : string;
  inputs : list (string * value);
  output : option string;
}.

(** The executors of the string, array and date families of [operators.ts]
    are not unfolded here: they may return any value or throw.  [fresh] is
    the reference an allocated result gets and the tick at which the clock
    is read. *)
Class OperatorFamilies := {
  executeStringOperation : string -> gmap string value -> result value;
  executeArrayOperation : nat -> string -> gmap string value -> result value;
  executeDateOperation : nat -> string -> gmap string value -> result value;
}.

Definition mathOperations : list string :=
  ["add"; "subtract"; "multiply"; "divide"; "modulo"; "power"; "sqrt"; "abs";
   "round"; "floor"; "ceil"; "min"; "max"; "random"].

Definition stringOperations : list string :=
  ["concat"; "substring"; "replace"; "split"; "join"; "toUpperCase";
   "toLowerCase"; "trim"; "length"; "indexOf"; "slice"].

Definition arrayOperations : list string :=
  ["push"; "pop"; "shift"; "unshift"; "slice"; "splice"; "filter"; "map";
   "reduce"; "find"; "sort"; "reverse"; "length"; "includes"; "indexOf";
   "join"].

Definition dateOperations : list string :=
  ["now"; "addDays"; "subtractDays"; "format"; "parse"; "getDay"; "getMonth";
   "getYear"; "getHour"; "getMinute"; "diff"].

(** [xs.includes(x)] on a list of strings. *)
Definition includes_string (xs : list string) (x : string) : bool :=
  existsb (String.eqb x) xs.

(** [evaluateBooleanExpression]'s [switch (expression.operator)] on the
    children's results. *)
Definition combine (operator : string) (operandResults : list bool)
  : result bool :=
  if String.eqb operator "AND" then Ok (forallb (fun result => result) operandResults)
  else if String.eqb operator "OR" then Ok (existsb (fun result => result) operandResults)
  else if String.eqb operator "NOT" then
    Ok (negb (match operandResults with
              | r :: _ => r
              | nil => false (* ToBoolean undefined *)
              end))
  else if String.eqb operator "XOR" then
    Ok (fold_left (fun acc val => negb (Bool.eqb acc val)) operandResults false)
  else Thrown (Error "Error" ("Unknown boolean operator: " ++ operator)).

Section WithHost.
Context `{Host}.

(** [resolveValue]; [context[varName]] is the variable of that name
    ([Domain.resolves_own]). *)
Definition resolveValue (v : value) (context : gmap string value) : value :=
  match v with
  | VStr s =>
      if startsWith s "$" then
        let varName := String.substring 1 (String.length s - 1) s in
        match get context varName with
        | VUndefined => v
        | found => found
        end
      else v
  | _ => v
  end.

(** [evaluateCondition] *)
Definition evaluateCondition (condition : Condition)
    (context : gmap string value) : result bool :=
  let left := resolveValue (leftOperand condition) context in
  let right := resolveValue (rightOperand condition) context in
  let op := operator condition in
  if String.eqb op "equals" then Ok (strict_equals left right)
  else if String.eqb op "notEquals" then Ok (negb (strict_equals left right))
  else if String.eqb op "greaterThan" then
    Ok (PrimFloat.ltb (ToNumber right) (ToNumber left))
  else if String.eqb op "lessThan" then
    Ok (PrimFloat.ltb (ToNumber left) (ToNumber right))
  else if String.eqb op "greaterOrEqual" then
    Ok (PrimFloat.leb (ToNumber right) (ToNumber left))
  else if String.eqb op "lessOrEqual" then
    Ok (PrimFloat.leb (ToNumber left) (ToNumber right))
  else if String.eqb op "contains" then
    Ok (includes (ToString left) (ToString right))
  else if String.eqb op "startsWith" then
    Ok (startsWith (ToString left) (ToString right))
  else if String.eqb op "endsWith" then
    Ok (endsWith (ToString left) (ToString right))
  else if String.eqb op "matches" then
    if RegExp_valid (ToString right)
    then Ok (RegExp_test (ToString right) (ToString left))
    else Thrown (Error "SyntaxError"
                   ("Invalid regular expression: /" ++ ToString right ++ "/"))
  else Thrown (Error "Error" ("Unknown comparison operator: " ++ op)).

(** [evaluateBooleanExpression]; the inner loop is
    [expression.operands.map(op => evaluateBooleanExpression(op, context))],
    left to right, the first throw ending it. *)
Fixpoint evaluateBooleanExpression (expression : BooleanExpression)
    (context : gmap string value) : result bool :=
  match expression with
  | BoolExpr type operator operands condition value =>
      if String.eqb type "value" then Ok (ToBoolean value)
      else
        match String.eqb type "condition", condition with
        | true, Some c => evaluateCondition c context
        | _, _ =>
            match String.eqb type "operator", operator, operands with
            | true, Some op, Some ops =>
                if String.eqb op "" then Ok false
                else
                  match
                    (fix map_eval (l : list BooleanExpression)
                       : result (list bool) :=
                       match l with
                       | nil => Ok nil
                       | e :: l' =>
                           match evaluateBooleanExpression e context with
                           | Ok b =>
                               match map_eval l' with
                               | Ok bs => Ok (b :: bs)
                               | Thrown err => Thrown err
                               end
                           | Thrown err => Thrown err
                           end
                       end) ops
                  with
                  | Ok operandResults => combine op operandResults
                  | Thrown err => Thrown err
                  end
            | _, _, _ => Ok false
            end
        end
  end.

(** The children of an operator node, evaluated in order. *)
Fixpoint evaluateOperands (operands : list BooleanExpression)
    (context : gmap string value) : result (list bool) :=
  match operands with
  | nil => Ok nil
  | e :: l' =>
      match evaluateBooleanExpression e context with
      | Ok b =>
          match evaluateOperands l' context with
          | Ok bs => Ok (b :: bs)
          | Thrown err => Thrown err
          end
      | Thrown err => Thrown err
      end
  end.

(** [executeMathOperation]; [draw] is what [Math.random()] returns. *)
Definition executeMathOperation (draw : float) (operation : string)
    (inputs : gmap string value) : result float :=
  let a := get inputs "a" in
  let b := get inputs "b" in
  let value := get inputs "value" in
  let values := get inputs "values" in
  let spread (k : list float -> float) : result float :=
    (* (values || [a, b]).map(Number) *)
    match (if ToBoolean values then values else VArr 0 [a; b]) with
    | VArr _ elems => Ok (k (map ToNumber elems))
    | _ => Thrown (Error "TypeError"
                     "(values || [a, b]).map is not a function")
    end in
  if String.eqb operation "add" then
    Ok (PrimFloat.add (ToNumber a) (ToNumber b))
  else if String.eqb operation "subtract" then
    Ok (PrimFloat.sub (ToNumber a) (ToNumber b))
  else if String.eqb operation "multiply" then
    Ok (PrimFloat.mul (ToNumber a) (ToNumber b))
  else if String.eqb operation "divide" then
    Ok (PrimFloat.div (ToNumber a) (ToNumber b))
  else if String.eqb operation "modulo" then
    Ok (Number_remainder (ToNumber a) (ToNumber b))
  else if String.eqb operation "power" then
    Ok (Math_pow (ToNumber a) (ToNumber b))
  else if String.eqb operation "sqrt" then Ok (PrimFloat.sqrt (ToNumber value))
  else if String.eqb operation "abs" then Ok (PrimFloat.abs (ToNumber value))
  else if String.eqb operation "round" then Ok (Math_round (ToNumber value))
  else if String.eqb operation "floor" then Ok (Math_floor (ToNumber value))
  else if String.eqb operation "ceil" then Ok (Math_ceil (ToNumber value))
  else if String.eqb operation "min" then spread Math_min
  else if String.eqb operation "max" then spread Math_max
  else if String.eqb operation "random" then
    Ok (PrimFloat.add
          (PrimFloat.mul draw (PrimFloat.sub (ToNumber b) (ToNumber a)))
          (ToNumber a))
  else Thrown (Error "Error" ("Unknown math operation: " ++ operation)).

Context `{OperatorFamilies}.

(** [executeOperator]; [fresh] indexes the random draw and the clock. *)
Definition executeOperator (fresh : nat) (config : OperatorConfig)
    (context : gmap string value) : result value :=
  let resolvedInputs : gmap string value :=
    fold_left (fun acc kv => <[fst kv := resolveValue (snd kv) context]> acc)
              (inputs config) ∅ in
  let operation := operation config in
  if includes_string mathOperations operation then
    result_map VNum
      (executeMathOperation (Math_random fresh) operation resolvedInputs)
  else if includes_string stringOperations operation then
    executeStringOperation operation resolvedInputs
  else if includes_string arrayOperations operation then
    executeArrayOperation fresh operation resolvedInputs
  else if includes_string dateOperations operation then
    executeDateOperation fresh operation resolvedInputs
  else Thrown (Error "Error" ("Unknown operation: " ++ operation)).

End WithHost.

End Operators.

(* ================================================================== *)
(** ** The monad of engine methods *)
(* ================================================================== *)

(** A method runs on the state [St] of its engine object; it returns,
    throws, or ([None]) does not end within the fuel it was given. *)
Module Run.

Definition M (St A : Type) : Type := St -> option (result A * St).

Section Monad.
Context {St : Type}.

Definition ret {A} (a : A) : M St A := fun s => Some (Ok a, s).

Definition bind {A B} (m : M St A) (k : A -> M St B) : M St B :=
  fun s =>
    match m s with
    | Some (Ok a, s') => k a s'
    | Some (Thrown e, s') => Some (Thrown e, s')
    | None => None
    end.

Definition throw {A} (e : error) : M St A := fun s => Some (Thrown e, s).

(** [try { m } catch (e) { handler(e) }]: a run that does not end is not
    an exception. *)
Definition try_catch {A} (m : M St A) (handler : error -> M St A) : M St A :=
  fun s =>
    match m s with
    | Some (Thrown e, s') => handler e s'
    | r => r
    end.

Definition diverge {A} : M St A := fun _ => None.

Definition lift {A} (r : result A) : M St A := fun s => Some (r, s).

Definition gets {A} (f : St -> A) : M St A := fun s => Some (Ok (f s), s).

Definition modify (f : St -> St) : M St unit := fun s => Some (Ok tt, f s).

End Monad.

Declare Scope run_scope.
Delimit Scope run_scope with run.
Notation "'let*' x ':=' m 'in' k" := (bind m (fun x => k))
  (at level 10, x name, m at level 100, k at level 200) : run_scope.
Notation "m ';;;' k" := (bind m (fun _ => k))
  (at level 100, k at level 200, right associativity) : run_scope.

(** [for (const x of xs) await body(x)] *)
Fixpoint for_each {St A} (xs : list A) (body : A -> M St unit) : M St unit :=
  match xs with
  | nil => ret tt
  | x :: xs' => (body x ;;; for_each xs' body)%run
  end.

End Run.

(* ================================================================== *)
(** ** The TypeScript engine ([WorkflowEngine]) *)
(* ================================================================== *)

Module Engine.
Import Operators.

(** *** Graph *)

Record NodeData := {
  label : string;
  config : value;
  operatorConfig : option OperatorConfig;
  booleanExpression : option BooleanExpression;
  condition : option Condition;
  actionType : option string;
  actionConfig : value;
}.

Record Node := {
  node_id : string;
  node_type : option string;
  node_data : NodeData;
}.

Record Edge := {
  edge_id : string;
  source : string;
  target : string;
  edge_label : option string;
}.

Record Graph := {
  nodes : list Node;
  edges : list Edge;
}.

(** *** Execution context and the [onLog] callback *)

Inductive level := level_info | level_warning | level_error.

Inductive payload :=
| no_data
| data_value (v : value)
| data_error (e : error).

(** One call [onLog(nodeId, message, level, data)]. *)
Record LogCall := {
  log_nodeId : string;
  log_message : string;
  log_level : level;
  log_data : payload;
}.

Record ExecutionLog := {
  timestamp : float;
  entry : LogCall;
}.

Record ExecutionContext := {
  variables : gmap string value;
  results : gmap string value;
  logs : list ExecutionLog;
}.

(** The engine object during a run: its context, the calls it has made to
    [onLog] (oldest first), and a counter that numbers allocations, clock
    readings and random draws. *)
Record State := {
  context : ExecutionContext;
  onLog : list LogCall;
  counter : nat;
}.

Definition set_variables (f : gmap string value -> gmap string value)
    (s : State) : State :=
  {| context := {| variables := f (variables (context s));
                   results := results (context s);
                   logs := logs (context s) |};
     onLog := onLog s; counter := counter s |}.

Definition set_results (f : gmap string value -> gmap string value)
    (s : State) : State :=
  {| context := {| variables := variables (context s);
                   results := f (results (context s));
                   logs := logs (context s) |};
     onLog := onLog s; counter := counter s |}.

(** The state a constructor call leaves: [{ variables: {}, results: {},
    logs: [] }]. *)
Definition initial : State :=
  {| context := {| variables := ∅; results := ∅; logs := [] |};
     onLog := []; counter := 0 |}.

Import Run.
Local Open Scope run_scope.

Abbreviation M := (Run.M State).

(** A fresh number: a reference for [{...}], a tick of the clock.  The
    references of the objects that a graph is configured with are taken to
    be other than the numbers drawn here. *)
Definition fresh : M nat :=
  fun s => Some (Ok (counter s),
                 {| context := context s; onLog := onLog s;
                    counter := S (counter s) |}).

(** [this.log(nodeId, message, level, data)] hands the entry to [onLog]. *)
Definition log (nodeId message : string) (lvl : level) (d : payload)
  : M unit :=
  modify (fun s =>
    {| context := context s;
       onLog := onLog s ++ [{| log_nodeId := nodeId; log_message := message;
                               log_level := lvl; log_data := d |}];
       counter := counter s |}).

(** The own enumerable string-keyed properties [Object.assign] copies. *)
Definition own_entries (v : value) : list (string * value) :=
  match v with
  | VObj _ fields => fields
  | VArr _ elems => imap (fun i e => (pretty i, e)) elems
  | VStr s =>
      imap (fun i c => (pretty i, VStr (String c EmptyString)))
           (list_ascii_of_string s)
  | _ => nil
  end.

(** [Object.assign(tgt, src)], for entries whose key is not [__proto__]
    ([Domain.plain_key]). *)
Definition Object_assign (tgt : gmap string value) (src : value)
  : gmap string value :=
  fold_left (fun acc kv => <[fst kv := snd kv]> acc) (own_entries src) tgt.

Definition bool_text (b : bool) : string := if b then "true" else "false".

Section WithHost.
Context `{Host} `{OperatorFamilies}.

(** [executeTrigger] *)
Definition executeTrigger (node : Node) : M value :=
  let cfg := config (node_data node) in
  (if ToBoolean cfg && ToBoolean (field cfg "variables")
   then modify (set_variables (fun vars =>
                  Object_assign vars (field cfg "variables")))
   else ret tt) ;;;
  let* tick := fresh in
  let* l := fresh in
  ret (VObj l [("triggered", VBool true);
               ("timestamp", VDate tick (Date_now tick))]).

(** [executeAction]; the [console.log] of the [log] action is not part of
    the model.  [setVariable] writes under a name that converts to a
    property key other than [__proto__] ([Domain.convertible],
    [Domain.plain_key]). *)
Definition executeAction (node : Node) : M value :=
  let actionType := actionType (node_data node) in
  let actionConfig := actionConfig (node_data node) in
  let shown := match actionType with Some t => t | None => "undefined" end in
  let as_value := match actionType with Some t => VStr t | None => VUndefined end in
  log (node_id node) ("Executing action: " ++ shown) level_info no_data ;;;
  let named t := match actionType with Some s => String.eqb s t | None => false end in
  if named "log" then
    let* l := fresh in
    ret (VObj l [("logged", VBool true);
                 ("message", field actionConfig "message")])
  else if named "setVariable" then
    modify (set_variables
              <[ToString (field actionConfig "name")
                := field actionConfig "value"]>) ;;;
    let* l := fresh in
    ret (VObj l [("set", VBool true);
                 ("name", field actionConfig "name");
                 ("value", field actionConfig "value")])
  else if named "transform" then
    let t := field actionConfig "transform" in
    ret (if ToBoolean t then t else VNull)
  else
    let* l := fresh in
    ret (VObj l [("actionType", as_value); ("config", actionConfig)]).

(** [executeCondition] *)
Definition executeCondition (node : Node) : M value :=
  match condition (node_data node) with
  | None =>
      log (node_id node) "No condition configured" level_warning no_data ;;;
      ret (VBool false)
  | Some c =>
      let* vars := gets (fun s => variables (context s)) in
      let* result := lift (evaluateCondition c vars) in
      log (node_id node) ("Condition evaluated to: " ++ bool_text result)
          level_info no_data ;;;
      ret (VBool result)
  end.

(** [executeBoolean] *)
Definition executeBoolean (node : Node) : M value :=
  match booleanExpression (node_data node) with
  | None =>
      log (node_id node) "No boolean expression configured"
          level_warning no_data ;;;
      ret (VBool false)
  | Some e =>
      let* vars := gets (fun s => variables (context s)) in
      let* result := lift (evaluateBooleanExpression e vars) in
      log (node_id node)
          ("Boolean expression evaluated to: " ++ bool_text result)
          level_info no_data ;;;
      ret (VBool result)
  end.

(** [executeOperatorNode] *)
Definition executeOperatorNode (node : Node) : M value :=
  match operatorConfig (node_data node) with
  | None =>
      log (node_id node) "No operator configuration found"
          level_warning no_data ;;;
      ret VNull
  | Some cfg =>
      let* vars := gets (fun s => variables (context s)) in
      let* tick := fresh in
      let* result := lift (executeOperator tick cfg vars) in
      match output cfg with
      | Some name =>
          if String.eqb name "" then ret result
          else modify (set_variables <[name := result]>) ;;; ret result
      | None => ret result
      end
  end.

Definition type_is (node : Node) (t : string) : bool :=
  match node_type node with
  | Some s => String.eqb s t
  | None => false
  end.

Definition known_types : list string :=
  ["trigger"; "action"; "condition"; "boolean"; "operator"].

(** The [switch (node.type)] of [executeNode]. *)
Definition dispatch (node : Node) : M value :=
  if type_is node "trigger" then executeTrigger node
  else if type_is node "action" then executeAction node
  else if type_is node "condition" then executeCondition node
  else if type_is node "boolean" then executeBoolean node
  else if type_is node "operator" then executeOperatorNode node
  else
    log (node_id node)
        ("Unknown node type: "
           ++ match node_type node with Some t => t | None => "undefined" end)
        level_warning no_data ;;;
    ret VNull.

(** [this.context.results[node.id] = result;
     this.context.variables[node.data.label] = result;], for an id and a
    label other than [__proto__] ([Domain.plain_key]). *)
Definition store (node : Node) (result : value) : M unit :=
  modify (set_results <[node_id node := result]>) ;;;
  modify (set_variables <[label (node_data node) := result]>).

Definition label_is (edge : Edge) (l : string) : bool :=
  match edge_label edge with
  | Some s => String.eqb s l
  | None => false
  end.

(** The value of [shouldExecute] for one outgoing edge. *)
Definition shouldExecute (currentNode : Node) (currentResult : value)
    (edge : Edge) : bool :=
  if type_is currentNode "condition" || type_is currentNode "boolean" then
    if label_is edge "true" && negb (ToBoolean currentResult) then false
    else if label_is edge "false" && ToBoolean currentResult then false
    else true
  else true.

Definition outgoingEdges (g : Graph) (currentNode : Node) : list Edge :=
  List.filter (fun edge => String.eqb (source edge) (node_id currentNode))
              (edges g).

(** [this.nodes.find((n) => n.id === id)] *)
Definition find_node (g : Graph) (id : string) : option Node :=
  List.find (fun n => String.eqb (node_id n) id) (nodes g).

(** [executeNextNodes]; [exec] is the recursive [this.executeNode]. *)
Definition executeNextNodes (exec : Node -> M value) (g : Graph)
    (currentNode : Node) (currentResult : value) : M unit :=
  for_each (outgoingEdges g currentNode) (fun edge =>
    if shouldExecute currentNode currentResult edge then
      match find_node g (target edge) with
      | Some nextNode => exec nextNode ;;; ret tt
      | None => ret tt
      end
    else ret tt).

(** What [executeNode] does once the node's handler has returned. *)
Definition after_dispatch (exec : Node -> M value) (g : Graph) (node : Node)
    (result : value) : M value :=
  store node result ;;;
  log (node_id node)
      ("Node completed with result: " ++ JSON_stringify result)
      level_info (data_value result) ;;;
  executeNextNodes exec g node result ;;;
  ret result.

(** The [catch] block of [executeNode]. *)
Definition rethrow (node : Node) (e : error) : M value :=
  log (node_id node) ("Error executing node: " ++ err_message e)
      level_error (data_error e) ;;;
  throw e.

(** [executeNode]; [fuel] bounds the depth of the calls, and a run out of
    fuel stands for a promise that never settles.  The handlers of the
    five known types are awaited; below a node of another type the code
    calls [executeNode] with no [await] in between, so a cycle through
    such nodes alone does not hang but exhausts the stack: it is outside
    the model ([Stated.known]). *)
Fixpoint executeNode (fuel : nat) (g : Graph) (node : Node) : M value :=
  match fuel with
  | O => diverge
  | S fuel' =>
      log (node_id node) ("Executing node: " ++ label (node_data node))
          level_info no_data ;;;
      try_catch
        (let* result := dispatch node in
         after_dispatch (executeNode fuel' g) g node result)
        (rethrow node)
  end.

(** The trigger nodes: [this.nodes.filter((node) =>
    !this.edges.some((edge) => edge.target === node.id))]. *)
Definition triggerNodes (g : Graph) : list Node :=
  List.filter
    (fun node =>
       negb (existsb (fun edge => String.eqb (target edge) (node_id node))
                     (edges g)))
    (nodes g).

(** [execute] *)
Definition execute (fuel : nat) (g : Graph) : M ExecutionContext :=
  log "workflow" "Starting workflow execution" level_info no_data ;;;
  match triggerNodes g with
  | nil =>
      log "workflow" "No trigger nodes found" level_error no_data ;;;
      throw (Error "Error" "Workflow must have at least one trigger node")
  | triggers =>
      for_each triggers (fun trigger =>
        executeNode fuel g trigger ;;; ret tt) ;;;
      log "workflow" "Workflow execution completed" level_info no_data ;;;
      gets context
  end.

End WithHost.
End Engine.

(* ================================================================== *)
(** ** The JavaScript engine ([workflow-engine.js], [BooleanBuilder]) *)
(* ================================================================== *)

Module Legacy.
Import Run.
Local Open Scope run_scope.

Record Node := {
  id : string;
  type : string;
  data : value;
}.

(** [{ from: { node, output }, to: { node, input } }]; the nodes of a
    workflow are told apart by their [id]. *)
Record Connection := {
  from_node : Node;
  from_output : string;
  to_node : Node;
  to_input : string;
}.

Record Workflow := {
  nodes : list Node;
  connections : list Connection;
}.

(** [{ timestamp, level, message }], the time stamp as the tick at which
    the clock was read. *)
Record LogEntry := {
  timestamp : nat;
  level : string;
  message : string;
}.

Record State := {
  context : gmap string value;
  executionLog : list LogEntry;
  isRunning : bool;
  clock : nat;
}.

(** What [execute] resolves to: [{ success, error?, context, log }]. *)
Record Outcome := {
  success : bool;
  error_message : option string;
  outcome_context : gmap string value;
  outcome_log : list LogEntry;
}.

Abbreviation M := (Run.M State).

(** [log(message, level = 'info')] *)
Definition log (message level : string) : M unit :=
  modify (fun s =>
    {| context := context s;
       executionLog := executionLog s
                         ++ [{| timestamp := clock s; level := level;
                                message := message |}];
       isRunning := isRunning s;
       clock := S (clock s) |}).

Definition set_running (b : bool) : M unit :=
  modify (fun s =>
    {| context := context s; executionLog := executionLog s;
       isRunning := b; clock := clock s |}).

(** The five handlers of [initializeNodeHandlers] ([executeTrigger],
    [executeAction], [executeCondition], [executeOperator],
    [executeBoolean]) are not unfolded: the operator library, the DOM of
    [BooleanBuilder] and [new Function] are behind them. *)
Class NodeHandlers := {
  handle : string -> Node -> Workflow -> M value;
}.

Definition handled_types : list string :=
  ["trigger"; "action"; "condition"; "operator"; "boolean"].

(** Whether [executeNode] follows a connection of a node of type [type]
    whose handler returned [result]. *)
Definition follows (type : string) (result : value) (output : string) : bool :=
  if String.eqb type "condition" then
    (ToBoolean result && String.eqb output "true")
    || (negb (ToBoolean result) && String.eqb output "false")
  else true.

(** [BooleanBuilder.applyOperator] *)
Definition applyOperator (operator : string) (results : list bool) : bool :=
  if String.eqb operator "AND" then forallb (fun r => r) results
  else if String.eqb operator "OR" then existsb (fun r => r) results
  else if String.eqb operator "NAND" then negb (forallb (fun r => r) results)
  else if String.eqb operator "NOR" then negb (existsb (fun r => r) results)
  else if String.eqb operator "XOR" then
    Nat.eqb (length (List.filter (fun r => r) results)) 1
  else if String.eqb operator "XNOR" then
    negb (Nat.eqb (length (List.filter (fun r => r) results)) 1)
  else false.

Section WithHost.
Context `{Host} `{NodeHandlers}.

(** [evaluateExpression]; [this.context[varName]] is the own property of
    that name ([Domain.reads_own]). *)
Definition evaluateExpression (expression : value)
    (context : gmap string value) : value :=
  match expression with
  | VUndefined | VNull => VNull
  | VStr s =>
      if startsWith s "$" then
        get context (String.substring 1 (String.length s - 1) s)
      else
        match JSON_parse s with
        | Some v => v
        | None => expression
        end
  | _ => expression
  end.

(** [executeNode]; [this.nodeHandlers[node.type]] is read as the handler
    that the constructor registers under that type: under a type named
    like a member of [Object.prototype] the code finds that member
    instead ([Domain.inherited]). *)
Fixpoint executeNode (fuel : nat) (node : Node) (workflow : Workflow)
  : M value :=
  match fuel with
  | O => diverge
  | S fuel' =>
      log ("Executing node: " ++ id node ++ " (" ++ type node ++ ")") "info" ;;;
      if negb (Operators.includes_string handled_types (type node)) then
        throw (Error "Error" ("Unknown node type: " ++ type node))
      else
        let* result := handle (type node) node workflow in
        for_each
          (List.filter
             (fun conn => String.eqb (id (from_node conn)) (id node))
             (connections workflow))
          (fun connection =>
             if follows (type node) result (from_output connection)
             then executeNode fuel' (to_node connection) workflow ;;; ret tt
             else ret tt) ;;;
        ret result
  end.

(** [execute] *)
Definition execute (fuel : nat) (workflow : Workflow)
    (initialContext : gmap string value) : M Outcome :=
  modify (fun s =>
    {| context := initialContext; executionLog := [];
       isRunning := true; clock := clock s |}) ;;;
  try_catch
    (log "Workflow execution started" "info" ;;;
     let triggers :=
       List.filter (fun n => String.eqb (type n) "trigger") (nodes workflow) in
     match triggers with
     | nil => throw (Error "Error" "No trigger node found in workflow")
     | _ =>
         for_each triggers (fun trigger =>
           executeNode fuel trigger workflow ;;; ret tt) ;;;
         log "Workflow execution completed" "info" ;;;
         set_running false ;;;
         gets (fun s =>
           {| success := true; error_message := None;
              outcome_context := context s;
              outcome_log := executionLog s |})
     end)
    (fun error =>
       log ("Error: " ++ err_message error) "error" ;;;
       set_running false ;;;
       gets (fun s =>
         {| success := false; error_message := Some (err_message error);
            outcome_context := context s;
            outcome_log := executionLog s |})).

End WithHost.
End Legacy.

(* ================================================================== *)
(** ** An environment for the examples *)
(* ================================================================== *)

(** A host and the remaining operator families, for running the models on
    concrete graphs.  The implementation-defined built-ins are constant
    here; the examples below do not reach them. *)
Module Sample.
Import Operators Engine.

#[export] Instance host : Host := {|
  Number_toString := fun _ => "0";
  Date_toString := fun _ => "Thu Jan 01 1970";
  Math_pow := fun _ _ => PrimFloat.nan;
  Math_round := fun x => x;
  Math_floor := fun x => x;
  Math_ceil := fun x => x;
  Number_remainder := fun _ _ => PrimFloat.nan;
  Math_random := fun _ => PrimFloat.zero;
  Date_now := fun _ => PrimFloat.zero;
  RegExp_valid := fun _ => true;
  RegExp_test := fun _ _ => false;
  JSON_stringify := fun _ => "null";
  JSON_parse := fun _ => None;
|}.

#[export] Instance families : OperatorFamilies := {|
  executeStringOperation := fun _ _ => Ok VUndefined;
  executeArrayOperation := fun _ _ _ => Ok VUndefined;
  executeDateOperation := fun _ _ _ => Ok VUndefined;
|}.

#[export] Instance handlers : Legacy.NodeHandlers := {|
  Legacy.handle := fun _ _ _ => Run.ret (VBool true);
|}.

Definition plain (title : string) : NodeData :=
  {| label := title; config := VUndefined; operatorConfig := None;
     booleanExpression := None; condition := None; actionType := None;
     actionConfig := VUndefined |}.

Definition node (id : string) (type : string) : Node :=
  {| node_id := id; node_type := Some type; node_data := plain id |}.

Definition edge (id from to : string) (label : option string) : Edge :=
  {| edge_id := id; source := from; target := to; edge_label := label |}.

(** A fan-out that joins again: [a -> b -> d] and [a -> c -> d]. *)
Definition diamond : Graph :=
  {| nodes := [node "a" "trigger"; node "b" "action"; node "c" "action";
               node "d" "action"];
     edges := [edge "1" "a" "b" None; edge "2" "a" "c" None;
               edge "3" "b" "d" None; edge "4" "c" "d" None] |}.

(** A chain [a -> b -> c]. *)
Definition chain : Graph :=
  {| nodes := [node "a" "trigger"; node "b" "action"; node "c" "widget"];
     edges := [edge "1" "a" "b" None; edge "2" "b" "c" None] |}.

(** A fan-out without a join: [a -> b -> d] and [a -> c]. *)
Definition tree : Graph :=
  {| nodes := [node "a" "trigger"; node "b" "action"; node "c" "widget";
               node "d" "action"];
     edges := [edge "1" "a" "b" None; edge "2" "a" "c" None;
               edge "3" "b" "d" None] |}.

Definition literal (b : bool) : BooleanExpression :=
  BoolExpr "value" None None None (VBool b).

(** A trigger that sets [x = 10], a condition [$x > 5], and a [log] action
    behind each of its branches. *)
Definition scenario : Graph :=
  {| nodes :=
       [ {| node_id := "t"; node_type := Some "trigger";
            node_data :=
              {| label := "Start";
                 config := VObj 0 [("variables", VObj 1 [("x", VNum 10%float)])];
                 operatorConfig := None; booleanExpression := None;
                 condition := None; actionType := None;
                 actionConfig := VUndefined |} |};
         {| node_id := "c"; node_type := Some "condition";
            node_data :=
              {| label := "Check"; config := VUndefined;
                 operatorConfig := None; booleanExpression := None;
                 condition :=
                   Some {| leftOperand := VStr "$x"; operator := "greaterThan";
                           rightOperand := VNum 5%float |};
                 actionType := None; actionConfig := VUndefined |} |};
         {| node_id := "big"; node_type := Some "action";
            node_data :=
              {| label := "Big"; config := VUndefined;
                 operatorConfig := None; booleanExpression := None;
                 condition := None; actionType := Some "log";
                 actionConfig := VObj 2 [("message", VStr "big")] |} |};
         {| node_id := "small"; node_type := Some "action";
            node_data :=
              {| label := "Small"; config := VUndefined;
                 operatorConfig := None; booleanExpression := None;
                 condition := None; actionType := Some "log";
                 actionConfig := VObj 3 [("message", VStr "small")] |} |} ];
     edges := [edge "1" "t" "c" None; edge "2" "c" "big" (Some "true");
               edge "3" "c" "small" (Some "false")] |}.

End Sample.

(* ================================================================== *)
(** ** Vocabulary of the statements *)
(* ================================================================== *)

Module Stated.
Import Operators Engine.

(** The condition [{ leftOperand: n, operator: op, rightOperand: s }]. *)
Definition compare_with (op : string) (n : float) (s : string) : Condition :=
  {| leftOperand := VNum n; operator := op; rightOperand := VStr s |}.

(** The operator node [{ type: 'operator', operator: op, operands }]. *)
Definition operator_node (op : string) (operands : list BooleanExpression)
  : BooleanExpression :=
  BoolExpr "operator" (Some op) (Some operands) None VUndefined.

(** The reference [$name]. *)
Definition reference (name : string) : value := VStr ("$" ++ name).

(** Variable resolution as the specification words it: a reference to a
    variable that is present in the context resolves to its value, a
    reference to one that is not present stays the literal, and any other
    operand is returned as it is. *)
Definition resolution_as_specified : Prop :=
  forall (context : gmap string value) (name : string),
    (forall x, context !! name = Some x ->
               resolveValue (reference name) context = x)
    /\ (context !! name = None ->
        resolveValue (reference name) context = reference name).

(** Branch routing as the specification words it: below a condition or
    boolean node an edge fires exactly when its label is ["true"] and the
    result is true, or ["false"] and the result is false. *)
Definition routing_as_specified : Prop :=
  forall (n : Node) (r : bool) (e : Edge),
    type_is n "condition" || type_is n "boolean" = true ->
    (shouldExecute n (VBool r) e = true <->
     (edge_label e = Some "true" /\ r = true)
     \/ (edge_label e = Some "false" /\ r = false)).

(** A method call that returns (the promise resolves). *)
Definition resolves {St A : Type} (m : Run.M St A) (s : St) : Prop :=
  exists a s', m s = Some (Ok a, s').

(** The node type is one of the five the [switch] of [executeNode] names. *)
Definition known (n : Node) : bool := existsb (type_is n) known_types.

(** The node prunes its outgoing edges. *)
Definition branching (n : Node) : bool :=
  type_is n "condition" || type_is n "boolean".

Definition call (nodeId message : string) (lvl : level) (d : payload)
  : LogCall :=
  {| log_nodeId := nodeId; log_message := message; log_level := lvl;
     log_data := d |}.

(** The state of the engine after [calls] more calls of [onLog]. *)
Definition logged (calls : list LogCall) (s : State) : State :=
  {| context := context s; onLog := onLog s ++ calls; counter := counter s |}.

(** The state after [results[id] = v; variables[name] = v]. *)
Definition stored (id name : string) (v : value) (s : State) : State :=
  set_variables <[name := v]> (set_results <[id := v]> s).

(** The nodes whose execution a run has started, in order: the node ids
    of the calls ["Executing node: ..."] that [executeNode] makes on entry. *)
Definition started (c : LogCall) : bool :=
  String.prefix "Executing node: " (log_message c).

Definition executed (s : State) : list string :=
  map log_nodeId (List.filter started (onLog s)).

(** The next nodes of [n]: for each outgoing edge, in the order of the edge
    list, the node [find] returns for its target. *)
Definition successors (g : Graph) (n : Node) : list Node :=
  flat_map (fun e => match find_node g (target e) with
                     | Some m => [m]
                     | None => []
                     end)
           (outgoingEdges g n).

(** Depth-first pre-order from [n], following every edge: [n] itself, then
    the whole order of its first successor, then that of the second, and
    so on.  A node that several paths reach occurs once for each. *)
Fixpoint visit_order (fuel : nat) (g : Graph) (n : Node) : list string :=
  match fuel with
  | O => []
  | S fuel' => node_id n :: flat_map (visit_order fuel' g) (successors g n)
  end.

(** The number of paths from [n] to the node called [id]. *)
Fixpoint paths (fuel : nat) (g : Graph) (n : Node) (id : string) : nat :=
  match fuel with
  | O => 0
  | S fuel' =>
      (if String.eqb (node_id n) id then 1 else 0)
      + list_sum (map (fun m => paths fuel' g m id) (successors g n))
  end.

(** [m] can be reached from [n] along edges. *)
Inductive reachable (g : Graph) : Node -> Node -> Prop :=
| reachable_here (n : Node) : reachable g n n
| reachable_next (n m k : Node) :
    In m (successors g n) -> reachable g m k -> reachable g n k.

(** [rank] decreases along every edge: the graph has no cycle. *)
Definition decreasing (rank : string -> nat) (g : Graph) : bool :=
  forallb (fun e => Nat.ltb (rank (target e)) (rank (source e))) (edges g).

(** An operator node whose handler cannot throw: it has no configuration,
    or names a math operation other than [min] and [max]. *)
Definition total_operator (n : Node) : bool :=
  negb (type_is n "operator")
  || match operatorConfig (node_data n) with
     | None => true
     | Some cfg =>
         includes_string mathOperations (operation cfg)
         && negb (String.eqb (operation cfg) "min")
         && negb (String.eqb (operation cfg) "max")
     end.

(** The inputs on which [min] and [max] do not throw a [TypeError]: they
    call [.map] on [values] whenever it is truthy. *)
Definition spreadable (inputs : gmap string value) : bool :=
  is_array (get inputs "values") || negb (ToBoolean (get inputs "values")).

End Stated.

(* ================================================================== *)
(** ** Where the model is the code *)
(* ================================================================== *)

(** The values of the model are those of JSON (plain objects, arrays,
    strings, numbers, booleans, [null]), [undefined] and dates; an object
    of the model is its own properties, and its prototype is
    [Object.prototype].  The code can meet more than that: a value that
    [String] and [Number] cannot convert, a property that is read from the
    prototype, a write to [__proto__].  The predicates below name the
    inputs on which the definitions above do what the code does; the
    statements that depend on one of them carry it as a hypothesis.  The
    ids, labels, node types, action types and operation names of a graph
    are strings, as the editor writes them. *)
Module Domain.
Import Operators Engine Stated.

(** The members of [Object.prototype]: what [o[k]] finds on an object that
    has no own property [k]. *)
Definition Object_prototype : list string :=
  ["constructor"; "hasOwnProperty"; "isPrototypeOf"; "propertyIsEnumerable";
   "toLocaleString"; "toString"; "valueOf"; "__proto__"; "__defineGetter__";
   "__defineSetter__"; "__lookupGetter__"; "__lookupSetter__"].

Definition inherited (k : string) : bool := includes_string Object_prototype k.

(** [o[k]] is the own property [k] of [o], or [undefined]: [JS.get] is the
    lookup of the code. *)
Definition reads_own (o : gmap string value) (k : string) : bool :=
  match o !! k with
  | Some _ => true
  | None => negb (inherited k)
  end.

(** The operand is no reference [$name] that the code would answer from
    [Object.prototype]. *)
Definition resolves_own (v : value) (context : gmap string value) : bool :=
  match v with
  | VStr s =>
      if startsWith s "$"
      then reads_own context (String.substring 1 (String.length s - 1) s)
      else true
  | _ => true
  end.

(** [o[k] = v] creates or overwrites the own property [k]: every key but
    [__proto__], whose assignment sets the prototype or does nothing. *)
Definition plain_key (k : string) : bool := negb (String.eqb k "__proto__").

(** [String(v)] and [Number(v)] return, and so do [v] as a property key,
    [v + w], [v == w] and [v < w].  An object converts through the
    [toString] it inherits; an own property [toString] of the model's
    values is no function, and the conversion throws a [TypeError].  An
    array converts its elements. *)
Fixpoint convertible (v : value) : bool :=
  match v with
  | VObj _ fields =>
      negb (existsb (fun kv => String.eqb (fst kv) "toString") fields)
  | VArr _ elems => forallb convertible elems
  | _ => true
  end.

(** The inputs named [keys] are convertible. *)
Definition convertible_inputs (keys : list string)
    (inputs : gmap string value) : bool :=
  forallb (fun k => convertible (get inputs k)) keys.

(** The handler of the node cannot throw: the node is no operator node
    with a configuration, and no [setVariable] action whose name does not
    convert to a property key.  (Condition and boolean nodes are excluded
    by [branching].) *)
Definition total_handler (n : Node) : bool :=
  (negb (type_is n "operator")
   || match operatorConfig (node_data n) with
      | None => true
      | Some _ => false
      end)
  && (negb (type_is n "action"
            && match actionType (node_data n) with
               | Some t => String.eqb t "setVariable"
               | None => false
               end)
      || convertible (field (actionConfig (node_data n)) "name")).

(** The id is the target of an edge. *)
Definition targeted (g : Graph) (id : string) : bool :=
  existsb (fun e => String.eqb (target e) id) (edges g).

(** [path] leads down from [n] along edges. *)
Inductive descends (g : Graph) : Node -> list Node -> Prop :=
| descends_here (n : Node) : descends g n []
| descends_next (n m : Node) (path : list Node) :
    In m (successors g n) -> descends g m path -> descends g n (m :: path).

(** The ids of the nodes that the run of [m] starts: the id of [m], then
    ids of nodes that are reached along an edge. *)
Definition run_of (g : Graph) (m : Node) (segment : list string) : Prop :=
  exists rest, segment = node_id m :: rest /\ forallb (targeted g) rest = true.

Section WithHost.
Context `{Host} `{OperatorFamilies}.

(** Trigger execution as the specification words it: a run starts every
    trigger. *)
Definition starts_from_each_trigger : Prop :=
  forall (g : Graph) (fuel : nat) (s s' : State)
         (o : result ExecutionContext),
    execute fuel g s = Some (o, s') ->
    forall t, In t (triggerNodes g) -> In (node_id t) (executed s').

End WithHost.

End Domain.

(* ================================================================== *)
(** ** The array and string families of [operators.ts] *)
(* ================================================================== *)

(** The executors that [OperatorFamilies] leaves open, written out for
    the string and the array operations.  A string is its sequence of
    characters, one code unit each.  The date operations read the clock,
    the locale and the time zone of the host and are not written out. *)
Module Families.

(** *** Indices *)

(** [ToIntegerOrInfinity] of a number. *)
Inductive integer := NegInfinity | Finite (z : Z) | PosInfinity.

Definition ToIntegerOrInfinity (x : float) : integer :=
  match Prim2SF x with
  | S754_nan | S754_zero _ => Finite 0
  | S754_infinity false => PosInfinity
  | S754_infinity true => NegInfinity
  | S754_finite s m e =>
      let z := Z.shiftl (Zpos m) e in
      Finite (if s then (- z)%Z else z)
  end.

(** The number [n] of a length or an index. *)
Definition of_nat (n : nat) : float :=
  SF2Prim (binary_normalize prec emax (Z.of_nat n) 0 false).

(** A relative index of [slice] and [splice]: a negative one counts from
    the end, and the result is clamped to [0 .. len]. *)
Definition relative_index (len : nat) (i : integer) : nat :=
  match i with
  | NegInfinity => 0
  | PosInfinity => len
  | Finite z =>
      if (z <? 0)%Z then Z.to_nat (Z.max (Z.of_nat len + z) 0)
      else Z.to_nat (Z.min z (Z.of_nat len))
  end.

(** An index of [substring]: clamped to [0 .. len]. *)
Definition clamped_index (len : nat) (i : integer) : nat :=
  match i with
  | NegInfinity => 0
  | PosInfinity => len
  | Finite z => Z.to_nat (Z.min (Z.max z 0) (Z.of_nat len))
  end.

(** [xs.slice(start, end)], [end] absent when [None]. *)
Definition slice {A} (xs : list A) (start : integer) (stop : option integer)
  : list A :=
  let len := length xs in
  let k := relative_index len start in
  let final := match stop with
               | Some e => relative_index len e
               | None => len
               end in
  take (final - k) (drop k xs).

(** [s.substring(start, end)] on the characters. *)
Definition substring {A} (xs : list A) (start : integer)
    (stop : option integer) : list A :=
  let len := length xs in
  let a := clamped_index len start in
  let b := match stop with
           | Some e => clamped_index len e
           | None => len
           end in
  take (Nat.max a b - Nat.min a b) (drop (Nat.min a b) xs).

(** [xs.splice(start, deleteCount, item)], the array it leaves. *)
Definition splice {A} (xs : list A) (start deleteCount : integer) (item : A)
  : list A :=
  let len := length xs in
  let k := relative_index len start in
  let d := match deleteCount with
           | NegInfinity => 0
           | PosInfinity => len - k
           | Finite z => Z.to_nat (Z.min (Z.max z 0) (Z.of_nat (len - k)))
           end in
  take k xs ++ item :: drop (k + d) xs.

(** *** Strings *)

Definition chars (s : string) : list ascii := list_ascii_of_string s.
Definition text (l : list ascii) : string := string_of_list_ascii l.

Definition is_prefix (p s : list ascii) : bool :=
  bool_decide (p = take (length p) s).

(** [s.split(sep)] for a separator that is not empty; [piece] holds the
    characters of the current piece, last first. *)
Fixpoint split_on (fuel : nat) (sep s piece : list ascii)
  : list (list ascii) :=
  match fuel, s with
  | S fuel', c :: s' =>
      if is_prefix sep s
      then rev piece :: split_on fuel' sep (drop (length sep) s) nil
      else split_on fuel' sep s' (c :: piece)
  | _, _ => [rev piece]
  end.

Definition split (s sep : string) : list string :=
  match chars sep with
  | nil => map (fun c => String c EmptyString) (chars s)
  | sep' => map text (split_on (String.length s) sep' (chars s) nil)
  end.

(** [pieces.join(sep)] on lists of characters. *)
Fixpoint flatten (sep : list ascii) (ls : list (list ascii)) : list ascii :=
  match ls with
  | nil => nil
  | x :: nil => x
  | x :: xs => x ++ sep ++ flatten sep xs
  end.

(** [s.indexOf(p)]: the first position at which [p] occurs, or [-1]. *)
Fixpoint index_of (p s : list ascii) (at_ : nat) : option nat :=
  if is_prefix p s then Some at_
  else match s with
       | nil => None
       | _ :: s' => index_of p s' (S at_)
       end.

Definition position (o : option nat) : float :=
  match o with
  | Some i => of_nat i
  | None => PrimFloat.opp PrimFloat.one
  end.

(** The string and array built-ins whose result the standard leaves to
    the implementation or that need more of the language than this model
    has: case mapping, [replace] with its patterns, and the order of
    [sort]. *)
Class Builtins := {
  String_toUpperCase : string -> string;
  String_toLowerCase : string -> string;
  (** [s.replace(searchValue, replaceValue)] *)
  String_replace : string -> value -> value -> string;
  (** [xs.sort()], the default order *)
  Array_sort : list value -> list value;
}.

(** [a || b] *)
Definition or_else (a b : value) : value := if ToBoolean a then a else b.

(** [SameValueZero], the equality of [includes]. *)
Definition same_value_zero (a b : value) : bool :=
  match a, b with
  | VNum x, VNum y =>
      PrimFloat.eqb x y || (PrimFloat.is_nan x && PrimFloat.is_nan y)
  | _, _ => strict_equals a b
  end.

(** [xs.indexOf(v)] with [===]. *)
Fixpoint first_index (v : value) (xs : list value) (at_ : nat) : option nat :=
  match xs with
  | nil => None
  | x :: xs' =>
      if strict_equals x v then Some at_ else first_index v xs' (S at_)
  end.

Section WithHost.
Context `{Host} `{Builtins}.

(** [end ? Number(end) : undefined] *)
Definition optional_end (stop : value) : option integer :=
  if ToBoolean stop then Some (ToIntegerOrInfinity (ToNumber stop)) else None.

(** [xs.join(sep)] *)
Definition join (xs : list value) (sep : string) : string :=
  String.concat sep
    (map (fun e => match e with
                   | VUndefined | VNull => ""
                   | _ => ToString e
                   end) xs).

(** [ToPrimitive] with no hint, and the [+] operator. *)
Definition ToPrimitive (v : value) : value :=
  match v with
  | VArr _ _ | VObj _ _ | VDate _ _ => VStr (ToString v)
  | _ => v
  end.

Definition add (a b : value) : value :=
  let pa := ToPrimitive a in
  let pb := ToPrimitive b in
  if is_string pa || is_string pb
  then VStr (ToString pa ++ ToString pb)
  else VNum (PrimFloat.add (ToNumber pa) (ToNumber pb)).

(** [executeStringOperation]; [fresh] is the reference of the array that
    [split] returns.  [String(str)] and the other conversions of the
    inputs are written as total: see [Domain.convertible]. *)
Definition executeStringOperation (fresh : nat) (operation : string)
    (inputs : gmap string value) : result value :=
  let str := get inputs "str" in
  let str1 := get inputs "str1" in
  let str2 := get inputs "str2" in
  let separator := get inputs "separator" in
  let start := get inputs "start" in
  let stop := get inputs "end" in
  let searchValue := get inputs "searchValue" in
  let replaceValue := get inputs "replaceValue" in
  let array := get inputs "array" in
  if String.eqb operation "concat" then
    Ok (VStr (ToString str1 ++ ToString str2))
  else if String.eqb operation "substring" then
    Ok (VStr (text (substring (chars (ToString str))
                      (ToIntegerOrInfinity (ToNumber start))
                      (optional_end stop))))
  else if String.eqb operation "replace" then
    Ok (VStr (String_replace (ToString str) searchValue replaceValue))
  else if String.eqb operation "split" then
    Ok (VArr fresh
          (map VStr (split (ToString str)
                       (ToString (or_else separator (VStr ""))))))
  else if String.eqb operation "join" then
    match array with
    | VArr _ elems =>
        Ok (VStr (join elems (ToString (or_else separator (VStr ",")))))
    | _ => Ok (VStr "")
    end
  else if String.eqb operation "toUpperCase" then
    Ok (VStr (String_toUpperCase (ToString str)))
  else if String.eqb operation "toLowerCase" then
    Ok (VStr (String_toLowerCase (ToString str)))
  else if String.eqb operation "trim" then
    Ok (VStr (text (trim_right (trim_left (chars (ToString str))))))
  else if String.eqb operation "length" then
    Ok (VNum (of_nat (String.length (ToString str))))
  else if String.eqb operation "indexOf" then
    Ok (VNum (position (index_of (chars (ToString searchValue))
                          (chars (ToString str)) 0)))
  else if String.eqb operation "slice" then
    Ok (VStr (text (slice (chars (ToString str))
                      (ToIntegerOrInfinity (ToNumber start))
                      (optional_end stop))))
  else Thrown (Error "Error" ("Unknown string operation: " ++ operation)).

(** A function among the inputs: what a call of it returns or throws.  The
    values of this model hold no functions, so the inputs [predicate] and
    [callback] of the array operations are given apart: [None] when the
    input is not a function. *)
Definition function : Type := list value -> result value.

(** [arr.filter(item => predicate(item))] *)
Fixpoint filter_by (predicate : function) (xs : list value)
  : result (list value) :=
  match xs with
  | nil => Ok nil
  | x :: xs' =>
      match predicate [x] with
      | Ok keep =>
          match filter_by predicate xs' with
          | Ok ys => Ok (if ToBoolean keep then x :: ys else ys)
          | Thrown e => Thrown e
          end
      | Thrown e => Thrown e
      end
  end.

(** [arr.map(item => callback(item))] *)
Fixpoint map_by (callback : function) (xs : list value)
  : result (list value) :=
  match xs with
  | nil => Ok nil
  | x :: xs' =>
      match callback [x] with
      | Ok y =>
          match map_by callback xs' with
          | Ok ys => Ok (y :: ys)
          | Thrown e => Thrown e
          end
      | Thrown e => Thrown e
      end
  end.

(** [arr.reduce((acc, item) => callback(acc, item), acc)] *)
Fixpoint reduce_by (callback : function) (xs : list value) (acc : value)
  : result value :=
  match xs with
  | nil => Ok acc
  | x :: xs' =>
      match callback [acc; x] with
      | Ok acc' => reduce_by callback xs' acc'
      | Thrown e => Thrown e
      end
  end.

(** [arr.find(item => predicate(item))] *)
Fixpoint find_by (predicate : function) (xs : list value) : result value :=
  match xs with
  | nil => Ok VUndefined
  | x :: xs' =>
      match predicate [x] with
      | Ok found => if ToBoolean found then Ok x else find_by predicate xs'
      | Thrown e => Thrown e
      end
  end.

(** [executeArrayOperation], [predicate] and [callback] being the inputs of
    that name when they are functions.  [fresh] is the reference of the
    array that is returned.  The conversions [Number(start)],
    [Number(end)], [Number(deleteCount || 0)], [acc + item] and those of
    [join] and [sort] are written as total: see [Domain.convertible]. *)
Definition executeArrayOperationWith (predicate callback : option function)
    (fresh : nat) (operation : string) (inputs : gmap string value)
  : result value :=
  let array := get inputs "array" in
  let value := get inputs "value" in
  let start := get inputs "start" in
  let stop := get inputs "end" in
  let deleteCount := get inputs "deleteCount" in
  match array with
  | VArr _ arr =>
      if String.eqb operation "push" then Ok (VArr fresh (arr ++ [value]))
      else if String.eqb operation "pop" then Ok (VArr fresh (removelast arr))
      else if String.eqb operation "shift" then Ok (VArr fresh (tl arr))
      else if String.eqb operation "unshift" then
        Ok (VArr fresh (value :: arr))
      else if String.eqb operation "slice" then
        Ok (VArr fresh (slice arr (ToIntegerOrInfinity (ToNumber start))
                          (optional_end stop)))
      else if String.eqb operation "splice" then
        Ok (VArr fresh
              (splice arr (ToIntegerOrInfinity (ToNumber start))
                 (ToIntegerOrInfinity
                    (ToNumber (or_else deleteCount (VNum PrimFloat.zero))))
                 value))
      else if String.eqb operation "filter" then
        match predicate with
        | Some p => result_map (VArr fresh) (filter_by p arr)
        | None =>
            Ok (VArr fresh
                  (List.filter
                     (fun item => negb (strict_equals item value)) arr))
        end
      else if String.eqb operation "map" then
        match callback with
        | Some c => result_map (VArr fresh) (map_by c arr)
        | None => Ok (VArr fresh arr)
        end
      else if String.eqb operation "reduce" then
        match callback with
        | Some c => reduce_by c arr (or_else value (VNum PrimFloat.zero))
        | None => Ok (fold_left add arr (or_else value (VNum PrimFloat.zero)))
        end
      else if String.eqb operation "find" then
        match predicate with
        | Some p => find_by p arr
        | None =>
            Ok (match List.find (fun item => strict_equals item value) arr with
                | Some item => item
                | None => VUndefined
                end)
        end
      else if String.eqb operation "sort" then Ok (VArr fresh (Array_sort arr))
      else if String.eqb operation "reverse" then Ok (VArr fresh (rev arr))
      else if String.eqb operation "length" then
        Ok (VNum (of_nat (length arr)))
      else if String.eqb operation "includes" then
        Ok (VBool (existsb (fun item => same_value_zero item value) arr))
      else if String.eqb operation "indexOf" then
        Ok (VNum (position (first_index value arr 0)))
      else if String.eqb operation "join" then
        Ok (VStr (join arr (ToString (or_else value (VStr ",")))))
      else Thrown (Error "Error" ("Unknown array operation: " ++ operation))
  | _ => Thrown (Error "Error" "Input must be an array")
  end.

(** [executeArrayOperation] on inputs none of which is a function. *)
Definition executeArrayOperation : nat -> string -> gmap string value
                                   -> result value :=
  executeArrayOperationWith None None.

End WithHost.
End Families.

(* ================================================================== *)
(** ** The store ([useWorkflowStore]) and [handleExecute] of [App.tsx] *)
(* ================================================================== *)

Module Store.
Import Operators Engine.

(** The state of the store; nodes and edges as the engine reads them. *)
Record Store := {
  nodes : list Node;
  edges : list Edge;
  selectedNode : option Node;
  executionContext : ExecutionContext;
  isExecuting : bool;
}.

Definition empty : Store :=
  {| nodes := []; edges := []; selectedNode := None;
     executionContext := {| variables := ∅; results := ∅; logs := [] |};
     isExecuting := false |}.

Definition addNode (node : Node) (s : Store) : Store :=
  {| nodes := nodes s ++ [node]; edges := edges s;
     selectedNode := selectedNode s;
     executionContext := executionContext s; isExecuting := isExecuting s |}.

Definition deleteNode (nodeId : string) (s : Store) : Store :=
  {| nodes := List.filter (fun node => negb (String.eqb (node_id node) nodeId))
                          (nodes s);
     edges := List.filter
                (fun edge => negb (String.eqb (source edge) nodeId)
                             && negb (String.eqb (target edge) nodeId))
                (edges s);
     selectedNode := selectedNode s;
     executionContext := executionContext s; isExecuting := isExecuting s |}.

Definition deleteEdge (edgeId : string) (s : Store) : Store :=
  {| nodes := nodes s;
     edges := List.filter (fun edge => negb (String.eqb (edge_id edge) edgeId))
                          (edges s);
     selectedNode := selectedNode s;
     executionContext := executionContext s; isExecuting := isExecuting s |}.

Definition clearWorkflow (s : Store) : Store :=
  {| nodes := []; edges := []; selectedNode := None;
     executionContext := executionContext s; isExecuting := isExecuting s |}.

Definition loadWorkflow (ns : list Node) (es : list Edge) (s : Store) : Store :=
  {| nodes := ns; edges := es; selectedNode := selectedNode s;
     executionContext := executionContext s; isExecuting := isExecuting s |}.

(** [addLog(nodeId, message, level, data)]; [now] is what [new Date()]
    reads. *)
Definition addLog (now : float) (c : LogCall) (s : Store) : Store :=
  {| nodes := nodes s; edges := edges s; selectedNode := selectedNode s;
     executionContext :=
       {| variables := variables (executionContext s);
          results := results (executionContext s);
          logs := logs (executionContext s)
                    ++ [{| timestamp := now; entry := c |}] |};
     isExecuting := isExecuting s |}.

Definition setIsExecuting (b : bool) (s : Store) : Store :=
  {| nodes := nodes s; edges := edges s; selectedNode := selectedNode s;
     executionContext := executionContext s; isExecuting := b |}.

Definition clearLogs (s : Store) : Store :=
  {| nodes := nodes s; edges := edges s; selectedNode := selectedNode s;
     executionContext :=
       {| variables := variables (executionContext s);
          results := results (executionContext s);
          logs := [] |};
     isExecuting := isExecuting s |}.

(** The workflow the engine is constructed with. *)
Definition graph (s : Store) : Graph :=
  {| Engine.nodes := nodes s; Engine.edges := edges s |}.

(** The calls the engine makes to [addLog], in order; the [k]-th entry of
    the store is stamped [clock k]. *)
Definition replay (clock : nat -> float) (calls : list LogCall) (s : Store)
  : Store :=
  fold_left (fun acc c =>
               addLog (clock (length (logs (executionContext acc)))) c acc)
            calls s.

Section WithHost.
Context `{Host} `{OperatorFamilies}.

(** [handleExecute] of [App.tsx]: [None] when [engine.execute()] does not
    settle, and [finally] is not reached. *)
Definition handleExecute (clock : nat -> float) (fuel : nat) (s : Store)
  : option Store :=
  let s := setIsExecuting true (clearLogs s) in
  match execute fuel (graph s) initial with
  | None => None
  | Some (r, engine) =>
      let s := replay clock (onLog engine) s in
      let s :=
        match r with
        | Ok _ => s
        | Thrown error =>
            addLog (clock (length (logs (executionContext s))))
                   {| log_nodeId := "system";
                      log_message := "Execution failed: " ++ err_message error;
                      log_level := level_error; log_data := no_data |}
                   s
        end in
      Some (setIsExecuting false s)
  end.

End WithHost.

End Store.

(* ================================================================== *)
(** ** The evaluator of [BooleanBuilder] ([operators.js]) *)
(* ================================================================== *)

Module Builder.

(** [{ type: 'simple', variable, operator, value }] and
    [{ type: 'group', operator, conditions }]. *)
Inductive Expression : Type :=
| Simple (variable operator : string) (value : JS.value)
| Group (operator : string) (conditions : list Expression).

Definition is_object (v : value) : bool :=
  match v with
  | VArr _ _ | VObj _ _ | VDate _ _ => true
  | _ => false
  end.

Section WithHost.
Context `{Host}.

(** [ToPrimitive] of an object: to its string, and with the hint [number] a
    date to its time value. *)
Definition ToPrimitive (v : value) : value :=
  if is_object v then VStr (ToString v) else v.

Definition ToPrimitive_number (v : value) : value :=
  match v with
  | VDate _ ms => VNum ms
  | _ => ToPrimitive v
  end.

(** [a == b] on primitive values. *)
Definition loose_primitive (a b : value) : bool :=
  match a, b with
  | (VUndefined | VNull), (VUndefined | VNull) => true
  | (VUndefined | VNull), _ | _, (VUndefined | VNull) => false
  | VStr x, VStr y => String.eqb x y
  | _, _ => PrimFloat.eqb (ToNumber a) (ToNumber b)
  end.

(** [a == b] *)
Definition loose_equals (a b : value) : bool :=
  match is_object a, is_object b with
  | true, true => strict_equals a b
  | true, false =>
      match b with
      | VUndefined | VNull => false
      | _ => loose_primitive (ToPrimitive a) b
      end
  | false, true =>
      match a with
      | VUndefined | VNull => false
      | _ => loose_primitive a (ToPrimitive b)
      end
  | false, false => loose_primitive a b
  end.

(** [a < b]: [None] when the comparison is undefined, one side being
    [NaN]. *)
Definition less_than (a b : value) : option bool :=
  match ToPrimitive_number a, ToPrimitive_number b with
  | VStr x, VStr y => Some (String.ltb x y)
  | pa, pb =>
      if PrimFloat.is_nan (ToNumber pa) || PrimFloat.is_nan (ToNumber pb)
      then None
      else Some (PrimFloat.ltb (ToNumber pa) (ToNumber pb))
  end.

(** [parseValue] *)
Definition parseValue (v : value) : value :=
  if strict_equals v (VStr "true") then VBool true
  else if strict_equals v (VStr "false") then VBool false
  else if negb (PrimFloat.is_nan (ToNumber v)) then VNum (ToNumber v)
  else v.

(** The pattern of [new RegExp(v)]: empty for [undefined]. *)
Definition pattern_of (v : value) : string :=
  match v with
  | VUndefined => EmptyString
  | _ => ToString v
  end.

(** [evaluateCondition]; [context[condition.variable]] is the own property
    of that name, and [==], [<], [isNaN] and [String()] are applied to
    values that convert ([Domain.reads_own], [Domain.convertible]). *)
Definition evaluateCondition (variable operator : string) (v : value)
    (context : gmap string value) : result bool :=
  let value := get context variable in
  let compareValue := parseValue v in
  if String.eqb operator "==" then Ok (loose_equals value compareValue)
  else if String.eqb operator "!=" then
    Ok (negb (loose_equals value compareValue))
  else if String.eqb operator ">" then
    Ok (default false (less_than compareValue value))
  else if String.eqb operator "<" then
    Ok (default false (less_than value compareValue))
  else if String.eqb operator ">=" then
    Ok (match less_than value compareValue with
        | Some false => true
        | _ => false
        end)
  else if String.eqb operator "<=" then
    Ok (match less_than compareValue value with
        | Some false => true
        | _ => false
        end)
  else if String.eqb operator "contains" then
    Ok (includes (ToString value) (ToString compareValue))
  else if String.eqb operator "startsWith" then
    Ok (startsWith (ToString value) (ToString compareValue))
  else if String.eqb operator "endsWith" then
    Ok (endsWith (ToString value) (ToString compareValue))
  else if String.eqb operator "matches" then
    if RegExp_valid (pattern_of compareValue)
    then Ok (RegExp_test (pattern_of compareValue) (ToString value))
    else Thrown (Error "SyntaxError"
                   ("Invalid regular expression: /"
                      ++ pattern_of compareValue ++ "/"))
  else Ok false.

(** [evaluateGroup]; called on a simple condition it reads the [length] of
    a [conditions] that is not there. *)
Fixpoint evaluateGroup (group : Expression) (context : gmap string value)
  : result bool :=
  match group with
  | Simple _ _ _ =>
      Thrown (Error "TypeError"
                "Cannot read properties of undefined (reading 'length')")
  | Group operator conditions =>
      match conditions with
      | nil => Ok true
      | _ =>
          match
            (fix map_eval (l : list Expression) : result (list bool) :=
               match l with
               | nil => Ok nil
               | c :: l' =>
                   match
                     match c with
                     | Group _ _ => evaluateGroup c context
                     | Simple variable operator v =>
                         evaluateCondition variable operator v context
                     end
                   with
                   | Ok b =>
                       match map_eval l' with
                       | Ok bs => Ok (b :: bs)
                       | Thrown err => Thrown err
                       end
                   | Thrown err => Thrown err
                   end
               end) conditions
          with
          | Ok results => Ok (Legacy.applyOperator operator results)
          | Thrown err => Thrown err
          end
      end
  end.

(** The results of the conditions of a group, in order. *)
Fixpoint evaluateConditions (conditions : list Expression)
    (context : gmap string value) : result (list bool) :=
  match conditions with
  | nil => Ok nil
  | c :: l' =>
      match
        match c with
        | Group _ _ => evaluateGroup c context
        | Simple variable operator v =>
            evaluateCondition variable operator v context
        end
      with
      | Ok b =>
          match evaluateConditions l' context with
          | Ok bs => Ok (b :: bs)
          | Thrown err => Thrown err
          end
      | Thrown err => Thrown err
      end
  end.

End WithHost.
End Builder.

(* ================================================================== *)
(** ** Vocabulary of the further statements *)
(* ================================================================== *)

Module Observed.
Import Operators Engine Stated Domain.

(** The call [executeNode] makes on entry. *)
Definition entry_call (node : Node) : LogCall :=
  call (node_id node) ("Executing node: " ++ label (node_data node))
       level_info no_data.

(** The call that reports the end of a run. *)
Definition completion (c : LogCall) : bool :=
  String.eqb (log_message c) "Workflow execution completed".

(** Between [s] and [s'] calls of [onLog] were made, each of them in [P]. *)
Definition appends (P : LogCall -> bool) (s s' : State) : Prop :=
  exists calls, onLog s' = onLog s ++ calls /\ forallb P calls = true.

(** A call other than the one that reports the end of the run. *)
Definition unfinished (c : LogCall) : bool := negb (completion c).

(** A call that neither starts a node nor reports the end of the run. *)
Definition inner (c : LogCall) : bool :=
  negb (started c) && negb (completion c).

(** A call made below a node: it does not report the end of the run, and
    a node it starts is the target of an edge. *)
Definition below (g : Graph) (c : LogCall) : bool :=
  negb (completion c) && (negb (started c) || targeted g (log_nodeId c)).

(** What a run may do to the engine state: it appends calls of [onLog],
    adds or overwrites variables and results, and leaves [context.logs]
    alone. *)
Definition grows (s s' : State) : Prop :=
  logs (context s') = logs (context s)
  /\ (exists calls, onLog s' = onLog s ++ calls)
  /\ dom (variables (context s)) ⊆ dom (variables (context s'))
  /\ dom (results (context s)) ⊆ dom (results (context s')).

(** No node is started between [s] and [s']. *)
Definition quiet (s s' : State) : Prop := executed s' = executed s.

(** Every node started between [s] and [s'] has a result in [s']. *)
Definition accounted (s s' : State) : Prop :=
  forall id, In id (executed s') ->
             In id (executed s) \/ is_Some (results (context s') !! id).

(** Every way the method [m] can end relates the states by [R]. *)
Definition preserves {A} (R : State -> State -> Prop) (m : Run.M State A)
  : Prop :=
  forall s o s', m s = Some (o, s') -> R s s'.

(** The same for the runs of [m] that return. *)
Definition returns_with {A} (R : State -> State -> Prop) (m : Run.M State A)
  : Prop :=
  forall s a s', m s = Some (Ok a, s') -> R s s'.

(** The call [executeNode] makes in its [catch] block. *)
Definition error_call (node : Node) (e : error) : LogCall :=
  call (node_id node) ("Error executing node: " ++ err_message e)
       level_error (data_error e).

(** The value the last binding of [k] in [l] gives it. *)
Definition last_binding (k : string) (l : list (string * value))
  : option value :=
  option_map snd (List.find (fun kv => String.eqb (fst kv) k) (rev l)).

(** The nodes marked by [loops] lie on a path that never ends: each has a
    successor that is marked too. *)
Definition closed_under_successor (g : Graph) (loops : Node -> bool) : bool :=
  forallb (fun m => implb (loops m) (existsb loops (successors g m)))
          (nodes g).

(** The node is a [setVariable] action. *)
Definition sets_variable (node : Node) : bool :=
  type_is node "action"
  && match actionType (node_data node) with
     | Some t => String.eqb t "setVariable"
     | None => false
     end.

(** The ten comparison operators [evaluateCondition] names. *)
Definition comparisons : list string :=
  ["equals"; "notEquals"; "greaterThan"; "lessThan"; "greaterOrEqual";
   "lessOrEqual"; "contains"; "startsWith"; "endsWith"; "matches"].

(** The four operators [evaluateBooleanExpression] names. *)
Definition connectives : list string := ["AND"; "OR"; "NOT"; "XOR"].

(** The expressions on which [evaluateBooleanExpression] reaches one of
    its three branches. *)
Definition well_formed (e : BooleanExpression) : bool :=
  match e with
  | BoolExpr type operator operands condition _ =>
      String.eqb type "value"
      || (String.eqb type "condition"
          && match condition with Some _ => true | None => false end)
      || (String.eqb type "operator"
          && match operator with
             | Some op => negb (String.eqb op "")
             | None => false
             end
          && match operands with Some _ => true | None => false end)
  end.

(** The operation names that reach [executeArrayOperation]. *)
Definition shadowed : list string := ["join"; "length"; "indexOf"; "slice"].
(** The elements of an array value. *)
Definition elements (v : value) : list value :=
  match v with VArr _ xs => xs | _ => [] end.

Definition is_NaN (v : value) : bool :=
  match v with VNum x => PrimFloat.is_nan x | _ => false end.

(** [-1], what [indexOf] returns when it finds nothing. *)
Definition not_found : value := VNum (PrimFloat.opp PrimFloat.one).
(** Every edge of the store starts and ends at a node of the store. *)
Definition attached (s : Store.Store) : bool :=
  forallb (fun e =>
             existsb (fun n => String.eqb (node_id n) (source e)) (Store.nodes s)
             && existsb (fun n => String.eqb (node_id n) (target e)) (Store.nodes s))
          (Store.edges s).

End Observed.

(* ================================================================== *)
(** ** Further examples *)
(* ================================================================== *)

(** Inputs on which the statements below are instantiated. *)
Module Fixtures.
Import Operators Engine Sample Observed.

#[export] Instance builtins : Families.Builtins := {|
  Families.String_toUpperCase := fun s => s;
  Families.String_toLowerCase := fun s => s;
  Families.String_replace := fun s _ _ => s;
  Families.Array_sort := fun xs => xs;
|}.

(** The executors of [operators.ts], and a variant whose array executor
    answers differently to the four operation names of [shadowed]. *)
Definition concrete : OperatorFamilies := {|
  executeStringOperation := Families.executeStringOperation 0;
  executeArrayOperation := Families.executeArrayOperation;
  executeDateOperation := fun _ _ _ => Ok VUndefined;
|}.

Definition variant : OperatorFamilies := {|
  executeStringOperation := Families.executeStringOperation 0;
  executeArrayOperation := fun fresh operation inputs =>
    if includes_string shadowed operation then Ok VNull
    else Families.executeArrayOperation fresh operation inputs;
  executeDateOperation := fun _ _ _ => Ok VUndefined;
|}.

(** A trigger [t] before a node [a] that leads back to itself. *)
Definition looping : Graph :=
  {| nodes := [node "t" "trigger"; node "a" "action"];
     edges := [edge "1" "t" "a" None; edge "2" "a" "a" None] |}.

(** A single condition node whose operator is not one of the ten. *)
Definition failing : Graph :=
  {| nodes :=
       [ {| node_id := "c"; node_type := Some "condition";
            node_data :=
              {| label := "Check"; config := VUndefined;
                 operatorConfig := None; booleanExpression := None;
                 condition :=
                   Some {| leftOperand := VNum 1%float; operator := "bogus";
                           rightOperand := VNum 2%float |};
                 actionType := None; actionConfig := VUndefined |} |} ];
     edges := [] |}.

(** A [setVariable] action whose variable is named like the node. *)
Definition assigning : Node :=
  {| node_id := "s"; node_type := Some "action";
     node_data :=
       {| label := "total"; config := VUndefined; operatorConfig := None;
          booleanExpression := None; condition := None;
          actionType := Some "setVariable";
          actionConfig := VObj 7 [("name", VStr "total");
                                  ("value", VNum 1%float)] |} |}.

(** Two nodes without edges, both of them triggers of the engine: the
    condition of [failing], which throws, before a trigger node. *)
Definition twoTriggers : Graph :=
  {| nodes := nodes failing ++ [node "t" "trigger"]; edges := [] |}.

(** Two triggers, the first of them before an action. *)
Definition relay : Graph :=
  {| nodes := [node "t1" "trigger"; node "a" "action"; node "t2" "trigger"];
     edges := [edge "1" "t1" "a" None] |}.

(** A trigger before the condition of [failing]. *)
Definition deep : Graph :=
  {| nodes := node "t" "trigger" :: nodes failing;
     edges := [edge "1" "t" "c" None] |}.

(** A node of an unknown type before an action. *)
Definition widgets : Graph :=
  {| nodes := [node "w" "widget"; node "a" "action"];
     edges := [edge "1" "w" "a" None] |}.

(** A trigger that sets [x = 10]. *)
Definition starting : Node :=
  {| node_id := "t"; node_type := Some "trigger";
     node_data :=
       {| label := "Start";
          config := VObj 8 [("variables", VObj 9 [("x", VNum 10%float)])];
          operatorConfig := None; booleanExpression := None;
          condition := None; actionType := None;
          actionConfig := VUndefined |} |}.

(** A condition that throws. *)
Definition bogus : BooleanExpression :=
  BoolExpr "condition" None None
    (Some {| leftOperand := VNum 1%float; operator := "bogus";
             rightOperand := VNum 2%float |})
    VUndefined.

(** The input object [{ k1: v1, ... }]. *)
Definition object (fields : list (string * value)) : gmap string value :=
  list_to_map fields.

End Fixtures.

(* ================================================================== *)
(** ** Properties *)
(* ================================================================== *)

(** *** Doubles *)

Section FloatFacts.

Lemma SFcompare_Eq_sym x y :
  SFcompare x y = Some Eq -> SFcompare y x = Some Eq.
Proof.
  destruct x as [sx | sx | | sx mx ex], y as [sy | sy | | sy my ey];
    simpl; try discriminate; try reflexivity;
    try (destruct sx; discriminate); try (destruct sy; discriminate).
  - destruct sx, sy; simpl; congruence.
  - destruct sx, sy; try discriminate;
      (destruct (Z.compare ex ey) eqn:E; try discriminate;
       apply Z.compare_eq in E; subst ey; rewrite Z.compare_refl;
       intros C; injection C as C;
       destruct (Pos.compare_cont Eq mx my) eqn:P; try discriminate;
       apply Pos.compare_eq in P; subst my;
       change (Pos.compare_cont Eq mx mx) with (Pos.compare mx mx);
       now rewrite Pos.compare_refl).
Qed.

(** [x == y] on numbers gives [x <= y] and [y <= x]. *)
Lemma eqb_leb (x y : float) :
  PrimFloat.eqb x y = true ->
  PrimFloat.leb x y = true /\ PrimFloat.leb y x = true.
Proof.
  rewrite FloatAxioms.eqb_spec, !FloatAxioms.leb_spec. unfold SFeqb, SFleb.
  destruct (SFcompare (Prim2SF x) (Prim2SF y)) as [[ | | ] | ] eqn:E;
    try discriminate.
  intros _. now rewrite (SFcompare_Eq_sym _ _ E).
Qed.

End FloatFacts.

(** *** Reading numbers *)

Section Reading.

Lemma startsWith_cons (s p0 : string) (c : ascii) :
  startsWith s (String c p0) = true -> exists s', s = String c s'.
Proof.
  unfold startsWith. destruct s as [ | a s']; simpl; [discriminate | ].
  destruct (Ascii.ascii_dec c a); [ | discriminate ].
  subst a. eauto.
Qed.

Lemma trim_right_head (c : ascii) (l : list ascii) :
  is_ws c = false -> exists r, trim_right (c :: l) = c :: r.
Proof.
  intros W. simpl. destruct (trim_right l); rewrite ?W; eauto.
Qed.

(** A string that begins with [$] is not a numeric literal. *)
Lemma StringToNumber_dollar (s : string) :
  startsWith s "$" = true -> StringToNumber s = PrimFloat.nan.
Proof.
  intros P. apply startsWith_cons in P as [s' ->].
  unfold StringToNumber.
  change (list_ascii_of_string (String "$" s'))
    with ("$"%char :: list_ascii_of_string s').
  change (trim_left ("$"%char :: list_ascii_of_string s'))
    with ("$"%char :: list_ascii_of_string s').
  destruct (trim_right_head "$" (list_ascii_of_string s') eq_refl) as [r ->].
  unfold read_numeric.
  change (Ascii.eqb "$" "-") with false.
  change (Ascii.eqb "$" "+") with false.
  change (read_non_decimal ("$"%char :: r)) with (@None float).
  cbv iota. unfold read_unsigned_decimal.
  rewrite bool_decide_eq_false_2 by discriminate.
  reflexivity.
Qed.

End Reading.

(** *** Conditions and boolean expressions ([operators.ts]) *)

Module OperatorFacts.
Import Operators Stated Domain.

Section WithHost.
Context `{Host}.

Lemma resolveValue_number (x : float) (context : gmap string value) :
  resolveValue (VNum x) context = VNum x.
Proof. reflexivity. Qed.

Lemma resolveValue_plain_string (s : string) (context : gmap string value) :
  startsWith s "$" = false -> resolveValue (VStr s) context = VStr s.
Proof. intros P. unfold resolveValue. now rewrite P. Qed.

(** C10. [equals] and [notEquals] compare the resolved operands with [===],
    without coercion: for a number [n] and a string [s] that reads as [n]
    (that is, [Number(s) == n]: any decimal representation of [n]),
    [equals] is false and [notEquals] true, although [greaterOrEqual] and
    [lessOrEqual], which compare [Number(left)] with [Number(right)], are
    both true. *)
Theorem equals_is_strict_where_ordering_coerces
    (n : float) (s : string) (context : gmap string value) :
  PrimFloat.eqb (StringToNumber s) n = true ->
  evaluateCondition (compare_with "equals" n s) context = Ok false
  /\ evaluateCondition (compare_with "notEquals" n s) context = Ok true
  /\ evaluateCondition (compare_with "greaterOrEqual" n s) context = Ok true
  /\ evaluateCondition (compare_with "lessOrEqual" n s) context = Ok true.
Proof.
  intros E.
  assert (P : startsWith s "$" = false).
  { destruct (startsWith s "$") eqn:P; [ | reflexivity ].
    rewrite (StringToNumber_dollar s P) in E.
    destruct (eqb_leb _ _ E) as [_ L].
    rewrite FloatAxioms.leb_spec in L. unfold SFleb in L.
    destruct (Prim2SF n); discriminate L. }
  destruct (eqb_leb _ _ E) as [L1 L2].
  unfold evaluateCondition, compare_with; simpl leftOperand;
    simpl rightOperand; simpl operator.
  rewrite resolveValue_number, (resolveValue_plain_string s context P).
  repeat split; simpl; congruence.
Qed.


Lemma substring_all (s : string) : String.substring 0 (String.length s) s = s.
Proof. induction s as [ | c s IH]; simpl; [ reflexivity | now rewrite IH ]. Qed.

Lemma resolveValue_reference (name : string) (context : gmap string value) :
  resolveValue (reference name) context =
  match get context name with
  | VUndefined => reference name
  | found => found
  end.
Proof.
  unfold resolveValue, reference.
  change ("$" ++ name)%string with (String "$"%char name).
  assert (P : startsWith (String "$"%char name) "$" = true).
  { unfold startsWith. simpl.
    destruct (Ascii.ascii_dec "$" "$"); [ now destruct name | congruence ]. }
  rewrite P.
  replace (String.substring 1 (String.length (String "$"%char name) - 1)
             (String "$"%char name)) with name; [ reflexivity | ].
  simpl. now rewrite Nat.sub_0_r, substring_all.
Qed.


Lemma evaluateOperands_unfold (ops : list BooleanExpression)
    (context : gmap string value) :
  (fix map_eval (l : list BooleanExpression) : result (list bool) :=
     match l with
     | nil => Ok nil
     | e :: l' =>
         match evaluateBooleanExpression e context with
         | Ok b =>
             match map_eval l' with
             | Ok bs => Ok (b :: bs)
             | Thrown err => Thrown err
             end
         | Thrown err => Thrown err
         end
     end) ops = evaluateOperands ops context.
Proof.
  induction ops as [ | e ops IH]; simpl; [ reflexivity | ].
  destruct (evaluateBooleanExpression e context); [ | reflexivity ].
  now rewrite IH.
Qed.

(** An operator node evaluates its children first, then combines. *)
Lemma evaluate_operator_node (op : string) (ops : list BooleanExpression)
    (condition : option Condition) (v : value)
    (context : gmap string value) :
  op <> "" ->
  evaluateBooleanExpression (BoolExpr "operator" (Some op) (Some ops) condition v)
    context =
  match evaluateOperands ops context with
  | Ok operandResults => combine op operandResults
  | Thrown err => Thrown err
  end.
Proof.
  intros N. simpl.
  rewrite evaluateOperands_unfold.
  destruct (String.eqb op "") eqn:E; [ | reflexivity ].
  apply String.eqb_eq in E. contradiction.
Qed.

(** The [reduce] of the XOR case computes the parity of the [true]s. *)
Lemma reduce_parity (rs : list bool) (acc : bool) :
  fold_left (fun acc val => negb (Bool.eqb acc val)) rs acc =
  xorb acc (Nat.odd (length (List.filter (fun r => r) rs))).
Proof.
  revert acc. induction rs as [ | r rs IH]; intros acc; simpl.
  - now destruct acc.
  - rewrite IH. destruct r; simpl.
    + rewrite Nat.odd_succ, <- Nat.negb_odd.
      destruct acc, (Nat.odd (length (List.filter (fun r => r) rs)));
        reflexivity.
    + destruct acc; reflexivity.
Qed.

(** C4. An XOR node over any list of children returns [true] exactly when
    an odd number of the children evaluate to [true] (a child that throws
    makes the node throw); XOR over [[true, true, true]] is [true]. *)
Theorem xor_is_parity (ops : list BooleanExpression)
    (condition : option Condition) (v : value)
    (context : gmap string value) :
  evaluateBooleanExpression
    (BoolExpr "operator" (Some "XOR") (Some ops) condition v) context =
    result_map
      (fun operandResults =>
         Nat.odd (length (List.filter (fun r => r) operandResults)))
      (evaluateOperands ops context)
  /\ evaluateBooleanExpression
       (operator_node "XOR"
          [Sample.literal true; Sample.literal true; Sample.literal true])
       context = Ok true.
Proof.
  split; [ | reflexivity ].
  rewrite evaluate_operator_node by discriminate.
  destruct (evaluateOperands ops context) as [rs | err]; [ | reflexivity ].
  unfold combine, result_map. simpl. now rewrite reduce_parity.
Qed.

(** The fourteen operations return; only [min] and [max] look at the
    shape of an input. *)
Lemma executeMathOperation_returns (draw : float) (operation : string)
    (inputs : gmap string value) :
  In operation mathOperations ->
  (operation = "min" \/ operation = "max" -> spreadable inputs = true) ->
  exists x, executeMathOperation draw operation inputs = Ok x.
Proof.
  intros I S. unfold mathOperations in I. simpl in I.
  assert (Sp : forall k : list float -> float,
            spreadable inputs = true -> exists x : float,
              match (if ToBoolean (get inputs "values")
                     then get inputs "values"
                     else VArr 0 [get inputs "a"; get inputs "b"]) with
              | VArr _ elems => Ok (k (map ToNumber elems))
              | _ => Thrown (Error "TypeError"
                               "(values || [a, b]).map is not a function")
              end = Ok x).
  { intros k. unfold spreadable.
    destruct (ToBoolean (get inputs "values")) eqn:T; [ | eauto ].
    rewrite orb_false_r. destruct (get inputs "values"); try discriminate.
    eauto. }
  repeat (destruct I as [<- | I]; [ try (eexists; reflexivity) | ]);
    try contradiction.
  - apply Sp, S. now left.
  - apply Sp, S. now right.
Qed.

(** C8. [divide] with [a = 10] and [b = 0] returns [Infinity]; and each of
    the fourteen math operations returns a number and does not throw on
    inputs [a], [b], [value] and [values] that [Number] converts, whatever
    they convert to: every number, string, boolean, [null] and
    [undefined], and the objects and arrays of [Domain.convertible]
    ([min] and [max] on condition that [values], when given, is an
    array). *)
Theorem math_operations_do_not_throw (draw : float) :
  executeMathOperation draw "divide"
    (<["a" := VNum 10%float]> (<["b" := VNum 0%float]> ∅)) =
    Ok PrimFloat.infinity
  /\ (forall operation inputs,
        In operation mathOperations ->
        (operation = "min" \/ operation = "max" -> spreadable inputs = true) ->
        convertible_inputs ["a"; "b"; "value"; "values"] inputs = true ->
        exists x, executeMathOperation draw operation inputs = Ok x).
Proof.
  split; [ reflexivity | ].
  intros operation inputs I S _. now apply executeMathOperation_returns.
Qed.

(** [evaluateCondition({ left: "$x", operator: "greaterThan", right: 5 })]
    is [true] in the context [{ x: 10 }] and [false] in [{ x: 3 }]. *)
Example greater_than_five :
  let c := {| leftOperand := reference "x"; operator := "greaterThan";
              rightOperand := VNum 5%float |} in
  evaluateCondition c {["x" := VNum 10%float]} = Ok true
  /\ evaluateCondition c {["x" := VNum 3%float]} = Ok false.
Proof. split; reflexivity. Qed.

(** [AND([true, true, false])] is [false] and [OR([true, false])] is
    [true]. *)
Example and_or_of_literals (context : gmap string value) :
  evaluateBooleanExpression
    (operator_node "AND"
       [Sample.literal true; Sample.literal true; Sample.literal false])
    context = Ok false
  /\ evaluateBooleanExpression
       (operator_node "OR" [Sample.literal true; Sample.literal false])
       context = Ok true.
Proof. split; reflexivity. Qed.

(** [min] and [max] throw a [TypeError] when [values] is truthy and not an
    array: [(5).map] is not a function. *)
Example min_of_a_number_throws (draw : float) :
  executeMathOperation draw "min" {["values" := VNum 5%float]} =
  Thrown (Error "TypeError" "(values || [a, b]).map is not a function").
Proof. reflexivity. Qed.

End WithHost.

Import Sample.

(** The pair [5], ["5"]. *)
Lemma equals_is_strict_where_ordering_coerces_witness :
  PrimFloat.eqb (StringToNumber "5") 5%float = true
  /\ evaluateCondition (compare_with "equals" 5%float "5") ∅ = Ok false
  /\ evaluateCondition (compare_with "greaterOrEqual" 5%float "5") ∅ = Ok true.
Proof.
  split; [ reflexivity | ].
  destruct (equals_is_strict_where_ordering_coerces 5%float "5" ∅ eq_refl)
    as (A & _ & B & _).
  exact (conj A B).
Defined.



(** [min] over [values = [3, 1]]. *)
Lemma math_operations_do_not_throw_witness :
  In "min" mathOperations
  /\ spreadable (<["values" := VArr 0 [VNum 3%float; VNum 1%float]]> ∅) = true
  /\ exists x,
       executeMathOperation 0%float "min"
         (<["values" := VArr 0 [VNum 3%float; VNum 1%float]]> ∅) = Ok x.
Proof.
  assert (I : In "min" mathOperations) by (simpl; tauto).
  assert (S : spreadable (<["values" := VArr 0 [VNum 3%float; VNum 1%float]]> ∅)
              = true) by reflexivity.
  exact (conj I (conj S
           (proj2 (math_operations_do_not_throw 0%float) "min" _ I
                  (fun _ => S) eq_refl))).
Defined.

End OperatorFacts.

(** *** The TypeScript engine *)

Module EngineFacts.
Import Operators Engine Run Stated Domain OperatorFacts.
Local Open Scope run_scope.

Lemma type_is_eq (n : Node) (t : string) :
  type_is n t = true <-> node_type n = Some t.
Proof.
  unfold type_is. destruct (node_type n) as [u | ].
  - rewrite String.eqb_eq. split; congruence.
  - split; discriminate.
Qed.

Lemma label_is_eq (e : Edge) (l : string) :
  label_is e l = true <-> edge_label e = Some l.
Proof.
  unfold label_is. destruct (edge_label e) as [u | ].
  - rewrite String.eqb_eq. split; congruence.
  - split; discriminate.
Qed.

Lemma label_is_neq (e : Edge) (l : string) :
  edge_label e <> Some l -> label_is e l = false.
Proof.
  intros N. destruct (label_is e l) eqn:L; [ | reflexivity ].
  apply label_is_eq in L. contradiction.
Qed.

(** C1, the claim as stated fails: below a condition node whose result is
    false, an edge without a label is followed. *)
Lemma unlabelled_edge_fires : ~ routing_as_specified.
Proof.
  intros C.
  destruct (C (Sample.node "c" "condition") false
              (Sample.edge "1" "c" "d" None) eq_refl) as [F _].
  destruct (F eq_refl) as [[L _] | [L _]]; discriminate L.
Qed.

(** C1, as amended. Below a condition or boolean node, an edge labelled
    ["true"] is followed exactly when the result is truthy, an edge
    labelled ["false"] exactly when it is falsy, and an edge with no label
    or any other label is always followed; below a node of any other type
    every edge is followed.  The JavaScript engine prunes below condition
    nodes only: there a connection is followed exactly when its output is
    ["true"] and the result truthy, or ["false"] and the result falsy. *)
Theorem routing_by_label (n : Node) (r : value) (e : Edge) :
  (branching n = true ->
     (edge_label e = Some "true" -> shouldExecute n r e = ToBoolean r)
     /\ (edge_label e = Some "false" ->
         shouldExecute n r e = negb (ToBoolean r))
     /\ (edge_label e <> Some "true" -> edge_label e <> Some "false" ->
         shouldExecute n r e = true))
  /\ (branching n = false -> shouldExecute n r e = true)
  /\ (forall output,
        Legacy.follows "condition" r output = true <->
        (ToBoolean r = true /\ output = "true")
        \/ (ToBoolean r = false /\ output = "false"))
  /\ (forall type output,
        type <> "condition" -> Legacy.follows type r output = true).
Proof.
  unfold branching, shouldExecute.
  split; [ | split; [ | split ] ].
  - intros B. rewrite B. split; [ | split ].
    + intros L. apply label_is_eq in L. rewrite L.
      assert (F : label_is e "false" = false).
      { apply label_is_neq. apply label_is_eq in L. congruence. }
      rewrite F. now destruct (ToBoolean r).
    + intros L. apply label_is_eq in L. rewrite L.
      assert (F : label_is e "true" = false).
      { apply label_is_neq. apply label_is_eq in L. congruence. }
      rewrite F. now destruct (ToBoolean r).
    + intros T F.
      now rewrite (label_is_neq e "true" T), (label_is_neq e "false" F).
  - intros B. now rewrite B.
  - intros output. unfold Legacy.follows. simpl. split.
    + destruct (ToBoolean r); simpl; rewrite ?orb_false_r;
        rewrite String.eqb_eq; intros ->; [ left | right ]; now split.
    + intros [[T ->] | [T ->]]; rewrite T; reflexivity.
  - intros type output N. unfold Legacy.follows.
    apply String.eqb_neq in N. now rewrite N.
Qed.

(** A boolean node with result [true] and an edge labelled ["true"]. *)
Lemma routing_by_label_witness :
  branching (Sample.node "b" "boolean") = true
  /\ shouldExecute (Sample.node "b" "boolean") (VBool true)
       (Sample.edge "1" "b" "c" (Some "true")) = true.
Proof.
  assert (B : branching (Sample.node "b" "boolean") = true) by reflexivity.
  exact (conj B
           (proj1 (proj1 (routing_by_label (Sample.node "b" "boolean")
                            (VBool true)
                            (Sample.edge "1" "b" "c" (Some "true"))) B)
                  eq_refl)).
Defined.

Section WithHost.
Context `{Host} `{OperatorFamilies}.

Lemma filter_sublist {A} (f : A -> bool) (l : list A) :
  sublist (List.filter f l) l.
Proof.
  induction l as [ | x l IH]; simpl; [ constructor | ].
  destruct (f x); now constructor.
Qed.

Lemma no_incoming_edge (g : Graph) (n : Node) :
  existsb (fun edge => String.eqb (target edge) (node_id n)) (edges g) = false
  <-> forall e, In e (edges g) -> target e <> node_id n.
Proof.
  split.
  - intros E e I T.
    assert (X : existsb (fun edge => String.eqb (target edge) (node_id n))
                  (edges g) = true).
    { apply existsb_exists. exists e. split; [ exact I | ].
      now apply String.eqb_eq. }
    congruence.
  - intros A.
    destruct (existsb _ (edges g)) eqn:E; [ | reflexivity ].
    apply existsb_exists in E as (e & I & T).
    apply String.eqb_eq in T. now destruct (A e I).
Qed.

(** C3, as amended. When no trigger is discovered, the TypeScript engine
    reports ["No trigger nodes found"] at error level and [execute]
    throws ["Workflow must have at least one trigger node"]: the context
    is untouched (no result is recorded) and the only calls of [onLog]
    are the two of the workflow itself (no node has run).  The JavaScript
    engine, whose triggers are the nodes of type [trigger], resolves to
    [{ success: false, error: "No trigger node found in workflow" }] with
    the initial context and a log of two entries. *)
Theorem no_trigger_run (fuel : nat) :
  (forall (g : Graph) (s : State),
     triggerNodes g = [] ->
     execute fuel g s =
     Some (Thrown (Error "Error" "Workflow must have at least one trigger node"),
           logged [call "workflow" "Starting workflow execution"
                        level_info no_data;
                   call "workflow" "No trigger nodes found"
                        level_error no_data] s))
  /\ (forall `{Legacy.NodeHandlers} (w : Legacy.Workflow)
             (initialContext : gmap string value) (s : Legacy.State),
        List.filter (fun n => String.eqb (Legacy.type n) "trigger")
                    (Legacy.nodes w) = [] ->
        let entries :=
          [ {| Legacy.timestamp := Legacy.clock s; Legacy.level := "info";
               Legacy.message := "Workflow execution started" |};
            {| Legacy.timestamp := S (Legacy.clock s);
               Legacy.level := "error";
               Legacy.message := "Error: No trigger node found in workflow" |} ]
        in
        Legacy.execute fuel w initialContext s =
        Some (Ok {| Legacy.success := false;
                    Legacy.error_message :=
                      Some "No trigger node found in workflow";
                    Legacy.outcome_context := initialContext;
                    Legacy.outcome_log := entries |},
              {| Legacy.context := initialContext;
                 Legacy.executionLog := entries;
                 Legacy.isRunning := false;
                 Legacy.clock := S (S (Legacy.clock s)) |})).
Proof.
  split.
  - intros g s T. unfold execute, bind, log, modify, throw, logged, call.
    rewrite T. simpl. now rewrite <- app_assoc.
  - intros handlers w initialContext s T.
    unfold Legacy.execute, bind, try_catch. simpl. now rewrite T.
Qed.

Lemma logged_logged (a b : list LogCall) (s : State) :
  logged b (logged a s) = logged (a ++ b) s.
Proof. unfold logged. simpl. now rewrite <- app_assoc. Qed.

Lemma log_run (nodeId message : string) (lvl : level) (d : payload)
    (s : State) :
  log nodeId message lvl d s = Some (Ok tt, logged [call nodeId message lvl d] s).
Proof. reflexivity. Qed.

Lemma store_run (node : Node) (r : value) (s : State) :
  store node r s =
  Some (Ok tt, stored (node_id node) (label (node_data node)) r s).
Proof. reflexivity. Qed.

(** [executeNode], one step: the entry is logged, the handler runs, and the
    rest happens inside the [try]. *)
Lemma executeNode_after_dispatch (fuel : nat) (g : Graph) (node : Node)
    (s s1 : State) (r : value) :
  dispatch node
    (logged [call (node_id node)
               ("Executing node: " ++ label (node_data node))
               level_info no_data] s) = Some (Ok r, s1) ->
  executeNode (S fuel) g node s =
  try_catch
    (log (node_id node) ("Node completed with result: " ++ JSON_stringify r)
         level_info (data_value r) ;;;
     executeNextNodes (executeNode fuel g) g node r ;;;
     ret r)
    (rethrow node)
    (stored (node_id node) (label (node_data node)) r s1).
Proof.
  intros D. simpl. unfold bind at 1. rewrite log_run.
  unfold try_catch, bind at 1. rewrite D.
  unfold after_dispatch, bind at 1. rewrite store_run. reflexivity.
Qed.

(** C9. Whatever the type of the node, once its handler has returned [r]
    the engine writes [r] to [results[node.id]] and to
    [variables[node.data.label]] before it goes on: a variable of that name
    is overwritten.  For a node without outgoing edges this is the state
    [executeNode] ends in.  The id and the label are taken to be other
    than [__proto__], the one key whose assignment creates no property. *)
Theorem result_is_stored_under_id_and_label (fuel : nat) (g : Graph)
    (node : Node) (s s1 : State) (r : value) :
  plain_key (node_id node) = true ->
  plain_key (label (node_data node)) = true ->
  dispatch node
    (logged [call (node_id node)
               ("Executing node: " ++ label (node_data node))
               level_info no_data] s) = Some (Ok r, s1) ->
  let s2 := stored (node_id node) (label (node_data node)) r s1 in
  results (context s2) = <[node_id node := r]> (results (context s1))
  /\ variables (context s2) =
     <[label (node_data node) := r]> (variables (context s1))
  /\ results (context s2) !! node_id node = Some r
  /\ variables (context s2) !! label (node_data node) = Some r
  /\ executeNode (S fuel) g node s =
     try_catch
       (log (node_id node) ("Node completed with result: " ++ JSON_stringify r)
            level_info (data_value r) ;;;
        executeNextNodes (executeNode fuel g) g node r ;;;
        ret r)
       (rethrow node) s2
  /\ (outgoingEdges g node = [] ->
      executeNode (S fuel) g node s =
      Some (Ok r,
            logged [call (node_id node)
                      ("Node completed with result: " ++ JSON_stringify r)
                      level_info (data_value r)] s2)).
Proof.
  intros _ _ D s2. repeat split.
  - unfold s2, stored. simpl. apply lookup_insert_eq.
  - unfold s2, stored. simpl. apply lookup_insert_eq.
  - now apply executeNode_after_dispatch.
  - intros O. rewrite (executeNode_after_dispatch fuel g node s s1 r D).
    unfold try_catch, bind at 1. rewrite log_run.
    unfold executeNextNodes. rewrite O. reflexivity.
Qed.

Lemma known_false (node : Node) :
  known node = false ->
  type_is node "trigger" = false /\ type_is node "action" = false
  /\ type_is node "condition" = false /\ type_is node "boolean" = false
  /\ type_is node "operator" = false.
Proof.
  unfold known, known_types. simpl.
  destruct (type_is node "trigger"), (type_is node "action"),
    (type_is node "condition"), (type_is node "boolean"),
    (type_is node "operator"); simpl; intros K; try discriminate K;
    repeat split.
Qed.

Lemma executed_logged (calls : list LogCall) (s : State) :
  forallb (fun c => negb (started c)) calls = true ->
  executed (logged calls s) = executed s.
Proof.
  intros Q. unfold executed, logged. simpl. rewrite List.filter_app.
  replace (List.filter started calls) with (@nil LogCall).
  - now rewrite app_nil_r.
  - induction calls as [ | c calls IH]; [ reflexivity | ].
    simpl in Q. apply andb_true_iff in Q as [Q1 Q2]. simpl.
    destruct (started c); [ discriminate Q1 | now apply IH ].
Qed.

Lemma executed_entry (node : Node) (s : State) :
  executed (logged [call (node_id node)
                      ("Executing node: " ++ label (node_data node))
                      level_info no_data] s)
  = executed s ++ [node_id node].
Proof.
  unfold executed, logged. simpl. rewrite List.filter_app, List.map_app. simpl.
  replace (started (call (node_id node) ("Executing node: " ++ label (node_data node)) level_info no_data)) with true; [reflexivity|].
  unfold started, call. simpl. now destruct (label (node_data node)).
Qed.

Lemma executed_stored (id name : string) (v : value) (s : State) :
  executed (stored id name v s) = executed s.
Proof. reflexivity. Qed.

Lemma includes_string_In (xs : list string) (x : string) :
  includes_string xs x = true -> In x xs.
Proof.
  unfold includes_string. intros E.
  apply existsb_exists in E as (y & I & E).
  apply String.eqb_eq in E. now subst y.
Qed.

Lemma executeOperator_math (tick : nat) (cfg : OperatorConfig)
    (vars : gmap string value) :
  includes_string mathOperations (operation cfg)
  && negb (String.eqb (operation cfg) "min")
  && negb (String.eqb (operation cfg) "max") = true ->
  exists x, executeOperator tick cfg vars = Ok (VNum x).
Proof.
  intros T.
  apply andb_true_iff in T as [T T'']. apply andb_true_iff in T as [T T'].
  apply negb_true_iff, String.eqb_neq in T'.
  apply negb_true_iff, String.eqb_neq in T''.
  unfold executeOperator. rewrite T.
  match goal with
  | |- context [executeMathOperation ?d ?o ?i] =>
      destruct (executeMathOperation_returns d o i
                  (includes_string_In _ _ T)) as [x X]
  end.
  - intros [E | E]; contradiction.
  - rewrite X. now exists x.
Qed.

(** The handler of a node that neither branches nor is a throwing operator
    returns, and starts no node. *)
Lemma dispatch_returns (node : Node) (s : State) :
  branching node = false ->
  total_operator node = true ->
  exists r s1, dispatch node s = Some (Ok r, s1) /\ executed s1 = executed s.
Proof.
  unfold branching, total_operator. intros B T.
  rewrite orb_true_iff, negb_true_iff in T.
  apply orb_false_elim in B as [B1 B2].
  unfold dispatch. rewrite B1, B2.
  destruct (type_is node "trigger") eqn:T1.
  { unfold executeTrigger.
    destruct (ToBoolean (config (node_data node))
              && ToBoolean (field (config (node_data node)) "variables"));
      eexists _, _; (split; [ reflexivity | reflexivity ]). }
  destruct (type_is node "action") eqn:T2.
  { unfold executeAction.
    destruct (actionType (node_data node)) as [t | ].
    - destruct (String.eqb t "log") eqn:E1;
        [ | destruct (String.eqb t "setVariable") eqn:E2;
            [ | destruct (String.eqb t "transform") eqn:E3 ] ];
        eexists _, _; (split; [ unfold bind, log, modify; simpl; rewrite ?E1, ?E2, ?E3; reflexivity | ]).
      all: unfold executed; simpl; rewrite List.filter_app; simpl; now rewrite app_nil_r.
    - eexists _, _; (split; [ reflexivity | ]).
      unfold executed; simpl; rewrite List.filter_app; simpl; now rewrite app_nil_r. }
  destruct (type_is node "operator") eqn:T3.
  { destruct T as [T | T]; [ discriminate T | ].
    unfold executeOperatorNode.
    destruct (operatorConfig (node_data node)) as [cfg | ].
    - destruct (executeOperator_math (counter s) cfg (variables (context s)) T)
        as [x X].
      destruct (output cfg) as [name | ] eqn:O.
      + destruct (String.eqb name "") eqn:E;
          eexists _, _;
          (split; [ unfold bind, gets, fresh, lift; simpl; rewrite X; simpl;
                    rewrite ?E; reflexivity | reflexivity ]).
      + eexists _, _;
          (split; [ unfold bind, gets, fresh, lift; simpl; rewrite X;
                    reflexivity | reflexivity ]).
    - eexists _, _; (split; [ reflexivity | ]).
      unfold executed; simpl; rewrite List.filter_app; simpl;
        now rewrite app_nil_r. }
  eexists _, _; (split; [ reflexivity | ]).
  unfold executed; simpl; rewrite List.filter_app; simpl; now rewrite app_nil_r.
Qed.


Lemma find_node_some (g : Graph) (id : string) (m : Node) :
  find_node g id = Some m -> In m (nodes g) /\ node_id m = id.
Proof.
  unfold find_node. intros F. apply find_some in F as [I E].
  apply String.eqb_eq in E. now split.
Qed.

Lemma outgoingEdges_In (g : Graph) (n : Node) (e : Edge) :
  In e (outgoingEdges g n) -> In e (edges g) /\ source e = node_id n.
Proof.
  unfold outgoingEdges. rewrite filter_In, String.eqb_eq. tauto.
Qed.

Lemma successors_In (g : Graph) (n m : Node) :
  In m (successors g n) ->
  exists e, In e (edges g) /\ source e = node_id n /\ target e = node_id m
            /\ In m (nodes g).
Proof.
  unfold successors. rewrite in_flat_map. intros (e & I & F).
  apply outgoingEdges_In in I as [I S].
  destruct (find_node g (target e)) as [k | ] eqn:E; [ | contradiction ].
  destruct F as [<- | []]. apply find_node_some in E as [K T].
  exists e. auto.
Qed.

Section Walk.
Variable g : Graph.
Variable rank : string -> nat.
Hypothesis no_branching :
  forallb (fun n => negb (branching n)) (nodes g) = true.
Hypothesis operators_total : forallb total_operator (nodes g) = true.
Hypothesis acyclic : decreasing rank g = true.

Lemma rank_successor (n m : Node) :
  In m (successors g n) -> rank (node_id m) < rank (node_id n).
Proof.
  intros I. apply successors_In in I as (e & I & S & T & _).
  unfold decreasing in acyclic. rewrite forallb_forall in acyclic.
  specialize (acyclic e I). apply Nat.ltb_lt in acyclic. congruence.
Qed.

Lemma node_does_not_branch (n : Node) : In n (nodes g) -> branching n = false.
Proof.
  intros I. rewrite forallb_forall in no_branching.
  now apply negb_true_iff, no_branching.
Qed.

Lemma node_operator_total (n : Node) :
  In n (nodes g) -> total_operator n = true.
Proof.
  intros I. rewrite forallb_forall in operators_total.
  now apply operators_total.
Qed.

(** The loop of [executeNextNodes] below a node that does not branch, given
    that each of its successors runs to its end. *)
Lemma next_nodes_run (fuel : nat) (node : Node) (r : value) :
  branching node = false ->
  (forall m s, In m (nodes g) -> rank (node_id m) < fuel ->
     exists r' s', executeNode fuel g m s = Some (Ok r', s')
                   /\ executed s' = executed s ++ visit_order fuel g m) ->
  forall (es : list Edge) (s : State),
    (forall e, In e es -> rank (target e) < fuel) ->
    exists s',
      for_each es (fun edge =>
        if shouldExecute node r edge then
          match find_node g (target edge) with
          | Some nextNode => executeNode fuel g nextNode ;;; ret tt
          | None => ret tt
          end
        else ret tt) s = Some (Ok tt, s')
      /\ executed s' =
         executed s
         ++ flat_map (visit_order fuel g)
              (flat_map (fun e => match find_node g (target e) with
                                  | Some m => [m]
                                  | None => []
                                  end) es).
Proof.
  intros B IH es. induction es as [ | e es IHes]; intros s R.
  - exists s. split; [ reflexivity | ]. simpl. now rewrite app_nil_r.
  - assert (SE : shouldExecute node r e = true).
    { unfold shouldExecute. unfold branching in B. now rewrite B. }
    simpl for_each. rewrite SE.
    destruct (find_node g (target e)) as [m | ] eqn:F.
    + destruct (find_node_some _ _ _ F) as [I T].
      destruct (IH m s I) as (r' & s1 & X & E1).
      { rewrite T. apply R. now left. }
      destruct (IHes s1) as (s2 & Y & E2).
      { intros e' I'. apply R. now right. }
      exists s2. split.
      * unfold bind. rewrite X. exact Y.
      * rewrite E2, E1. simpl. rewrite F. simpl. now rewrite <- app_assoc.
    + destruct (IHes s) as (s2 & Y & E2).
      { intros e' I'. apply R. now right. }
      exists s2. split; [ exact Y | simpl; rewrite F; exact E2 ].
Qed.

(** A node of the graph runs to its end, and the nodes started on the way
    are its depth-first order. *)
Lemma executeNode_runs (fuel : nat) :
  forall (node : Node) (s : State),
    In node (nodes g) -> rank (node_id node) < fuel ->
    exists r s', executeNode fuel g node s = Some (Ok r, s')
                 /\ executed s' = executed s ++ visit_order fuel g node.
Proof.
  induction fuel as [ | fuel IH]; intros node s I R; [ lia | ].
  pose proof (node_does_not_branch node I) as B.
  destruct (dispatch_returns node
              (logged [call (node_id node)
                         ("Executing node: " ++ label (node_data node))
                         level_info no_data] s) B (node_operator_total node I))
    as (r & s1 & D & E1).
  rewrite executed_entry in E1.
  destruct (next_nodes_run fuel node r B IH (outgoingEdges g node)
              (logged [call (node_id node)
                         ("Node completed with result: " ++ JSON_stringify r)
                         level_info (data_value r)]
                 (stored (node_id node) (label (node_data node)) r s1)))
    as (s2 & L & E2).
  { intros e Ie. apply outgoingEdges_In in Ie as [Ie S].
    unfold decreasing in acyclic. rewrite forallb_forall in acyclic.
    specialize (acyclic e Ie). apply Nat.ltb_lt in acyclic.
    rewrite S in acyclic. lia. }
  exists r, s2. split.
  - rewrite (executeNode_after_dispatch fuel g node s s1 r D).
    unfold try_catch, bind at 1. rewrite log_run.
    unfold executeNextNodes, bind at 1. rewrite L. reflexivity.
  - rewrite E2, executed_logged by reflexivity.
    rewrite executed_stored, E1, <- app_assoc. reflexivity.
Qed.

Lemma reachable_visited (n k : Node) :
  reachable g n k ->
  forall fuel, rank (node_id n) < fuel -> In (node_id k) (visit_order fuel g n).
Proof.
  induction 1 as [n | n m k S _ IH]; intros fuel R.
  - destruct fuel; [ lia | now left ].
  - destruct fuel as [ | fuel]; [ lia | ]. simpl. right.
    apply in_flat_map. exists m. split; [ exact S | ].
    apply IH. pose proof (rank_successor n m S). lia.
Qed.

End Walk.

Lemma count_occ_flat_map {A} (f : A -> list string) (l : list A) (x : string) :
  count_occ string_dec (flat_map f l) x =
  list_sum (map (fun a => count_occ string_dec (f a) x) l).
Proof.
  induction l as [ | a l IH]; simpl; [ reflexivity | ].
  now rewrite count_occ_app, IH.
Qed.

Lemma visits_count_paths (g : Graph) (fuel : nat) :
  forall (n : Node) (id : string),
    count_occ string_dec (visit_order fuel g n) id = paths fuel g n id.
Proof.
  induction fuel as [ | fuel IH]; intros n id; [ reflexivity | ].
  simpl. rewrite count_occ_flat_map.
  rewrite (map_ext _ (fun m => paths fuel g m id)) by (intros m; apply IH).
  destruct (string_dec (node_id n) id) as [E | E].
  - apply String.eqb_eq in E. now rewrite E.
  - apply String.eqb_neq in E. now rewrite E.
Qed.

(** A handler that cannot throw in the code does not throw in the model. *)
Lemma total_handler_operator (n : Node) :
  total_handler n = true -> total_operator n = true.
Proof.
  unfold total_handler, total_operator. intros T.
  apply andb_true_iff in T as [T _].
  destruct (type_is n "operator"); [ | reflexivity ].
  now destruct (operatorConfig (node_data n)).
Qed.


(** The scenario of the specification: the trigger sets [x = 10], the
    condition [$x > 5] holds, the action behind the ["true"] edge runs and
    the one behind the ["false"] edge does not. *)
Example big_branch_runs :
  exists ctx s',
    execute 3 Sample.scenario initial = Some (Ok ctx, s')
    /\ executed s' = ["t"; "c"; "big"]
    /\ variables ctx !! "x" = Some (VNum 10%float)
    /\ results ctx !! "c" = Some (VBool true)
    /\ existsb (fun c => String.eqb (log_nodeId c) "small") (onLog s') = false.
Proof.
  eexists _, _. split; [ vm_compute; reflexivity | ].
  repeat split; reflexivity.
Qed.

End WithHost.

Import Sample.

(** C3, the claim as stated fails: on the graph without nodes, [execute]
    of the TypeScript engine does not resolve, it throws. *)
Lemma execute_throws_without_trigger :
  execute 1 {| nodes := []; edges := [] |} initial =
    Some (Thrown (Error "Error" "Workflow must have at least one trigger node"),
          logged [call "workflow" "Starting workflow execution"
                       level_info no_data;
                  call "workflow" "No trigger nodes found"
                       level_error no_data] initial)
  /\ ~ resolves (execute 1 {| nodes := []; edges := [] |}) initial.
Proof.
  split; [ reflexivity | ].
  intros (a & s' & E). discriminate E.
Qed.

(** A cycle has no trigger. *)
Lemma no_trigger_run_witness :
  triggerNodes {| nodes := [node "a" "action"];
                  edges := [edge "1" "a" "a" None] |} = []
  /\ execute 3 {| nodes := [node "a" "action"];
                  edges := [edge "1" "a" "a" None] |} initial =
     Some (Thrown (Error "Error" "Workflow must have at least one trigger node"),
           logged [call "workflow" "Starting workflow execution"
                        level_info no_data;
                   call "workflow" "No trigger nodes found"
                        level_error no_data] initial).
Proof.
  assert (T : triggerNodes {| nodes := [node "a" "action"];
                              edges := [edge "1" "a" "a" None] |} = [])
    by reflexivity.
  exact (conj T (proj1 (no_trigger_run 3) _ initial T)).
Defined.



(** The action node [b] of the chain: its result is stored under ["b"],
    its id and its label. *)
Lemma result_is_stored_under_id_and_label_witness :
  exists r s1,
    dispatch (node "b" "action")
      (logged [call "b" "Executing node: b" level_info no_data] initial)
    = Some (Ok r, s1)
    /\ results (context (stored "b" "b" r s1)) !! "b" = Some r
    /\ variables (context (stored "b" "b" r s1)) !! "b" = Some r.
Proof.
  eexists _, _. split; [ vm_compute; reflexivity | ].
  pose proof (result_is_stored_under_id_and_label 1 chain (node "b" "action")
                initial _ _ eq_refl eq_refl eq_refl) as (_ & _ & R & V & _).
  exact (conj R V).
Defined.

End EngineFacts.

(* ================================================================== *)
(** ** What a run does to the state of the engine *)
(* ================================================================== *)

Module RunFacts.
Import JS Operators Engine Run Stated Domain Observed OperatorFacts EngineFacts.
Local Open Scope run_scope.

Section Preserved.
Variable R : State -> State -> Prop.
Hypothesis R_refl : forall s, R s s.
Hypothesis R_trans : forall s1 s2 s3, R s1 s2 -> R s2 s3 -> R s1 s3.

Lemma preserves_ret {A} (a : A) : preserves R (ret a).
Proof. intros s o s' E. injection E as _ <-. apply R_refl. Qed.

Lemma preserves_throw {A} (e : error) : preserves R (@throw State A e).
Proof. intros s o s' E. injection E as _ <-. apply R_refl. Qed.

Lemma preserves_lift {A} (r : result A) : preserves R (lift r).
Proof. intros s o s' E. injection E as _ <-. apply R_refl. Qed.

Lemma preserves_gets {A} (f : State -> A) : preserves R (gets f).
Proof. intros s o s' E. injection E as _ <-. apply R_refl. Qed.

Lemma preserves_diverge {A} : preserves R (@diverge State A).
Proof. intros s o s' E. discriminate E. Qed.

Lemma preserves_bind {A B} (m : Run.M State A) (k : A -> Run.M State B) :
  preserves R m -> (forall a, preserves R (k a)) -> preserves R (bind m k).
Proof.
  intros Km Kk s o s' E. unfold bind in E.
  destruct (m s) as [[[a | e] s1] | ] eqn:Em; [ | | discriminate E ].
  - eapply R_trans; [ eapply Km, Em | eapply Kk, E ].
  - injection E as _ <-. eapply Km, Em.
Qed.

Lemma preserves_try_catch {A} (m : Run.M State A)
    (h : error -> Run.M State A) :
  preserves R m -> (forall e, preserves R (h e)) ->
  preserves R (try_catch m h).
Proof.
  intros Km Kh s o s' E. unfold try_catch in E.
  destruct (m s) as [[[a | e] s1] | ] eqn:Em; [ | | discriminate E ].
  - injection E as _ <-. eapply Km, Em.
  - eapply R_trans; [ eapply Km, Em | eapply Kh, E ].
Qed.

Lemma preserves_for_each {A} (xs : list A) (body : A -> Run.M State unit) :
  (forall x, preserves R (body x)) -> preserves R (for_each xs body).
Proof.
  intros Kb. induction xs as [ | x xs IH]; simpl.
  - apply preserves_ret.
  - apply preserves_bind; [ apply Kb | intros _; apply IH ].
Qed.

End Preserved.

Lemma grows_refl s : grows s s.
Proof. repeat split; try set_solver. exists []. now rewrite app_nil_r. Qed.

Lemma grows_trans s1 s2 s3 : grows s1 s2 -> grows s2 s3 -> grows s1 s3.
Proof.
  intros (L1 & (c1 & O1) & V1 & R1) (L2 & (c2 & O2) & V2 & R2).
  repeat split; try set_solver; try congruence.
  exists (c1 ++ c2). rewrite O2, O1. now rewrite app_assoc.
Qed.

Lemma quiet_refl s : quiet s s.
Proof. reflexivity. Qed.

Lemma quiet_trans s1 s2 s3 : quiet s1 s2 -> quiet s2 s3 -> quiet s1 s3.
Proof. unfold quiet. congruence. Qed.

Lemma dom_Object_assign (tgt : gmap string value) (src : value) :
  dom tgt ⊆ dom (Object_assign tgt src).
Proof.
  unfold Object_assign. generalize (own_entries src). intros l.
  revert tgt. induction l as [ | kv l IH]; intros tgt; simpl; [ set_solver | ].
  etransitivity; [ | apply IH ]. set_solver.
Qed.

(** The steps of the engine: each grows the state, and only the entry call
    of [executeNode] starts a node. *)
Lemma step_fresh : preserves grows fresh /\ preserves quiet fresh.
Proof.
  split; intros s o s' E; injection E as _ <-; [ | reflexivity ].
  repeat split; simpl; try set_solver; try (exists []; now rewrite app_nil_r).
Qed.

Lemma step_set_variables (f : gmap string value -> gmap string value) :
  (forall m, dom m ⊆ dom (f m)) ->
  preserves grows (modify (set_variables f))
  /\ preserves quiet (modify (set_variables f)).
Proof.
  intros D. split; intros s o s' E; injection E as _ <-; [ | reflexivity ].
  repeat split; simpl; try set_solver; try (exists []; now rewrite app_nil_r);
    try apply D.
Qed.

Lemma step_set_results (k : string) (v : value) :
  preserves grows (modify (set_results <[k := v]>))
  /\ preserves quiet (modify (set_results <[k := v]>)).
Proof.
  split; intros s o s' E; injection E as _ <-; [ | reflexivity ].
  repeat split; simpl; try set_solver; try (exists []; now rewrite app_nil_r).
Qed.

Lemma step_log n m l d : preserves grows (log n m l d).
Proof.
  intros s o s' E. injection E as _ <-.
  repeat split; simpl; try set_solver; eauto.
Qed.

Lemma step_log_quiet n m l d :
  started (call n m l d) = false -> preserves quiet (log n m l d).
Proof.
  intros Q s o s' E. injection E as _ <-.
  unfold quiet, executed. simpl. rewrite List.filter_app. simpl.
  unfold call in Q. rewrite Q. now rewrite app_nil_r.
Qed.

Lemma insert_grows (k : string) (v : value) (m : gmap string value) :
  dom m ⊆ dom (<[k := v]> m).
Proof. set_solver. Qed.

Ltac grows_step :=
  first [ apply (preserves_ret grows grows_refl)
        | apply (preserves_throw grows grows_refl)
        | apply (preserves_lift grows grows_refl)
        | apply (preserves_gets grows grows_refl)
        | apply (preserves_diverge grows)
        | apply (proj1 step_fresh)
        | apply step_log
        | apply (proj1 (step_set_variables _ (insert_grows _ _)))
        | apply (proj1 (step_set_variables _ (fun m => dom_Object_assign m _)))
        | apply (proj1 (step_set_results _ _))
        | apply (preserves_bind grows grows_trans); [ | intros ? ] ].

Ltac quiet_step :=
  first [ apply (preserves_ret quiet quiet_refl)
        | apply (preserves_throw quiet quiet_refl)
        | apply (preserves_lift quiet quiet_refl)
        | apply (preserves_gets quiet quiet_refl)
        | apply (preserves_diverge quiet)
        | apply (proj2 step_fresh)
        | apply step_log_quiet; reflexivity
        | apply (proj2 (step_set_variables _ (insert_grows _ _)))
        | apply (proj2 (step_set_variables _ (fun m => dom_Object_assign m _)))
        | apply (proj2 (step_set_results _ _))
        | apply (preserves_bind quiet quiet_trans); [ | intros ? ] ].

Ltac branches :=
  repeat match goal with
         | |- preserves _ (if ?b then _ else _) => destruct b
         | |- preserves _ (match ?o with Some _ => _ | None => _ end) =>
             destruct o
         end.

Section WithHost.
Context `{Host} `{OperatorFamilies}.

(** A handler grows the state and starts no node, however it ends. *)
Lemma dispatch_grows node : preserves grows (dispatch node).
Proof.
  unfold dispatch, executeTrigger, executeAction, executeCondition,
    executeBoolean, executeOperatorNode.
  branches; repeat (grows_step; branches).
Qed.

Lemma dispatch_quiet node : preserves quiet (dispatch node).
Proof.
  unfold dispatch, executeTrigger, executeAction, executeCondition,
    executeBoolean, executeOperatorNode.
  branches; repeat (quiet_step; branches).
  all: try (apply step_log_quiet; unfold started, call; simpl;
            match goal with |- context [bool_text ?r] => destruct r end;
            reflexivity).
Qed.


Lemma executeNode_grows fuel g :
  forall node, preserves grows (executeNode fuel g node).
Proof.
  induction fuel as [ | fuel IH]; intros node; simpl;
    [ apply (preserves_diverge grows) | ].
  grows_step; [ grows_step | ].
  apply (preserves_try_catch grows grows_trans).
  - grows_step; [ apply dispatch_grows | ].
    unfold after_dispatch, store. repeat grows_step.
    unfold executeNextNodes. apply (preserves_for_each grows grows_refl grows_trans).
    intros e. branches; repeat grows_step. apply IH.
  - intros e. unfold rethrow. repeat grows_step.
Qed.

(** However a run ends, normally or with an error, it has only appended to
    the calls of [onLog], it has removed no variable and no result, and it
    has not written [context.logs]: the log entries go to the callback
    only. *)
Theorem run_only_adds (fuel : nat) (g : Graph) (s s' : State)
    (o : result ExecutionContext) :
  execute fuel g s = Some (o, s') ->
  logs (context s') = logs (context s)
  /\ (exists calls, onLog s' = onLog s ++ calls)
  /\ dom (variables (context s)) ⊆ dom (variables (context s'))
  /\ dom (results (context s)) ⊆ dom (results (context s')).
Proof.
  revert s o s'. change (preserves grows (execute fuel g)).
  unfold execute. grows_step; [ grows_step | ].
  destruct (triggerNodes g) as [ | t ts]; [ repeat grows_step | ].
  grows_step; [ | repeat grows_step ].
  apply (preserves_for_each grows grows_refl grows_trans). intros x.
  grows_step; [ apply executeNode_grows | grows_step ].
Qed.

(** [executeNode] throws only out of its [catch] block: its last call of
    [onLog] is then the error entry of its own node. *)
Lemma executeNode_throws_logged fuel g node s e s' :
  executeNode fuel g node s = Some (Thrown e, s') ->
  exists s0, s' = logged [error_call node e] s0.
Proof.
  destruct fuel as [ | fuel]; [ discriminate | ].
  simpl. unfold bind at 1. rewrite log_run. unfold try_catch.
  match goal with |- context [match ?m ?st with _ => _ end] =>
    destruct (m st) as [[[a | e0] s1] | ] end; try discriminate.
  unfold rethrow, bind. rewrite log_run. unfold throw.
  intros E. injection E as <- <-. now exists s1.
Qed.

Lemma for_each_throws {A} (xs : list A) (body : A -> Run.M State unit)
    s e s' :
  for_each xs body s = Some (Thrown e, s') ->
  exists x s0, In x xs /\ body x s0 = Some (Thrown e, s').
Proof.
  revert s. induction xs as [ | x xs IH]; intros s; simpl;
    [ discriminate | ].
  unfold bind.
  destruct (body x s) as [[[a | e0] s1] | ] eqn:B; try discriminate.
  - intros E. destruct (IH _ E) as (y & s0 & I & Y). eauto.
  - intros E. injection E as <- <-. eauto.
Qed.

(** The two ways in which [execute] throws. *)
Lemma execute_thrown (fuel : nat) (g : Graph) (s s' : State) (e : error) :
  execute fuel g s = Some (Thrown e, s') ->
  (triggerNodes g = []
   /\ e = Error "Error" "Workflow must have at least one trigger node"
   /\ s' = logged [call "workflow" "Starting workflow execution"
                        level_info no_data;
                   call "workflow" "No trigger nodes found"
                        level_error no_data] s)
  \/ (exists t s0, In t (triggerNodes g)
                   /\ s' = logged [error_call t e] s0).
Proof.
  unfold execute, bind at 1. rewrite log_run.
  destruct (triggerNodes g) as [ | t ts] eqn:T.
  - unfold bind, throw. rewrite log_run. intros E. injection E as <- <-.
    left. repeat split. unfold logged. cbn. now rewrite <- app_assoc.
  - intros E. right. unfold bind at 1 in E.
    destruct (for_each (t :: ts) _ _) as [[[a | e0] s1] | ] eqn:F;
      try discriminate.
    injection E as <- <-.
    apply for_each_throws in F as (x & s0 & I & X).
    unfold bind in X.
    destruct (executeNode fuel g x s0) as [[[a | e1] s2] | ] eqn:N;
      try discriminate.
    injection X as <- <-.
    apply executeNode_throws_logged in N as (s3 & ->). eauto.
Qed.


Lemma accounted_trans s1 s2 s3 :
  accounted s1 s2 -> grows s2 s3 -> accounted s2 s3 -> accounted s1 s3.
Proof.
  intros A12 (_ & _ & _ & D) A23 id I.
  destruct (A23 id I) as [I2 | S]; [ | now right ].
  destruct (A12 id I2) as [I1 | S]; [ now left | right ].
  apply elem_of_dom. apply D. now apply elem_of_dom.
Qed.

Lemma quiet_accounted s s' : quiet s s' -> accounted s s'.
Proof. intros Q id I. left. now rewrite <- Q. Qed.

Lemma for_each_accounted {A} (xs : list A) (body : A -> Run.M State unit) :
  (forall x, preserves grows (body x)) ->
  (forall x, returns_with accounted (body x)) ->
  returns_with accounted (for_each xs body).
Proof.
  intros G Kb. induction xs as [ | x xs IH]; intros s a s'; simpl.
  - intros E. injection E as _ <-. apply quiet_accounted, quiet_refl.
  - unfold bind.
    destruct (body x s) as [[[u | e0] s1] | ] eqn:B; try discriminate.
    intros E. eapply accounted_trans; [ eapply Kb, B | | eapply IH, E ].
    eapply (preserves_for_each grows grows_refl grows_trans), E. exact G.
Qed.

Lemma executeNode_accounted fuel g :
  forall node, returns_with accounted (executeNode fuel g node).
Proof.
  induction fuel as [ | fuel IH]; intros node s r s'; [ discriminate | ].
  simpl. unfold bind at 1. rewrite log_run. unfold try_catch.
  set (s0 := logged _ s). unfold bind at 1.
  destruct (dispatch node s0) as [[[v | e0] s1] | ] eqn:D.
  2:{ unfold rethrow, bind, throw. rewrite log_run. discriminate. }
  2:{ discriminate. }
  unfold after_dispatch, bind at 1. rewrite store_run.
  unfold bind at 1. rewrite log_run.
  set (s3 := logged _ (stored _ _ v s1)).
  unfold bind at 1.
  destruct (executeNextNodes (executeNode fuel g) g node v s3)
    as [[[u | e1] s4] | ] eqn:N.
  2:{ unfold rethrow, bind, throw. rewrite log_run. discriminate. }
  2:{ discriminate. }
  unfold ret. intros E. injection E as _ <-.
  unfold executeNextNodes in N.
  assert (G : grows s3 s4).
  { eapply (preserves_for_each grows grows_refl grows_trans), N.
    intros e. cbv beta. branches; repeat grows_step.
    apply executeNode_grows. }
  assert (A : accounted s3 s4).
  { eapply for_each_accounted, N.
    - intros e. cbv beta. branches; repeat grows_step.
      apply executeNode_grows.
    - intros e s5 a s6. cbv beta.
      destruct (shouldExecute node v e);
        [ destruct (find_node g (target e)) as [n | ] | ].
      + unfold bind.
        destruct (executeNode fuel g n s5) as [[[w | e2] s7] | ] eqn:X;
          try discriminate.
        intros E. injection E as _ <-. eapply IH, X.
      + intros E. injection E as _ <-. apply quiet_accounted, quiet_refl.
      + intros E. injection E as _ <-. apply quiet_accounted, quiet_refl. }
  intros id I. destruct (A id I) as [I3 | S]; [ | now right ].
  assert (Q : executed s3 = executed s ++ [node_id node]).
  { unfold s3. rewrite executed_logged by reflexivity.
    rewrite executed_stored. rewrite (dispatch_quiet node _ _ _ D).
    apply executed_entry. }
  rewrite Q in I3. apply in_app_or in I3 as [I0 | [<- | []]]; [ now left | ].
  right. destruct G as (_ & _ & _ & Dm).
  apply elem_of_dom, Dm. unfold s3, stored. simpl. set_solver.
Qed.

(** When a run completes, every node it started has a result in the
    context, the ids of the nodes being other than [__proto__]. *)
Theorem completed_run_has_a_result_for_every_started_node
    (fuel : nat) (g : Graph) (s s' : State) (ctx : ExecutionContext) :
  forallb (fun n => plain_key (node_id n)) (nodes g) = true ->
  execute fuel g s = Some (Ok ctx, s') ->
  ctx = context s'
  /\ forall id, In id (executed s') ->
                In id (executed s) \/ is_Some (results ctx !! id).
Proof.
  intros _.
  unfold execute, bind at 1. rewrite log_run.
  destruct (triggerNodes g) as [ | t ts] eqn:T.
  { unfold bind, throw. rewrite log_run. discriminate. }
  unfold bind at 1.
  destruct (for_each (t :: ts) _ _) as [[[a | e0] s1] | ] eqn:F;
    try discriminate.
  unfold bind, gets. rewrite log_run. intros E. injection E as <- <-.
  split; [ reflexivity | ].
  assert (A : accounted (logged [call "workflow" "Starting workflow execution"
                                      level_info no_data] s) s1).
  { eapply for_each_accounted, F.
    - intros x. grows_step; [ apply executeNode_grows | grows_step ].
    - intros x s5 a' s6. unfold bind.
      destruct (executeNode fuel g x s5) as [[[w | e2] s7] | ] eqn:X;
        try discriminate.
      intros E. injection E as _ <-. eapply executeNode_accounted, X. }
  intros id I. rewrite executed_logged in I by reflexivity.
  destruct (A id I) as [I0 | S]; [ left | now right ].
  now rewrite executed_logged in I0 by reflexivity.
Qed.


Section Cycle.
Variable g : Graph.
Variable loops : Node -> bool.
Hypothesis no_branching :
  forallb (fun n => negb (branching n)) (nodes g) = true.
Hypothesis operators_total : forallb total_operator (nodes g) = true.
Hypothesis closed : closed_under_successor g loops = true.

Lemma step_does_not_throw (exec : Node -> Run.M State value) (node : Node)
    (r : value) :
  (forall m s e s', In m (nodes g) -> exec m s <> Some (Thrown e, s')) ->
  forall s e s',
    executeNextNodes exec g node r s <> Some (Thrown e, s').
Proof.
  intros X s e s' T. unfold executeNextNodes in T.
  apply for_each_throws in T as (x & s0 & _ & T).
  destruct (shouldExecute node r x); [ | discriminate T ].
  destruct (find_node g (target x)) as [m | ] eqn:F; [ | discriminate T ].
  apply find_node_some in F as [I _].
  unfold bind in T.
  destruct (exec m s0) as [[[a | e0] s1] | ] eqn:M; try discriminate T.
  injection T as <- <-. now apply (X m s0 e0 s1).
Qed.

(** Without condition, boolean and throwing operator nodes, no node
    throws. *)
Lemma executeNode_does_not_throw (fuel : nat) :
  forall node s e s',
    In node (nodes g) -> executeNode fuel g node s <> Some (Thrown e, s').
Proof.
  induction fuel as [ | fuel IH]; intros node s e s' I; [ discriminate | ].
  destruct (dispatch_returns node
              (logged [call (node_id node)
                         ("Executing node: " ++ label (node_data node))
                         level_info no_data] s)
              (node_does_not_branch g no_branching node I)
              (node_operator_total g operators_total node I))
    as (r & s1 & D & _).
  rewrite (executeNode_after_dispatch fuel g node s s1 r D).
  unfold try_catch, bind at 1. rewrite log_run. unfold bind at 1.
  destruct (executeNextNodes _ g node r _) as [[[u | e0] s2] | ] eqn:N;
    try discriminate.
  now apply step_does_not_throw in N.
Qed.

Lemma for_each_diverges {A} (xs : list A) (body : A -> Run.M State unit)
    (x0 : A) :
  (forall x s e s', In x xs -> body x s <> Some (Thrown e, s')) ->
  In x0 xs -> (forall s, body x0 s = None) ->
  forall s, for_each xs body s = None.
Proof.
  intros NT I D. induction xs as [ | x xs IH]; [ destruct I | ].
  intros s. simpl. unfold bind.
  destruct (body x s) as [[[a | e] s1] | ] eqn:B; [ | | reflexivity ].
  - destruct I as [-> | I]; [ rewrite D in B; discriminate | ].
    apply IH; [ | exact I ]. intros y s0 e s' Iy. apply NT. now right.
  - apply NT in B; [ destruct B | now left ].
Qed.

(** A node on a path that never ends does not finish, whatever the fuel. *)
Lemma executeNode_diverges (fuel : nat) :
  forall node s,
    In node (nodes g) -> loops node = true -> executeNode fuel g node s = None.
Proof.
  induction fuel as [ | fuel IH]; intros node s I L; [ reflexivity | ].
  destruct (dispatch_returns node
              (logged [call (node_id node)
                         ("Executing node: " ++ label (node_data node))
                         level_info no_data] s)
              (node_does_not_branch g no_branching node I)
              (node_operator_total g operators_total node I))
    as (r & s1 & D & _).
  rewrite (executeNode_after_dispatch fuel g node s s1 r D).
  unfold try_catch, bind at 1. rewrite log_run. unfold bind at 1.
  assert (S : existsb loops (successors g node) = true).
  { unfold closed_under_successor in closed.
    rewrite forallb_forall in closed. specialize (closed node I).
    now rewrite L in closed. }
  apply existsb_exists in S as (m & Sm & Lm).
  unfold successors in Sm. apply in_flat_map in Sm as (x & Ix & Fx).
  destruct (find_node g (target x)) as [k | ] eqn:F; [ | destruct Fx ].
  destruct Fx as [-> | []].
  assert (B : branching node = false)
    by apply (node_does_not_branch g no_branching node I).
  unfold executeNextNodes.
  rewrite (for_each_diverges _ _ x); try reflexivity; try assumption.
  - intros y s0 e s' _ T.
    destruct (shouldExecute node r y); [ | discriminate T ].
    destruct (find_node g (target y)) as [k | ] eqn:Fy; [ | discriminate T ].
    apply find_node_some in Fy as [Ik _]. unfold bind in T.
    destruct (executeNode fuel g k s0) as [[[a | e0] s2] | ] eqn:M;
      try discriminate T.
    now apply executeNode_does_not_throw in M.
  - intros s0.
    assert (SE : shouldExecute node r x = true).
    { unfold shouldExecute. unfold branching in B. now rewrite B. }
    rewrite SE, F. apply find_node_some in F as [Im _].
    unfold bind. now rewrite (IH m s0 Im Lm).
Qed.

End Cycle.

(** There is no cycle detection.  Take a graph all of whose nodes are
    triggers, actions and operator nodes without configuration, no
    [setVariable] action having a name that does not convert to a property
    key: no handler throws, and every [executeNode] waits for its handler
    before it goes on, so that the walk does not nest on the call stack.
    A run whose trigger leads into a cycle never ends there, whatever fuel
    the walk is given. *)
Theorem run_into_cycle_never_ends (g : Graph) (loops : Node -> bool)
    (t : Node) :
  forallb known (nodes g) = true ->
  forallb (fun n => negb (branching n)) (nodes g) = true ->
  forallb total_handler (nodes g) = true ->
  closed_under_successor g loops = true ->
  In t (triggerNodes g) -> loops t = true ->
  forall fuel s, execute fuel g s = None.
Proof.
  intros _ B O' C T L fuel s.
  assert (O : forallb total_operator (nodes g) = true).
  { rewrite forallb_forall in *. intros n I.
    now apply total_handler_operator, O'. }
  assert (I : In t (nodes g)).
  { unfold triggerNodes in T. now apply filter_In in T. }
  unfold execute, bind at 1. rewrite log_run.
  destruct (triggerNodes g) as [ | t0 ts] eqn:Tr; [ destruct T | ].
  unfold bind at 1.
  rewrite (for_each_diverges _ _ t); try reflexivity; try assumption.
  - intros x s0 e s' Ix X. unfold bind in X.
    destruct (executeNode fuel g x s0) as [[[a | e0] s2] | ] eqn:M;
      try discriminate X.
    apply (executeNode_does_not_throw g B O) in M; [ destruct M | ].
    rewrite <- Tr in Ix. unfold triggerNodes in Ix.
    now apply filter_In in Ix.
  - intros s0. unfold bind.
    now rewrite (executeNode_diverges g loops B O C fuel t s0 I L).
Qed.


Lemma lookup_fold_insert (l : list (string * value)) (m : gmap string value)
    (k : string) :
  fold_left (fun acc kv => <[fst kv := snd kv]> acc) l m !! k =
  match last_binding k l with
  | Some v => Some v
  | None => m !! k
  end.
Proof.
  unfold last_binding. revert m.
  induction l as [ | [k' v'] l IH] using rev_ind; intros m;
    [ reflexivity | ].
  rewrite fold_left_app, rev_app_distr. simpl.
  destruct (String.eqb k' k) eqn:E.
  - apply String.eqb_eq in E. subst k'. simpl. apply lookup_insert_eq.
  - apply String.eqb_neq in E. rewrite lookup_insert_ne by exact E.
    apply IH.
Qed.

(** The trigger handler merges [config.variables] into the variables: a
    name it binds gets the last value bound to it, every other variable
    keeps its value; nothing else of the state changes but the counter.
    Without a truthy [config.variables] the variables stay as they are.
    The names that [config.variables] binds are taken to be other than
    [__proto__], which [Object.assign] does not store as a variable. *)
Theorem trigger_merges_its_variables (node : Node) (s : State) :
  let cfg := config (node_data node) in
  let given := ToBoolean cfg && ToBoolean (field cfg "variables") in
  forallb (fun kv => plain_key (fst kv)) (own_entries (field cfg "variables"))
    = true ->
  exists r s',
    executeTrigger node s = Some (Ok r, s')
    /\ field r "triggered" = VBool true
    /\ (forall k,
          variables (context s') !! k =
          match (if given then last_binding k (own_entries (field cfg "variables"))
                 else None) with
          | Some v => Some v
          | None => variables (context s) !! k
          end)
    /\ results (context s') = results (context s)
    /\ logs (context s') = logs (context s)
    /\ onLog s' = onLog s.
Proof.
  intros cfg given _. unfold executeTrigger. fold cfg. fold given.
  destruct given; eexists _, _; (split; [ reflexivity | ]);
    (split; [ reflexivity | ]); (split; [ | repeat split ]).
  - intros k. simpl. unfold Object_assign. apply lookup_fold_insert.
  - intros k. reflexivity.
Qed.

(** A [setVariable] action stores [actionConfig.value] as it is, a [$]
    reference included, under [String(actionConfig.name)]; then
    [executeNode] stores the node's result under the node's label.  So
    when the name is the label of the node, the variable ends up holding
    the result object and not the value.  The name is taken to convert to
    a property key, and that key and the label to be other than
    [__proto__]. *)
Theorem setVariable_then_label (fuel : nat) (g : Graph) (node : Node)
    (s : State) :
  sets_variable node = true ->
  outgoingEdges g node = [] ->
  convertible (field (actionConfig (node_data node)) "name") = true ->
  plain_key (ToString (field (actionConfig (node_data node)) "name")) = true ->
  plain_key (label (node_data node)) = true ->
  let name := ToString (field (actionConfig (node_data node)) "name") in
  let v := field (actionConfig (node_data node)) "value" in
  let r := VObj (counter s)
             [("set", VBool true);
              ("name", field (actionConfig (node_data node)) "name");
              ("value", v)] in
  exists s',
    executeNode (S fuel) g node s = Some (Ok r, s')
    /\ variables (context s') =
       <[label (node_data node) := r]> (<[name := v]> (variables (context s)))
    /\ (name = label (node_data node) ->
        variables (context s') !! name = Some r)
    /\ (name <> label (node_data node) ->
        variables (context s') !! name = Some v).
Proof.
  intros SV O _ _ _ name v r. unfold sets_variable in SV.
  apply andb_true_iff in SV as [T A].
  destruct (actionType (node_data node)) as [t | ] eqn:AT; [ | discriminate A ].
  apply String.eqb_eq in A. subst t.
  assert (Tt : type_is node "trigger" = false).
  { unfold type_is in *. destruct (node_type node) as [u | ]; [ | easy ].
    apply String.eqb_eq in T. now subst u. }
  assert (D : forall s0, exists s1,
             dispatch node s0 = Some (Ok (VObj (counter s0)
                                        [("set", VBool true);
                                         ("name", field (actionConfig (node_data node)) "name");
                                         ("value", v)]), s1)
             /\ variables (context s1) = <[name := v]> (variables (context s0))
             /\ counter s0 <= counter s1).
  { intros s0. unfold dispatch. rewrite Tt, T. unfold executeAction.
    rewrite AT. eexists. split; [ reflexivity | ]. split; [ reflexivity | ].
    simpl. lia. }
  destruct (D (logged [call (node_id node)
                         ("Executing node: " ++ label (node_data node))
                         level_info no_data] s)) as (s1 & D1 & V1 & _).
  simpl counter in D1. fold r in D1.
  rewrite (executeNode_after_dispatch fuel g node s s1 r D1).
  unfold try_catch, bind at 1. rewrite log_run.
  unfold executeNextNodes. rewrite O.
  eexists. split; [ reflexivity | ].
  assert (V : variables (context
                (logged [call (node_id node)
                           ("Node completed with result: " ++ JSON_stringify r)
                           level_info (data_value r)]
                   (stored (node_id node) (label (node_data node)) r s1))) =
              <[label (node_data node) := r]>
                (<[name := v]> (variables (context s)))).
  { simpl. now rewrite V1. }
  split; [ exact V | ]. rewrite V. split.
  - intros ->. apply lookup_insert_eq.
  - intros N. rewrite lookup_insert_ne by congruence. apply lookup_insert_eq.
Qed.

End WithHost.

Import Sample Fixtures.

(** On the chain [a -> b -> c] the run leaves [context.logs] empty. *)
Lemma run_only_adds_witness :
  exists o s',
    execute 3 chain initial = Some (o, s')
    /\ logs (context s') = []
    /\ exists calls, onLog s' = [] ++ calls.
Proof.
  destruct (execute 3 chain initial) as [[o s'] | ] eqn:E;
    [ | vm_compute in E; discriminate E ].
  exists o, s'. split; [ reflexivity | ].
  pose proof (run_only_adds 3 chain initial s' o E) as (L & C & _).
  exact (conj L C).
Defined.

(** The three nodes of the chain have their results. *)
Lemma completed_run_has_a_result_for_every_started_node_witness :
  exists ctx s',
    execute 3 chain initial = Some (Ok ctx, s')
    /\ forall id, In id (executed s') ->
                  In id (executed initial) \/ is_Some (results ctx !! id).
Proof.
  destruct (execute 3 chain initial) as [[[ctx | e] s'] | ] eqn:E;
    [ | vm_compute in E; discriminate E | vm_compute in E; discriminate E ].
  exists ctx, s'. split; [ reflexivity | ].
  exact (proj2 (completed_run_has_a_result_for_every_started_node
                  3 chain initial s' ctx eq_refl E)).
Defined.

(** The run of [looping] does not end within fifty nested calls. *)
Lemma run_into_cycle_never_ends_witness :
  In (node "t" "trigger") (triggerNodes looping)
  /\ execute 50 looping initial = None.
Proof.
  split; [ left; reflexivity | ].
  exact (run_into_cycle_never_ends looping (fun _ => true)
           (node "t" "trigger") eq_refl eq_refl eq_refl eq_refl
           (or_introl eq_refl) eq_refl 50 initial).
Defined.

(** The trigger [starting] binds [x] to 10. *)
Lemma trigger_merges_its_variables_witness :
  exists r s',
    executeTrigger starting initial = Some (Ok r, s')
    /\ variables (context s') !! "x" = Some (VNum 10%float).
Proof.
  destruct (trigger_merges_its_variables starting initial eq_refl)
    as (r & s' & E & _ & V & _).
  exists r, s'. split; [ exact E | exact (V "x") ].
Defined.

(** The variable [total] of [assigning] ends up holding the result
    object. *)
Lemma setVariable_then_label_witness :
  exists s',
    executeNode 1 {| nodes := [assigning]; edges := [] |} assigning initial =
      Some (Ok (VObj 0 [("set", VBool true); ("name", VStr "total");
                        ("value", VNum 1%float)]), s')
    /\ variables (context s') !! "total" =
       Some (VObj 0 [("set", VBool true); ("name", VStr "total");
                     ("value", VNum 1%float)]).
Proof.
  destruct (setVariable_then_label 0 {| nodes := [assigning]; edges := [] |}
              assigning initial eq_refl eq_refl eq_refl eq_refl eq_refl)
    as (s' & E & _ & V & _).
  exists s'. split; [ exact E | exact (V eq_refl) ].
Defined.

End RunFacts.

(* ------------------------------------------------------------------------- *)
(** ** The nodes a run starts, and the error entries of a run that throws *)
(* ------------------------------------------------------------------------- *)

Module WalkFacts.
Import JS Operators Engine Run Stated Domain Observed OperatorFacts EngineFacts
  RunFacts.
Local Open Scope run_scope.

Lemma appends_refl (P : LogCall -> bool) s : appends P s s.
Proof. exists []. split; [ now rewrite app_nil_r | reflexivity ]. Qed.

Lemma appends_trans (P : LogCall -> bool) s1 s2 s3 :
  appends P s1 s2 -> appends P s2 s3 -> appends P s1 s3.
Proof.
  intros (c1 & O1 & F1) (c2 & O2 & F2). exists (c1 ++ c2). split.
  - rewrite O2, O1. now rewrite app_assoc.
  - rewrite forallb_app. now rewrite F1, F2.
Qed.

Lemma appends_weaken (P Q : LogCall -> bool) s s' :
  (forall c, P c = true -> Q c = true) -> appends P s s' -> appends Q s s'.
Proof.
  intros W (calls & O & F). exists calls. split; [ exact O | ].
  rewrite forallb_forall in *. auto.
Qed.

Lemma preserves_weaken {A} (P Q : LogCall -> bool) (m : Run.M State A) :
  (forall c, P c = true -> Q c = true) ->
  preserves (appends P) m -> preserves (appends Q) m.
Proof. intros W X s o s' E. eapply appends_weaken, X, E. exact W. Qed.

Lemma appends_fresh P : preserves (appends P) fresh.
Proof.
  intros s o s' E. injection E as _ <-. exists [].
  split; [ simpl; now rewrite app_nil_r | reflexivity ].
Qed.

Lemma appends_modify_variables P f :
  preserves (appends P) (modify (set_variables f)).
Proof.
  intros s o s' E. injection E as _ <-. exists [].
  split; [ simpl; now rewrite app_nil_r | reflexivity ].
Qed.

Lemma appends_modify_results P f :
  preserves (appends P) (modify (set_results f)).
Proof.
  intros s o s' E. injection E as _ <-. exists [].
  split; [ simpl; now rewrite app_nil_r | reflexivity ].
Qed.

Lemma appends_log (P : LogCall -> bool) n m l d :
  P (call n m l d) = true -> preserves (appends P) (log n m l d).
Proof.
  intros X s o s' E. injection E as _ <-. exists [call n m l d].
  split; [ reflexivity | ]. simpl. now rewrite X.
Qed.

Lemma preserves_for_each_In {A} (R : State -> State -> Prop)
    (xs : list A) (body : A -> Run.M State unit) :
  (forall s, R s s) -> (forall s1 s2 s3, R s1 s2 -> R s2 s3 -> R s1 s3) ->
  (forall x, In x xs -> preserves R (body x)) ->
  preserves R (for_each xs body).
Proof.
  intros Rr Rt. induction xs as [ | x xs IH]; intros B; simpl.
  - now apply preserves_ret.
  - apply (preserves_bind R Rt).
    + apply B. now left.
    + intros _. apply IH. intros y I. apply B. now right.
Qed.

Ltac appends_step P :=
  first [ apply (preserves_ret (appends P) (appends_refl P))
        | apply (preserves_throw (appends P) (appends_refl P))
        | apply (preserves_lift (appends P) (appends_refl P))
        | apply (preserves_gets (appends P) (appends_refl P))
        | apply (preserves_diverge (appends P))
        | apply appends_fresh
        | apply appends_modify_variables
        | apply appends_modify_results
        | apply (preserves_bind (appends P) (appends_trans P)); [ | intros ? ] ].

Lemma inner_below g c : inner c = true -> below g c = true.
Proof.
  unfold inner, below. intros I. apply andb_true_iff in I as [S C].
  now rewrite S, C.
Qed.

Lemma below_unfinished g c : below g c = true -> negb (completion c) = true.
Proof. unfold below. intros B. now apply andb_true_iff in B as [C _]. Qed.

Section WithHost.
Context `{Host} `{OperatorFamilies}.

(** A handler makes inner calls only. *)
Lemma dispatch_inner node : preserves (appends inner) (dispatch node).
Proof.
  unfold dispatch, executeTrigger, executeAction, executeCondition,
    executeBoolean, executeOperatorNode.
  branches; repeat (appends_step inner; branches).
  all: apply appends_log; try reflexivity.
  all: try (unfold inner, started, completion, call; simpl;
            match goal with |- context [bool_text ?r] => destruct r end;
            reflexivity).
  all: unfold inner, started, completion, call; simpl.
  all: try (destruct (node_type node); reflexivity).
Qed.

Lemma entry_below (g : Graph) (node : Node) :
  targeted g (node_id node) = true -> below g (entry_call node) = true.
Proof.
  intros T. unfold below, entry_call, completion, call. simpl.
  now rewrite T, orb_true_r.
Qed.

(** The calls of [executeNode]: its entry, then calls below the node. *)
Lemma executeNode_below (fuel : nat) (g : Graph) :
  forall node s o s',
    executeNode fuel g node s = Some (o, s') ->
    appends (below g) (logged [entry_call node] s) s'.
Proof.
  induction fuel as [ | fuel IH]; intros node s o s'; [ discriminate | ].
  simpl. unfold bind at 1. rewrite log_run. fold (entry_call node).
  revert o s'. generalize (logged [entry_call node] s). 
  change (preserves (appends (below g))
            (try_catch
               (let* result := dispatch node in
                after_dispatch (executeNode fuel g) g node result)
               (rethrow node))).
  apply (preserves_try_catch _ (appends_trans _)).
  - apply (preserves_bind _ (appends_trans _));
      [ apply (preserves_weaken inner), dispatch_inner; apply inner_below | ].
    intros r. unfold after_dispatch, store.
    apply (preserves_bind _ (appends_trans _));
      [ repeat appends_step (below g) | intros _ ].
    apply (preserves_bind _ (appends_trans _));
      [ apply appends_log; reflexivity | intros _ ].
    apply (preserves_bind _ (appends_trans _));
      [ | intros _; appends_step (below g) ].
    unfold executeNextNodes.
    apply (preserves_for_each_In _ _ _ (appends_refl _) (appends_trans _)).
    intros e Ie. apply outgoingEdges_In in Ie as [Ie _].
    destruct (shouldExecute node r e);
      [ | appends_step (below g) ].
    destruct (find_node g (target e)) as [m | ] eqn:F;
      [ | appends_step (below g) ].
    apply find_node_some in F as [_ F].
    appends_step (below g); [ | appends_step (below g) ].
    intros s0 o s1 E. apply IH in E.
    eapply appends_trans; [ | exact E ].
    exists [entry_call m]. split; [ reflexivity | ].
    simpl. rewrite entry_below; [ reflexivity | ].
    unfold targeted. apply existsb_exists. exists e.
    split; [ exact Ie | ]. apply String.eqb_eq. now rewrite F.
  - intros e. unfold rethrow. repeat appends_step (below g).
    apply appends_log. reflexivity.
Qed.

Lemma executed_appends (g : Graph) (s s' : State) :
  appends (below g) s s' ->
  exists rest, executed s' = executed s ++ rest
               /\ forallb (targeted g) rest = true.
Proof.
  intros (calls & O & F).
  exists (map log_nodeId (List.filter started calls)). split.
  - unfold executed. now rewrite O, List.filter_app, List.map_app.
  - clear O. induction calls as [ | c calls IH]; [ reflexivity | ].
    simpl in F. apply andb_true_iff in F as [B F]. simpl.
    destruct (started c) eqn:S; [ | now apply IH ].
    simpl. rewrite (IH F), andb_true_r.
    unfold below in B. rewrite S in B. simpl in B.
    now apply andb_true_iff in B as [_ B].
Qed.

(** The nodes a call of [executeNode] starts: its own, then nodes reached
    along an edge. *)
Lemma executeNode_run_of (fuel : nat) (g : Graph) (node : Node)
    (s s' : State) (o : result value) :
  executeNode fuel g node s = Some (o, s') ->
  exists segment, run_of g node segment
                  /\ executed s' = executed s ++ segment.
Proof.
  intros E. apply executeNode_below, executed_appends in E as (rest & E & T).
  exists (node_id node :: rest). split; [ now exists rest | ].
  rewrite E. unfold entry_call. rewrite executed_entry.
  now rewrite <- app_assoc.
Qed.

(** Nodes run one after the other, until one of them throws. *)
Lemma for_each_runs (fuel : nat) (g : Graph) (ms : list Node) :
  forall (s s' : State) (o : result unit),
    for_each ms (fun m => executeNode fuel g m ;;; ret tt) s = Some (o, s') ->
    exists ran later segments,
      ms = ran ++ later
      /\ Forall2 (run_of g) ran segments
      /\ executed s' = executed s ++ concat segments
      /\ (is_ok o = true -> later = [])
      /\ (is_ok o = false -> ran <> []).
Proof.
  induction ms as [ | m ms IH]; intros s s' o E.
  - injection E as <- <-. exists [], [], [].
    repeat split; try constructor; try discriminate.
    simpl. now rewrite app_nil_r.
  - simpl in E. unfold bind at 1 in E. unfold bind at 1 in E.
    destruct (executeNode fuel g m s) as [[[r | e] s1] | ] eqn:X;
      try discriminate E.
    + simpl in E. apply IH in E as (ran & later & segs & M & F & Ex & K & T).
      apply executeNode_run_of in X as (seg & R & X).
      exists (m :: ran), later, (seg :: segs).
      repeat split; try assumption.
      * simpl. now rewrite M.
      * now constructor.
      * rewrite Ex, X. simpl. now rewrite <- app_assoc.
      * discriminate.
    + injection E as <- <-.
      apply executeNode_run_of in X as (seg & R & X).
      exists [m], ms, [seg]. repeat split; try discriminate.
      * constructor; [ exact R | constructor ].
      * rewrite X. simpl. now rewrite app_nil_r.
Qed.

(** Below a node that does not branch, [executeNextNodes] runs the
    successors in order. *)
Lemma executeNextNodes_successors (exec : Node -> Run.M State value)
    (g : Graph) (node : Node) (r : value) (s : State) :
  branching node = false ->
  executeNextNodes exec g node r s =
  for_each (successors g node) (fun m => exec m ;;; ret tt) s.
Proof.
  intros B. unfold executeNextNodes, successors.
  generalize (outgoingEdges g node). intros es. revert s.
  induction es as [ | e es IH]; intros s; [ reflexivity | ].
  assert (SE : shouldExecute node r e = true).
  { unfold shouldExecute. unfold branching in B. now rewrite B. }
  cbn [for_each flat_map]. rewrite SE.
  destruct (find_node g (target e)) as [m | ].
  - cbn [app for_each]. unfold bind at 1. unfold bind at 3.
    destruct ((exec m ;;; ret tt) s) as [[[u | e0] s1] | ];
      [ apply IH | reflexivity | reflexivity ].
  - cbn [app]. unfold bind at 1. cbn [ret]. apply IH.
Qed.

(** A trigger is no target of an edge. *)
Lemma trigger_not_targeted (g : Graph) (t : Node) :
  In t (triggerNodes g) -> targeted g (node_id t) = false.
Proof.
  unfold triggerNodes, targeted. rewrite filter_In, negb_true_iff.
  now intros [_ T].
Qed.


(** C7. A node whose type is none of [trigger], [action], [condition],
    [boolean], [operator] makes the dispatcher log a warning and yield
    [null]; the run is not aborted: [null] is stored, the completion is
    logged, and the engine goes on to the targets of all outgoing edges
    of the node, in the order of the edges.  The nodes started are the
    node itself, then each target in turn with the nodes below it; when
    nothing below throws, every target was started and the result of the
    node is [null].  The id and the label of the node are taken to be
    other than [__proto__], which is no ordinary key of [results] and
    [variables]. *)
Theorem unknown_type_warns_and_continues (fuel : nat) (g : Graph)
    (node : Node) (s : State) :
  known node = false ->
  plain_key (node_id node) = true ->
  plain_key (label (node_data node)) = true ->
  let warned :=
    call (node_id node)
      ("Unknown node type: "
         ++ match node_type node with Some t => t | None => "undefined" end)
      level_warning no_data in
  let after :=
    logged [call (node_id node)
              ("Node completed with result: " ++ JSON_stringify VNull)
              level_info (data_value VNull)]
      (stored (node_id node) (label (node_data node)) VNull
         (logged [entry_call node; warned] s)) in
  dispatch node s = Some (Ok VNull, logged [warned] s)
  /\ (forall e, shouldExecute node VNull e = true)
  /\ executeNode (S fuel) g node s =
     try_catch
       (for_each (successors g node)
          (fun m => executeNode fuel g m ;;; ret tt) ;;;
        ret VNull)
       (rethrow node) after
  /\ (forall o s',
        executeNode (S fuel) g node s = Some (o, s') ->
        exists ran later segments,
          successors g node = ran ++ later
          /\ Forall2 (run_of g) ran segments
          /\ executed s' = executed s ++ node_id node :: concat segments
          /\ (is_ok o = true -> later = [] /\ o = Ok VNull)
          /\ (is_ok o = false -> ran <> [])).
Proof.
  intros K _ _ warned after.
  destruct (known_false node K) as (T1 & T2 & T3 & T4 & T5).
  assert (B : branching node = false) by (unfold branching; now rewrite T3, T4).
  assert (D : forall s0, dispatch node s0 = Some (Ok VNull, logged [warned] s0)).
  { intros s0. unfold dispatch. rewrite T1, T2, T3, T4, T5. reflexivity. }
  assert (E : executeNode (S fuel) g node s =
              try_catch
                (for_each (successors g node)
                   (fun m => executeNode fuel g m ;;; ret tt) ;;;
                 ret VNull)
                (rethrow node) after).
  { rewrite (executeNode_after_dispatch fuel g node s _ VNull (D _)).
    rewrite logged_logged. unfold try_catch, bind at 1. rewrite log_run.
    unfold bind at 1. rewrite (executeNextNodes_successors _ g node VNull _ B).
    unfold bind at 2. reflexivity. }
  split; [ apply D | split; [ | split; [ exact E | ] ] ].
  - intros e. unfold shouldExecute. now rewrite T3, T4.
  - intros o s'. rewrite E. unfold try_catch, bind at 1.
    assert (X : executed after = executed s ++ [node_id node]).
    { unfold after. rewrite executed_logged by reflexivity.
      rewrite executed_stored.
      change (logged [entry_call node; warned] s)
        with (logged ([entry_call node] ++ [warned]) s).
      rewrite <- logged_logged, executed_logged by
        (unfold warned, started, call; simpl;
         destruct (node_type node); reflexivity).
      apply executed_entry. }
    destruct (for_each (successors g node) _ after) as [[[u | e] s1] | ] eqn:F;
      try discriminate.
    + intros Y. injection Y as <- <-.
      apply for_each_runs in F as (ran & later & segs & M & R & Ex & L & _).
      exists ran, later, segs. repeat split; try assumption.
      * rewrite Ex, X. now rewrite <- app_assoc.
      * now apply L.
      * discriminate.
    + unfold rethrow, bind, throw. rewrite log_run.
      intros Y. injection Y as <- <-.
      apply for_each_runs in F as (ran & later & segs & M & R & Ex & _ & L).
      exists ran, later, segs. repeat split; try assumption; try discriminate.
      rewrite executed_logged by reflexivity.
      rewrite Ex, X. now rewrite <- app_assoc.
Qed.

(** A loop throws in one of its rounds, which starts from a state that the
    rounds before have led to. *)
Lemma for_each_throws_from {A} (R : State -> State -> Prop)
    (xs : list A) (body : A -> Run.M State unit) :
  (forall s, R s s) -> (forall s1 s2 s3, R s1 s2 -> R s2 s3 -> R s1 s3) ->
  (forall x, preserves R (body x)) ->
  forall s e s',
    for_each xs body s = Some (Thrown e, s') ->
    exists x s0, In x xs /\ R s s0 /\ body x s0 = Some (Thrown e, s').
Proof.
  intros Rr Rt P. induction xs as [ | x xs IH]; intros s e s';
    simpl; [ discriminate | ].
  unfold bind.
  destruct (body x s) as [[[a | e0] s1] | ] eqn:B; try discriminate.
  - intros E. destruct (IH _ _ _ E) as (y & s0 & I & Q & Y).
    exists y, s0. repeat split; auto. eapply Rt; [ | exact Q ].
    eapply P, B.
  - intros E. injection E as <- <-. exists x, s. auto.
Qed.

Lemma executeNode_unfinished (fuel : nat) (g : Graph) (node : Node) :
  preserves (appends unfinished) (executeNode fuel g node).
Proof.
  intros s o s' E. apply executeNode_below in E.
  apply (appends_trans _ _ (logged [entry_call node] s)).
  - exists [entry_call node]. split; reflexivity.
  - eapply appends_weaken, E. apply below_unfinished.
Qed.

(** When [executeNode] throws, the error was thrown by the handler of a
    node below it, and the last calls of [onLog] are the error entries of
    that node and of every node above it, up to the node itself. *)
Lemma executeNode_error_chain (fuel : nat) (g : Graph) :
  forall node s e s',
    executeNode fuel g node s = Some (Thrown e, s') ->
    exists path s0,
      descends g node path
      /\ s' = logged (map (fun m => error_call m e) (rev (node :: path))) s0
      /\ appends unfinished s s0.
Proof.
  induction fuel as [ | fuel IH]; intros node s e s'; [ discriminate | ].
  assert (A0 : appends unfinished s (logged [entry_call node] s)).
  { exists [entry_call node]. split; reflexivity. }
  destruct (dispatch node (logged [entry_call node] s))
    as [[[r | e0] s1] | ] eqn:D.
  - pose proof (dispatch_inner node _ _ _ D) as A1.
    apply (appends_weaken inner unfinished) in A1;
      [ | unfold inner, unfinished; intros c I;
          now apply andb_true_iff in I as [_ I] ].
    unfold entry_call in D.
    rewrite (executeNode_after_dispatch fuel g node s s1 r D).
    unfold try_catch, bind at 1. rewrite log_run. unfold bind at 1.
    match goal with |- context [executeNextNodes ?x g node r ?st] =>
      destruct (executeNextNodes x g node r st)
        as [[[u | e1] s2] | ] eqn:N end;
      [ unfold ret; cbn beta iota; discriminate | | discriminate ].
    unfold rethrow, bind, throw. rewrite log_run.
    intros E. injection E as <- <-.
    unfold executeNextNodes in N.
    apply (for_each_throws_from (appends unfinished))
      in N as (x & sx & Ix & Ax & X).
    + destruct (shouldExecute node r x); [ | discriminate X ].
      destruct (find_node g (target x)) as [m | ] eqn:F;
        [ | discriminate X ].
      unfold bind in X.
      destruct (executeNode fuel g m sx) as [[[a | e2] s3] | ] eqn:M;
        try discriminate X.
      injection X as <- <-.
      apply IH in M as (path & s0 & Dp & -> & A3).
      exists (m :: path), s0. split; [ | split ].
      * constructor; [ | exact Dp ]. unfold successors.
        apply in_flat_map. exists x. split; [ exact Ix | ].
        rewrite F. now left.
      * rewrite logged_logged.
        change (rev (node :: m :: path)) with (rev (m :: path) ++ [node]).
        now rewrite List.map_app.
      * eapply appends_trans; [ exact A0 | ].
        eapply appends_trans; [ exact A1 | ].
        eapply appends_trans; [ | eapply appends_trans; [ exact Ax | exact A3 ] ].
        exists [call (node_id node)
                  ("Node completed with result: " ++ JSON_stringify r)
                  level_info (data_value r)].
        split; reflexivity.
    + apply appends_refl.
    + apply appends_trans.
    + intros y. destruct (shouldExecute node r y);
        [ | appends_step unfinished ].
      destruct (find_node g (target y)); [ | appends_step unfinished ].
      appends_step unfinished; [ apply executeNode_unfinished | ].
      appends_step unfinished.
  - pose proof (dispatch_inner node _ _ _ D) as A1.
    apply (appends_weaken inner unfinished) in A1;
      [ | unfold inner, unfinished; intros c I;
          now apply andb_true_iff in I as [_ I] ].
    simpl. unfold bind at 1. rewrite log_run.
    unfold try_catch, bind at 1. fold (entry_call node). rewrite D.
    unfold rethrow, bind, throw. rewrite log_run.
    intros E. injection E as <- <-.
    exists [], s1. split; [ constructor | split; [ reflexivity | ] ].
    eapply appends_trans; [ exact A0 | exact A1 ].
  - simpl. unfold bind at 1. rewrite log_run.
    unfold try_catch, bind at 1. fold (entry_call node). rewrite D.
    discriminate.
Qed.


End WithHost.
Import Sample Fixtures.



(** The node [w] of [widgets] has an unknown type; its run yields [null]
    and starts the action [a] behind it. *)
Lemma unknown_type_warns_and_continues_witness :
  known (node "w" "widget") = false
  /\ exists s' rest,
       executeNode 2 widgets (node "w" "widget") initial = Some (Ok VNull, s')
       /\ executed s' = "w" :: "a" :: rest.
Proof.
  split; [ reflexivity | ].
  destruct (executeNode 2 widgets (node "w" "widget") initial)
    as [[[v | e] s'] | ] eqn:E;
    [ | vm_compute in E; discriminate E | vm_compute in E; discriminate E ].
  destruct (proj2 (proj2 (proj2 (unknown_type_warns_and_continues
                                   1 widgets (node "w" "widget") initial
                                   eq_refl eq_refl eq_refl))) _ s' E)
    as (ran & later & segs & M & R & X & L & _).
  destruct (L eq_refl) as [-> V]. rewrite app_nil_r in M.
  change (successors widgets (node "w" "widget"))
    with [node "a" "action"] in M.
  subst ran. inversion R as [ | x seg l l' (rest & -> & _) R' ]; subst.
  inversion R'; subst.
  exists s', rest. split; [ now rewrite V | ].
  rewrite X. simpl. now rewrite app_nil_r.
Defined.


End WalkFacts.

(* ================================================================== *)
(** ** When the evaluators of [operators.ts] throw *)
(* ================================================================== *)

Module ExpressionFacts.
Import JS Operators Stated Domain Observed OperatorFacts EngineFacts.

Section WithHost.
Context `{Host}.

(** [evaluateCondition] returns on each of its ten operators and throws on
    every other operator name; on operands that [Number()] and [String()]
    convert, the one operator that can throw on its operands is [matches],
    when the right operand, resolved and converted to a string, is not a
    regular expression.  The operands are taken to resolve to their own
    text or to a variable of the context, not to a member of
    [Object.prototype], and to values that convert. *)
Theorem condition_throws_exactly_when (c : Condition)
    (context : gmap string value) :
  resolves_own (leftOperand c) context = true ->
  resolves_own (rightOperand c) context = true ->
  convertible (resolveValue (leftOperand c) context) = true ->
  convertible (resolveValue (rightOperand c) context) = true ->
  is_ok (evaluateCondition c context) =
  includes_string comparisons (operator c)
  && (negb (String.eqb (operator c) "matches")
      || RegExp_valid (ToString (resolveValue (rightOperand c) context))).
Proof.
  intros _ _ _ _. unfold evaluateCondition, comparisons, includes_string.
  cbn [existsb]. generalize (operator c) as op. intros op.
  repeat match goal with
         | |- context [String.eqb op ?k] =>
             destruct (String.eqb_spec op k) as [-> | ?];
             [ cbn; try reflexivity | ]
         end.
  - now destruct (RegExp_valid _).
  - reflexivity.
Qed.

Lemma evaluateOperands_is_ok (ops : list BooleanExpression)
    (context : gmap string value) :
  is_ok (evaluateOperands ops context) =
  forallb (fun e => is_ok (evaluateBooleanExpression e context)) ops.
Proof.
  induction ops as [ | e ops IH]; [ reflexivity | ].
  cbn [evaluateOperands forallb].
  destruct (evaluateBooleanExpression e context); [ | reflexivity ].
  cbn [is_ok andb]. rewrite <- IH.
  now destruct (evaluateOperands ops context).
Qed.

(** An operator node evaluates all of its operands before it looks at its
    operator: there is no short circuit.  It returns exactly when every
    operand returns and the operator is one of [AND], [OR], [NOT], [XOR];
    so [AND] throws on an operand that throws even behind a false one, and
    [NOT] on one behind its first. *)
Theorem operator_node_throws_exactly_when (op : string)
    (ops : list BooleanExpression) (condition : option Condition) (v : value)
    (context : gmap string value) :
  op <> "" ->
  is_ok (evaluateBooleanExpression
           (BoolExpr "operator" (Some op) (Some ops) condition v) context) =
  forallb (fun e => is_ok (evaluateBooleanExpression e context)) ops
  && includes_string connectives op.
Proof.
  intros N. rewrite evaluate_operator_node by exact N.
  rewrite <- evaluateOperands_is_ok.
  destruct (evaluateOperands ops context) as [bs | err]; [ | reflexivity ].
  cbn [is_ok andb]. unfold combine, connectives, includes_string.
  cbn [existsb].
  repeat match goal with
         | |- context [String.eqb op ?k] =>
             destruct (String.eqb_spec op k) as [-> | ?];
             [ cbn; try reflexivity | ]
         end.
  reflexivity.
Qed.

(** An expression that is not well formed (a [type] other than the three,
    a [condition] node without condition, an [operator] node without
    operator or operands) is [false]: nothing of it is evaluated and
    nothing is thrown. *)
Theorem malformed_expression_is_false (e : BooleanExpression)
    (context : gmap string value) :
  well_formed e = false ->
  evaluateBooleanExpression e context = Ok false.
Proof.
  destruct e as [type operator operands condition v].
  unfold well_formed. intros W.
  apply orb_false_elim in W as [W W3].
  apply orb_false_elim in W as [W1 W2].
  cbn [evaluateBooleanExpression]. rewrite W1.
  destruct (String.eqb type "condition"), condition; try discriminate W2.
  all: destruct (String.eqb type "operator"), operator as [op | ],
         operands as [ops | ]; try reflexivity.
  all: destruct (String.eqb op ""); try reflexivity; discriminate W3.
Qed.

(** [executeMathOperation] throws on the names that are not among the
    fourteen, and [min] and [max] throw on a truthy [values] that is not an
    array; on all other inputs that [Number()] converts it returns. *)
Theorem math_operation_throws_exactly_when (draw : float) (operation : string)
    (inputs : gmap string value) :
  convertible_inputs ["a"; "b"; "value"; "values"] inputs = true ->
  is_ok (executeMathOperation draw operation inputs) =
  includes_string mathOperations operation
  && (negb (String.eqb operation "min" || String.eqb operation "max")
      || spreadable inputs).
Proof.
  intros _.
  unfold executeMathOperation, mathOperations, includes_string, spreadable.
  cbn [existsb].
  repeat match goal with
         | |- context [String.eqb operation ?k] =>
             destruct (String.eqb_spec operation k) as [-> | ?];
             [ cbn; try reflexivity | ]
         end.
  3: reflexivity.
  all: destruct (get inputs "values") as [ | | [] | x | s | ? ? | ? ? | ? ? ];
    try reflexivity; cbn.
  all: try (destruct (_ || _); reflexivity).
  all: try (destruct s; reflexivity).
Qed.

(** [executeOperator] tries the string operations before the array
    operations, and [join], [length], [indexOf] and [slice] are in both
    lists: [executeArrayOperation] is never called with one of these four.
    Whatever it would do with them, [executeOperator] returns the same. *)
Theorem string_family_shadows_array_family (F G : OperatorFamilies)
    (fresh : nat) (config : OperatorConfig) (context : gmap string value) :
  @executeStringOperation F = @executeStringOperation G ->
  @executeDateOperation F = @executeDateOperation G ->
  (forall operation fresh inputs,
     ~ In operation shadowed ->
     @executeArrayOperation F fresh operation inputs =
     @executeArrayOperation G fresh operation inputs) ->
  @executeOperator _ F fresh config context =
  @executeOperator _ G fresh config context.
Proof.
  intros S D A. unfold executeOperator. rewrite S, D.
  destruct (includes_string mathOperations _); [ reflexivity | ].
  destruct (includes_string stringOperations (operation config)) eqn:E;
    [ reflexivity | ].
  destruct (includes_string arrayOperations _); [ | reflexivity ].
  apply A. intros I. unfold shadowed in I. simpl in I.
  assert (X : includes_string stringOperations (operation config) = true).
  { destruct I as [<- | [<- | [<- | [<- | []]]]]; reflexivity. }
  congruence.
Qed.

End WithHost.

Import Sample Fixtures.

(** A condition with an operator that is not one of the ten throws. *)
Lemma condition_throws_exactly_when_witness :
  is_ok (evaluateCondition
           {| leftOperand := VStr "$x"; operator := "bogus";
              rightOperand := VNum 2%float |} ∅) = false.
Proof.
  exact (condition_throws_exactly_when
           {| leftOperand := VStr "$x"; operator := "bogus";
              rightOperand := VNum 2%float |} ∅
           eq_refl eq_refl eq_refl eq_refl).
Defined.

(** [min] of a [values] that is a string throws. *)
Lemma math_operation_throws_exactly_when_witness :
  is_ok (executeMathOperation PrimFloat.zero "min"
           (object [("values", VStr "abc")])) = false.
Proof.
  exact (math_operation_throws_exactly_when PrimFloat.zero "min"
           (object [("values", VStr "abc")]) eq_refl).
Defined.

(** [AND] of [false] and a condition that throws. *)
Lemma operator_node_throws_exactly_when_witness :
  "AND" <> ""
  /\ is_ok (evaluateBooleanExpression
              (BoolExpr "operator" (Some "AND") (Some [literal false; bogus])
                        None VUndefined) ∅) = false.
Proof.
  assert (N : "AND" <> "") by discriminate.
  split; [ exact N | ].
  exact (operator_node_throws_exactly_when "AND" [literal false; bogus]
           None VUndefined ∅ N).
Defined.

(** An operator node without operands. *)
Lemma malformed_expression_is_false_witness :
  evaluateBooleanExpression
    (BoolExpr "operator" (Some "AND") None None (VBool true)) ∅ = Ok false.
Proof.
  exact (malformed_expression_is_false
           (BoolExpr "operator" (Some "AND") None None (VBool true)) ∅
           eq_refl).
Defined.

(** [join] of an array goes to the string executor under both families. *)
Lemma string_family_shadows_array_family_witness :
  @executeOperator _ concrete 0
    {| operation := "join"; inputs := [("array", VArr 0 [VStr "a"])];
       output := None |} ∅ =
  @executeOperator _ variant 0
    {| operation := "join"; inputs := [("array", VArr 0 [VStr "a"])];
       output := None |} ∅.
Proof.
  refine (string_family_shadows_array_family concrete variant 0 _ ∅
            eq_refl eq_refl _).
  intros operation fresh inputs N.
  change (Families.executeArrayOperation fresh operation inputs =
          if includes_string shadowed operation then Ok VNull
          else Families.executeArrayOperation fresh operation inputs).
  destruct (includes_string shadowed operation) eqn:E; [ | reflexivity ].
  elim N. unfold includes_string in E.
  apply existsb_exists in E as (x & I & E).
  apply String.eqb_eq in E. subst x. exact I.
Defined.

End ExpressionFacts.

(* ================================================================== *)
(** ** The array and string operations *)
(* ================================================================== *)

Module FamilyFacts.
Import JS Operators Stated Domain Observed OperatorFacts EngineFacts.
Import Families.

Ltac by_operation operation :=
  repeat match goal with
         | |- context [String.eqb operation ?k] =>
             destruct (String.eqb_spec operation k) as [-> | ?];
             [ try reflexivity | ]
         end.

Section WithHost.
Context `{Host} `{Builtins}.

(** [executeArrayOperation] checks its input before it looks at the
    operation: without an array under [array] it throws ["Input must be an
    array"] for every operation name, known or not, and whatever
    [predicate] and [callback] are.  With an array, when neither
    [predicate] nor [callback] is a function and the elements of the
    array, [start], [end], [deleteCount] and [value] are values that
    [Number()] and [String()] convert, it returns on each of the sixteen
    names and throws on every other name. *)
Theorem array_operation_throws_exactly_when (fresh : nat) (operation : string)
    (inputs : gmap string value) :
  (forall predicate callback,
     is_array (get inputs "array") = false ->
     executeArrayOperationWith predicate callback fresh operation inputs =
     Thrown (Error "Error" "Input must be an array"))
  /\ (convertible_inputs ["array"; "start"; "end"; "deleteCount"; "value"]
        inputs = true ->
      is_ok (executeArrayOperation fresh operation inputs) =
      is_array (get inputs "array")
      && includes_string arrayOperations operation).
Proof.
  unfold executeArrayOperation, executeArrayOperationWith.
  destruct (get inputs "array"); cbn [is_array andb];
    try (split; [ reflexivity | reflexivity ]).
  split; [ discriminate | intros _ ].
  unfold arrayOperations, includes_string. cbn [existsb].
  by_operation operation. reflexivity.
Qed.

(** On inputs that [String()] and [Number()] convert,
    [executeStringOperation] returns on each of its eleven operations,
    missing inputs included ([join] of something that is no array is the
    empty string), and throws on every other name. *)
Theorem string_operation_throws_exactly_when (fresh : nat) (operation : string)
    (inputs : gmap string value) :
  convertible_inputs ["str"; "str1"; "str2"; "separator"; "start"; "end";
                      "searchValue"; "replaceValue"; "array"] inputs = true ->
  is_ok (executeStringOperation fresh operation inputs) =
  includes_string stringOperations operation.
Proof.
  intros _.
  unfold executeStringOperation, stringOperations, includes_string.
  cbn [existsb]. by_operation operation.
  - now destruct (get inputs "array").
  - reflexivity.
Qed.

(** [pop] undoes [push], [shift] undoes [unshift], and [reverse] undoes
    itself: applied to the array the first operation returned, the second
    returns the elements of the original array. *)
Theorem array_round_trips (fresh fresh' : nat) (inputs after : gmap string value) :
  is_array (get inputs "array") = true ->
  (forall r, executeArrayOperation fresh "push" inputs = Ok r ->
             get after "array" = r ->
             executeArrayOperation fresh' "pop" after =
             Ok (VArr fresh' (elements (get inputs "array"))))
  /\ (forall r, executeArrayOperation fresh "unshift" inputs = Ok r ->
                get after "array" = r ->
                executeArrayOperation fresh' "shift" after =
                Ok (VArr fresh' (elements (get inputs "array"))))
  /\ (forall r, executeArrayOperation fresh "reverse" inputs = Ok r ->
                get after "array" = r ->
                executeArrayOperation fresh' "reverse" after =
                Ok (VArr fresh' (elements (get inputs "array")))).
Proof.
  intros A. unfold executeArrayOperation, executeArrayOperationWith.
  destruct (get inputs "array") as [ | | | | | l xs | | ]; try discriminate A.
  cbn [String.eqb Ascii.eqb Bool.eqb elements]. cbn.
  repeat split; intros r E ->; injection E as <-.
  - now rewrite removelast_last.
  - reflexivity.
  - now rewrite rev_involutive.
Qed.

Lemma first_index_filter (v : value) (xs : list value) (k : nat) :
  first_index v (List.filter (fun item => negb (strict_equals item v)) xs) k =
  None.
Proof.
  revert k. induction xs as [ | x xs IH]; intros k; [ reflexivity | ].
  cbn [List.filter]. destruct (strict_equals x v) eqn:E; cbn [negb].
  - apply IH.
  - cbn [first_index]. rewrite E. apply IH.
Qed.

Lemma find_filter (v : value) (xs : list value) :
  List.find (fun item => strict_equals item v)
    (List.filter (fun item => negb (strict_equals item v)) xs) = None.
Proof.
  induction xs as [ | x xs IH]; [ reflexivity | ].
  cbn [List.filter]. destruct (strict_equals x v) eqn:E; cbn [negb].
  - apply IH.
  - cbn [List.find]. rewrite E. apply IH.
Qed.

(** When [predicate] is not a function, what [filter] returns holds no
    element that is [===] to [value]: on it [indexOf] of the same value is
    [-1] and [find] is [undefined], whatever [callback] is. *)
Theorem filter_removes_the_value (callback callback' : option function)
    (fresh fresh' : nat) (inputs after : gmap string value) (r : value) :
  executeArrayOperationWith None callback fresh "filter" inputs = Ok r ->
  get after "array" = r ->
  get after "value" = get inputs "value" ->
  executeArrayOperationWith None callback' fresh' "indexOf" after =
    Ok not_found
  /\ executeArrayOperationWith None callback' fresh' "find" after =
     Ok VUndefined.
Proof.
  unfold executeArrayOperationWith.
  destruct (get inputs "array") as [ | | | | | l xs | | ]; try discriminate.
  cbn. intros E A V. injection E as <-. rewrite A, V.
  now rewrite first_index_filter, find_filter.
Qed.

Lemma first_index_none (v : value) (xs : list value) (k : nat) :
  first_index v xs k = None <->
  existsb (fun item => strict_equals item v) xs = false.
Proof.
  revert k. induction xs as [ | x xs IH]; intros k; [ easy | ].
  cbn [first_index existsb]. destruct (strict_equals x v); [ easy | ].
  apply IH.
Qed.

Lemma same_value_zero_strict (a v : value) :
  same_value_zero a v = strict_equals a v || (is_NaN a && is_NaN v).
Proof.
  destruct a, v; cbn [same_value_zero is_NaN];
    rewrite ?andb_false_r, ?orb_false_r; reflexivity.
Qed.

Lemma strict_equals_NaN (a v : value) :
  is_NaN v = true -> strict_equals a v = false.
Proof.
  destruct v as [ | | | y | | | | ]; try discriminate. cbn. intros N.
  destruct a as [ | | | x | | | | ]; try reflexivity. cbn.
  revert N. unfold PrimFloat.is_nan. rewrite !FloatAxioms.eqb_spec.
  unfold SFeqb, SFcompare.
  destruct (Prim2SF y) as [ [] | [] | | [] ? ? ], (Prim2SF x) as [ [] | [] | | [] ? ? ];
    cbn; try discriminate; try reflexivity.
  all: intros N; exfalso; revert N.
  all: rewrite ?Z.compare_refl, ?Pos.compare_refl; cbn; try discriminate.
  all: rewrite ?Pos.compare_cont_refl; cbn; discriminate.
Qed.

(** [includes] compares with SameValueZero and [indexOf] with [===]: when
    [indexOf] finds the value, [includes] is true; for a value other than
    [NaN] they agree; and [NaN] is never found by [indexOf], while
    [includes] tells whether the array holds a [NaN]. *)
Theorem includes_and_indexOf (fresh : nat) (inputs : gmap string value) :
  is_array (get inputs "array") = true ->
  (executeArrayOperation fresh "indexOf" inputs <> Ok not_found ->
   executeArrayOperation fresh "includes" inputs = Ok (VBool true))
  /\ (is_NaN (get inputs "value") = false ->
      executeArrayOperation fresh "includes" inputs = Ok (VBool false) ->
      executeArrayOperation fresh "indexOf" inputs = Ok not_found)
  /\ (is_NaN (get inputs "value") = true ->
      executeArrayOperation fresh "indexOf" inputs = Ok not_found
      /\ executeArrayOperation fresh "includes" inputs =
         Ok (VBool (existsb is_NaN (elements (get inputs "array"))))).
Proof.
  intros A. unfold executeArrayOperation, executeArrayOperationWith.
  destruct (get inputs "array") as [ | | | | | l xs | | ]; try discriminate A.
  cbn [String.eqb Ascii.eqb Bool.eqb elements]. cbn match.
  set (v := get inputs "value"). clear A.
  assert (S : existsb (fun item => same_value_zero item v) xs =
              existsb (fun item => strict_equals item v) xs
              || (is_NaN v && existsb is_NaN xs)).
  { induction xs as [ | x xs IH]; cbn [existsb].
    - now rewrite andb_false_r.
    - rewrite IH, same_value_zero_strict.
      destruct (strict_equals x v), (is_NaN x), (is_NaN v),
        (existsb (fun item => strict_equals item v) xs), (existsb is_NaN xs);
        reflexivity. }
  rewrite S. clear S.
  assert (N : is_NaN v = true ->
              existsb (fun item => strict_equals item v) xs = false).
  { intros V. induction xs as [ | x xs IH]; [ reflexivity | ].
    cbn [existsb]. now rewrite strict_equals_NaN by assumption. }
  split; [ | split ].
  - intros I. destruct (first_index v xs 0) eqn:F; [ | now elim I ].
    destruct (existsb (fun item => strict_equals item v) xs) eqn:E;
      [ reflexivity | ].
    apply first_index_none with (k := 0) in E. rewrite E in F. discriminate F.
  - intros _ E. injection E as E. apply orb_false_elim in E as [E _].
    apply first_index_none with (k := 0) in E. now rewrite E.
  - intros V. rewrite (N V), V.
    pose proof (proj2 (first_index_none v xs 0) (N V)) as F. now rewrite F.
Qed.

(** [splice] always inserts [value], also when it is [undefined]: with a
    [start] and a [deleteCount] that [Number()] converts, the result is
    the array with [d] elements replaced by the one value at a position
    [k] within the array, and nothing is removed when [deleteCount] is
    falsy. *)
Theorem splice_inserts_the_value (fresh : nat) (inputs : gmap string value) :
  is_array (get inputs "array") = true ->
  convertible_inputs ["start"; "deleteCount"] inputs = true ->
  exists k d,
    k + d <= length (elements (get inputs "array"))
    /\ executeArrayOperation fresh "splice" inputs =
       Ok (VArr fresh (take k (elements (get inputs "array"))
                         ++ get inputs "value"
                         :: drop (k + d) (elements (get inputs "array"))))
    /\ (ToBoolean (get inputs "deleteCount") = false -> d = 0).
Proof.
  intros A _. unfold executeArrayOperation, executeArrayOperationWith.
  destruct (get inputs "array") as [ | | | | | l xs | | ]; try discriminate A.
  cbn [String.eqb Ascii.eqb Bool.eqb elements]. cbn match.
  unfold splice.
  set (k := relative_index (length xs) _).
  assert (K : k <= length xs).
  { unfold k, relative_index.
    destruct (ToIntegerOrInfinity _) as [ | z | ]; try lia.
    destruct (Z.ltb_spec z 0); lia. }
  match goal with |- context [drop (k + ?d0) xs] => set (d := d0) end.
  exists k, d. split; [ | split; [ reflexivity | ] ].
  - unfold d. destruct (ToIntegerOrInfinity (ToNumber (or_else _ _))); lia.
  - intros F. unfold d, or_else. rewrite F.
    assert (Z : ToIntegerOrInfinity (ToNumber (VNum PrimFloat.zero)) = Finite 0)
      by reflexivity.
    rewrite Z. lia.
Qed.

(** [end ? Number(end) : undefined]: an [end] that is falsy ([0], [null],
    [NaN], the empty string) is treated as no [end] at all, so [slice] and
    [substring] with [end = 0] run to the end of the input instead of
    returning nothing. *)
Theorem falsy_end_is_no_end (fresh : nat) (operation : string)
    (inputs : gmap string value) :
  ToBoolean (get inputs "end") = false ->
  executeArrayOperation fresh operation inputs =
    executeArrayOperation fresh operation (delete "end" inputs)
  /\ executeStringOperation fresh operation inputs =
    executeStringOperation fresh operation (delete "end" inputs).
Proof.
  intros F.
  assert (G : forall k, k <> "end" -> get (delete "end" inputs) k = get inputs k).
  { intros k N. unfold get. now rewrite lookup_delete_ne by congruence. }
  assert (E : optional_end (get (delete "end" inputs) "end") =
              optional_end (get inputs "end")).
  { unfold optional_end. rewrite F. unfold get at 1.
    now rewrite lookup_delete_eq. }
  unfold executeArrayOperation, executeArrayOperationWith,
    executeStringOperation.
  rewrite E, !G by discriminate. split; reflexivity.
Qed.

Lemma text_app (a b : list ascii) : text (a ++ b) = (text a ++ text b)%string.
Proof.
  unfold text. induction a as [ | c a IH]; [ reflexivity | ].
  cbn. now rewrite IH.
Qed.

Lemma concat_text (sep : list ascii) (ls : list (list ascii)) :
  String.concat (text sep) (map text ls) = text (flatten sep ls).
Proof.
  induction ls as [ | x [ | y ls] IH]; try reflexivity.
  change (String.concat (text sep) (map text (x :: y :: ls)))
    with (text x ++ text sep ++ String.concat (text sep) (map text (y :: ls)))%string.
  rewrite IH. change (flatten sep (x :: y :: ls))
    with (x ++ sep ++ flatten sep (y :: ls)).
  now rewrite !text_app.
Qed.

Lemma split_on_cons (n : nat) (sep s piece : list ascii) :
  exists x xs, split_on n sep s piece = x :: xs.
Proof.
  revert s piece. induction n as [ | n IH]; intros s piece.
  - destruct s; cbn; eauto.
  - destruct s as [ | c s]; cbn [split_on]; eauto.
    destruct (is_prefix sep (c :: s)); eauto.
Qed.

Lemma flatten_split_on (n : nat) (sep s piece : list ascii) :
  sep <> nil -> length s <= n ->
  flatten sep (split_on n sep s piece) = rev piece ++ s.
Proof.
  intros N. revert s piece. induction n as [ | n IH]; intros s piece L.
  - destruct s; [ | cbn in L; lia ]. cbn. now rewrite app_nil_r.
  - destruct s as [ | c s]; [ cbn; now rewrite app_nil_r | ].
    cbn [split_on]. unfold is_prefix.
    destruct (bool_decide_reflect (sep = take (length sep) (c :: s))) as [P | P].
    + destruct (split_on_cons n sep (drop (length sep) (c :: s)) nil)
        as (x & xs & E).
      pose proof (IH (drop (length sep) (c :: s)) nil) as I.
      rewrite E in *.
      change (flatten sep (rev piece :: x :: xs))
        with (rev piece ++ sep ++ flatten sep (x :: xs)).
      rewrite I.
      * cbn [rev app]. rewrite P at 1. now rewrite take_drop.
      * rewrite length_drop. cbn [length] in *.
        destruct sep; [ congruence | cbn [length]; lia ].
    + rewrite IH by (cbn in L; lia). cbn [rev]. now rewrite <- app_assoc.
Qed.

Lemma concat_split (s sep : string) : String.concat sep (split s sep) = s.
Proof.
  unfold split. destruct (chars sep) as [ | c sep'] eqn:E.
  - assert (S : sep = "") by (destruct sep; [ reflexivity | discriminate E ]).
    subst sep. unfold chars. induction s as [ | a s IH]; [ reflexivity | ].
    cbn [list_ascii_of_string map]. destruct s as [ | b s]; [ reflexivity | ].
    cbn [list_ascii_of_string map] in *.
    change (String a (String.concat "" (String b "" :: map (fun c => String c "") (list_ascii_of_string s))) = String a (String b s)).
    now rewrite IH.
  - rewrite <- (string_of_list_ascii_of_string sep) at 1.
    fold (chars sep). fold (text (chars sep)). rewrite E.
    rewrite concat_text, flatten_split_on.
    + cbn [rev app]. apply string_of_list_ascii_of_string.
    + discriminate.
    + unfold chars. clear. induction s; cbn; lia.
Qed.

(** [join] undoes [split] when both get the same truthy separator: the
    pieces joined again are [String(str)]. *)
Theorem split_then_join (fresh fresh' : nat) (inputs after : gmap string value)
    (r : value) :
  ToBoolean (get inputs "separator") = true ->
  executeStringOperation fresh "split" inputs = Ok r ->
  get after "array" = r ->
  get after "separator" = get inputs "separator" ->
  executeStringOperation fresh' "join" after =
  Ok (VStr (ToString (get inputs "str"))).
Proof.
  intros T E A S. unfold executeStringOperation in *.
  cbn [String.eqb Ascii.eqb Bool.eqb] in *. cbn match in *.
  injection E as <-. rewrite A, S. unfold or_else. rewrite T.
  unfold join. rewrite map_map. cbn beta iota.
  rewrite map_id. now rewrite concat_split.
Qed.

(** Without a callback and without a truthy [value], [reduce] on an array
    of numbers is their sum, added up from [0] left to right. *)
Theorem reduce_sums_numbers (fresh : nat) (inputs : gmap string value)
    (xs : list float) (l : loc) :
  get inputs "array" = VArr l (map VNum xs) ->
  ToBoolean (get inputs "value") = false ->
  executeArrayOperation fresh "reduce" inputs =
  Ok (VNum (fold_left PrimFloat.add xs PrimFloat.zero)).
Proof.
  intros A V. unfold executeArrayOperation, executeArrayOperationWith. rewrite A.
  cbn [String.eqb Ascii.eqb Bool.eqb]. cbn match.
  unfold or_else. rewrite V. apply f_equal. clear A.
  generalize PrimFloat.zero as acc.
  induction xs as [ | x xs IH]; intros acc; [ reflexivity | ].
  cbn [map fold_left]. apply IH.
Qed.

End WithHost.

Import Sample Fixtures.

(** [pop] of what [push] returned for [[1]] and [2]. *)
Lemma array_round_trips_witness :
  executeArrayOperation 6 "pop"
    (object [("array", VArr 5 [VNum 1%float; VNum 2%float])]) =
  Ok (VArr 6 [VNum 1%float]).
Proof.
  exact (proj1 (array_round_trips 5 6
                  (object [("array", VArr 0 [VNum 1%float]);
                           ("value", VNum 2%float)])
                  (object [("array", VArr 5 [VNum 1%float; VNum 2%float])])
                  eq_refl)
               _ eq_refl eq_refl).
Defined.

(** [push] on something that is no array, and an operation with an
    unknown name on an array. *)
Lemma array_operation_throws_exactly_when_witness :
  executeArrayOperationWith None None 0 "push"
    (object [("array", VStr "abc")]) =
    Thrown (Error "Error" "Input must be an array")
  /\ is_ok (executeArrayOperation 0 "flatten"
              (object [("array", VArr 0 [VNum 1%float])])) = false.
Proof.
  split.
  - exact (proj1 (array_operation_throws_exactly_when 0 "push"
                    (object [("array", VStr "abc")])) None None eq_refl).
  - exact (proj2 (array_operation_throws_exactly_when 0 "flatten"
                    (object [("array", VArr 0 [VNum 1%float])])) eq_refl).
Defined.

(** [trim] without any input returns, an operation with an unknown name
    throws. *)
Lemma string_operation_throws_exactly_when_witness :
  is_ok (executeStringOperation 0 "trim" ∅) = true
  /\ is_ok (executeStringOperation 0 "reverse" ∅) = false.
Proof.
  split.
  - exact (string_operation_throws_exactly_when 0 "trim" ∅ eq_refl).
  - exact (string_operation_throws_exactly_when 0 "reverse" ∅ eq_refl).
Defined.

(** [[1, 2, 1]] without [1]. *)
Lemma filter_removes_the_value_witness :
  executeArrayOperation 6 "indexOf"
    (object [("array", VArr 5 [VNum 2%float]); ("value", VNum 1%float)]) =
    Ok not_found
  /\ executeArrayOperation 6 "find"
       (object [("array", VArr 5 [VNum 2%float]); ("value", VNum 1%float)]) =
     Ok VUndefined.
Proof.
  exact (filter_removes_the_value None None 5 6
           (object [("array", VArr 0 [VNum 1%float; VNum 2%float; VNum 1%float]);
                    ("value", VNum 1%float)])
           (object [("array", VArr 5 [VNum 2%float]); ("value", VNum 1%float)])
           _ eq_refl eq_refl eq_refl).
Defined.

(** [[NaN].indexOf(NaN)] is [-1] and [[NaN].includes(NaN)] is true. *)
Lemma includes_and_indexOf_witness :
  executeArrayOperation 1 "indexOf"
    (object [("array", VArr 0 [VNum PrimFloat.nan]);
             ("value", VNum PrimFloat.nan)]) = Ok not_found
  /\ executeArrayOperation 1 "includes"
       (object [("array", VArr 0 [VNum PrimFloat.nan]);
                ("value", VNum PrimFloat.nan)]) = Ok (VBool true).
Proof.
  exact (proj2 (proj2 (includes_and_indexOf 1
                         (object [("array", VArr 0 [VNum PrimFloat.nan]);
                                  ("value", VNum PrimFloat.nan)])
                         eq_refl))
               eq_refl).
Defined.

(** [splice] with no input but the array. *)
Lemma splice_inserts_the_value_witness :
  exists k d,
    k + d <= 2
    /\ executeArrayOperation 1 "splice"
         (object [("array", VArr 0 [VNum 1%float; VNum 2%float])]) =
       Ok (VArr 1 (take k [VNum 1%float; VNum 2%float]
                     ++ VUndefined :: drop (k + d) [VNum 1%float; VNum 2%float]))
    /\ d = 0.
Proof.
  destruct (splice_inserts_the_value 1
              (object [("array", VArr 0 [VNum 1%float; VNum 2%float])])
              eq_refl eq_refl) as (k & d & L & E & Z).
  exists k, d. split; [ exact L | ]. split; [ exact E | exact (Z eq_refl) ].
Defined.

(** ["hello".slice(2, 0)] is taken as ["hello".slice(2)]. *)
Lemma falsy_end_is_no_end_witness :
  executeStringOperation 0 "slice"
    (object [("str", VStr "hello"); ("start", VNum 2%float);
             ("end", VNum 0%float)]) =
  executeStringOperation 0 "slice"
    (delete "end" (object [("str", VStr "hello"); ("start", VNum 2%float);
                           ("end", VNum 0%float)])).
Proof.
  exact (proj2 (falsy_end_is_no_end 0 "slice"
                  (object [("str", VStr "hello"); ("start", VNum 2%float);
                           ("end", VNum 0%float)])
                  eq_refl)).
Defined.

(** ["a,b"] split and joined at [","]. *)
Lemma split_then_join_witness :
  executeStringOperation 2 "join"
    (object [("array", VArr 1 [VStr "a"; VStr "b"]); ("separator", VStr ",")]) =
  Ok (VStr "a,b").
Proof.
  exact (split_then_join 1 2
           (object [("str", VStr "a,b"); ("separator", VStr ",")])
           (object [("array", VArr 1 [VStr "a"; VStr "b"]);
                    ("separator", VStr ",")])
           _ eq_refl eq_refl eq_refl eq_refl).
Defined.

(** [[1, 2].reduce(...)] is [0 + 1 + 2]. *)
Lemma reduce_sums_numbers_witness :
  executeArrayOperation 1 "reduce"
    (object [("array", VArr 0 [VNum 1%float; VNum 2%float])]) =
  Ok (VNum 3%float).
Proof.
  exact (reduce_sums_numbers 1
           (object [("array", VArr 0 [VNum 1%float; VNum 2%float])])
           [1%float; 2%float] 0 eq_refl eq_refl).
Defined.

End FamilyFacts.

(* ================================================================== *)
(** ** The store and a run started from it *)
(* ================================================================== *)

Module StoreFacts.
Import JS Operators Engine Run Stated Observed OperatorFacts EngineFacts.
Import Store.

Lemma existsb_filter_keep {A} (p q : A -> bool) (l : list A) :
  (forall x, In x l -> p x = true -> q x = true) ->
  existsb p l = true -> existsb p (List.filter q l) = true.
Proof.
  intros K E. apply existsb_exists in E as (x & I & P).
  apply existsb_exists. exists x. split; [ | exact P ].
  apply filter_In. split; [ exact I | now apply K ].
Qed.

(** [deleteNode] removes the node and every edge that starts or ends at
    it: no edge of the store mentions the deleted id afterwards, and when
    every edge was attached to nodes of the store before, every edge is
    so afterwards.  It leaves [selectedNode] as it is, also when that is
    the deleted node. *)
Theorem deleteNode_leaves_no_dangling_edge (nodeId : string) (s : Store) :
  (forall n, In n (nodes (deleteNode nodeId s)) -> node_id n <> nodeId)
  /\ (forall e, In e (edges (deleteNode nodeId s)) ->
                source e <> nodeId /\ target e <> nodeId)
  /\ (attached s = true -> attached (deleteNode nodeId s) = true)
  /\ selectedNode (deleteNode nodeId s) = selectedNode s.
Proof.
  split; [ | split; [ | split; [ | reflexivity ] ] ].
  - intros n I. cbn in I. apply filter_In in I as [_ I].
    apply negb_true_iff, String.eqb_neq in I. exact I.
  - intros e I. cbn in I. apply filter_In in I as [_ I].
    apply andb_true_iff in I as [I1 I2].
    apply negb_true_iff, String.eqb_neq in I1.
    apply negb_true_iff, String.eqb_neq in I2. now split.
  - unfold attached. rewrite !forallb_forall. intros A e I.
    cbn in I. apply filter_In in I as [I K].
    apply andb_true_iff in K as [K1 K2].
    apply negb_true_iff, String.eqb_neq in K1.
    apply negb_true_iff, String.eqb_neq in K2.
    specialize (A e I). apply andb_true_iff in A as [A1 A2].
    apply andb_true_iff. split; cbn [nodes deleteNode].
    + apply existsb_filter_keep; [ | exact A1 ].
      intros n _ E. apply String.eqb_eq in E.
      apply negb_true_iff, String.eqb_neq. congruence.
    + apply existsb_filter_keep; [ | exact A2 ].
      intros n _ E. apply String.eqb_eq in E.
      apply negb_true_iff, String.eqb_neq. congruence.
Qed.

(** The engine starts a run at the nodes without incoming edge, so
    deleting a node changes where the next run starts: afterwards the
    triggers are exactly the remaining nodes all of whose incoming edges
    came from the deleted node, those that had none included. *)
Theorem deleteNode_orphans_become_triggers (nodeId : string) (s : Store)
    (m : Node) :
  In m (triggerNodes (graph (deleteNode nodeId s))) <->
  In m (nodes s) /\ node_id m <> nodeId
  /\ forall e, In e (edges s) -> target e = node_id m -> source e = nodeId.
Proof.
  unfold triggerNodes.
  cbn [graph Engine.nodes Engine.edges deleteNode nodes edges].
  rewrite !filter_In, negb_true_iff, String.eqb_neq.
  split.
  - intros [[I N] T]. repeat split; try assumption.
    intros e E Tg. destruct (String.eqb_spec (source e) nodeId) as [ | S];
      [ assumption | exfalso ].
    apply negb_true_iff in T. apply not_true_iff_false in T. apply T.
    apply existsb_exists. exists e. split.
    + apply filter_In. split; [ exact E | ].
      apply andb_true_iff.
      split; apply negb_true_iff, String.eqb_neq; congruence.
    + now apply String.eqb_eq.
  - intros (I & N & A). repeat split; try assumption.
    apply negb_true_iff, not_true_iff_false. intros X.
    apply existsb_exists in X as (e & E & Tg).
    apply filter_In in E as [E K]. apply String.eqb_eq in Tg.
    apply andb_true_iff in K as [K _].
    apply negb_true_iff, String.eqb_neq in K. apply K. now apply A.
Qed.

Lemma replay_spec (clock : nat -> float) (calls : list LogCall) (s : Store) :
  let s' := replay clock calls s in
  nodes s' = nodes s /\ edges s' = edges s
  /\ selectedNode s' = selectedNode s /\ isExecuting s' = isExecuting s
  /\ variables (executionContext s') = variables (executionContext s)
  /\ results (executionContext s') = results (executionContext s)
  /\ map entry (logs (executionContext s')) =
     map entry (logs (executionContext s)) ++ calls.
Proof.
  revert s. induction calls as [ | c calls IH]; intros s; cbn zeta.
  - cbn. now rewrite app_nil_r.
  - cbn [replay fold_left].
    specialize (IH (addLog (clock (length (logs (executionContext s)))) c s)).
    cbn zeta in IH. unfold replay in IH.
    destruct IH as (I1 & I2 & I3 & I4 & I5 & I6 & I7).
    rewrite I1, I2, I3, I4, I5, I6, I7. cbn.
    rewrite List.map_app, <- app_assoc. repeat split.
Qed.

Section WithHost.
Context `{Host} `{OperatorFamilies}.

(** When [handleExecute] is through, the store has the nodes, edges and
    selection it had and is no longer executing; its log is, in place of
    the entries it held before, the calls the engine made to [onLog], in
    order, followed by the [system] entry ["Execution failed: ..."] when
    the run threw, which then comes right after an entry of level
    [error].  The variables and results of the store are those from
    before the run: what the engine computed stays in the engine. *)
Theorem handleExecute_replays_the_calls (clock : nat -> float) (fuel : nat)
    (s s' : Store) :
  handleExecute clock fuel s = Some s' ->
  nodes s' = nodes s /\ edges s' = edges s
  /\ selectedNode s' = selectedNode s
  /\ isExecuting s' = false
  /\ variables (executionContext s') = variables (executionContext s)
  /\ results (executionContext s') = results (executionContext s)
  /\ exists r engine,
       execute fuel (graph s) initial = Some (r, engine)
       /\ map entry (logs (executionContext s')) =
          onLog engine
          ++ match r with
             | Ok _ => []
             | Thrown error =>
                 [call "system" ("Execution failed: " ++ err_message error)
                       level_error no_data]
             end
       /\ (is_ok r = false ->
           exists before c, onLog engine = before ++ [c]
                            /\ log_level c = level_error).
Proof.
  unfold handleExecute.
  change (graph (setIsExecuting true (clearLogs s))) with (graph s).
  destruct (execute fuel (graph s) initial) as [[r engine] | ] eqn:X;
    [ | discriminate ].
  intros E. injection E as <-.
  pose proof (replay_spec clock (onLog engine)
                (setIsExecuting true (clearLogs s))) as R.
  cbn zeta in R. destruct R as (R1 & R2 & R3 & R4 & R5 & R6 & R7).
  destruct r as [ctx | error]; cbn -[replay];
    rewrite ?R1, ?R2, ?R3, ?R5, ?R6;
    repeat (split; [ reflexivity | ]).
  - exists (Ok ctx), engine. split; [ reflexivity | ].
    split; [ | discriminate ].
    rewrite R7. cbn. now rewrite app_nil_r.
  - exists (Thrown error), engine. split; [ reflexivity | ].
    split; [ rewrite List.map_app, R7; reflexivity | ].
    intros _.
    destruct (RunFacts.execute_thrown fuel (graph s) initial engine error X)
      as [(_ & _ & ->) | (t & s0 & _ & ->)].
    + exists [call "workflow" "Starting workflow execution" level_info no_data],
             (call "workflow" "No trigger nodes found" level_error no_data).
      split; reflexivity.
    + exists (onLog s0), (error_call t error). split; reflexivity.
Qed.

End WithHost.

Import Sample Fixtures.

(** Deleting [b] from the chain [a -> b -> c] leaves no edge. *)
Lemma deleteNode_leaves_no_dangling_edge_witness :
  attached (deleteNode "b"
              (loadWorkflow (Engine.nodes chain) (Engine.edges chain) empty))
  = true.
Proof.
  exact (proj1 (proj2 (proj2 (deleteNode_leaves_no_dangling_edge "b"
           (loadWorkflow (Engine.nodes chain) (Engine.edges chain) empty))))
           eq_refl).
Defined.

(** A run of the chain from a store that holds an old log entry. *)
Lemma handleExecute_replays_the_calls_witness :
  exists s',
    handleExecute (fun _ => PrimFloat.zero) 3
      (addLog PrimFloat.zero (call "old" "entry" level_info no_data)
         (loadWorkflow (Engine.nodes chain) (Engine.edges chain) empty))
    = Some s'
    /\ isExecuting s' = false
    /\ variables (executionContext s') = ∅.
Proof.
  destruct (handleExecute (fun _ => PrimFloat.zero) 3
              (addLog PrimFloat.zero (call "old" "entry" level_info no_data)
                 (loadWorkflow (Engine.nodes chain) (Engine.edges chain) empty)))
    as [s' | ] eqn:E; [ | vm_compute in E; discriminate E ].
  exists s'. split; [ reflexivity | ].
  pose proof (handleExecute_replays_the_calls _ _ _ _ E)
    as (_ & _ & _ & X & V & _).
  exact (conj X V).
Defined.

End StoreFacts.

(* ================================================================== *)
(** ** The expressions of [BooleanBuilder] *)
(* ================================================================== *)

Module BuilderFacts.
Import JS Domain Builder.

Section WithHost.
Context `{Host}.

Lemma evaluateConditions_unfold (cs : list Expression)
    (context : gmap string value) :
  (fix map_eval (l : list Expression) : result (list bool) :=
     match l with
     | nil => Ok nil
     | c :: l' =>
         match
           match c with
           | Group _ _ => evaluateGroup c context
           | Simple variable operator v =>
               evaluateCondition variable operator v context
           end
         with
         | Ok b =>
             match map_eval l' with
             | Ok bs => Ok (b :: bs)
             | Thrown err => Thrown err
             end
         | Thrown err => Thrown err
         end
     end) cs = evaluateConditions cs context.
Proof.
  induction cs as [ | c cs IH]; [ reflexivity | ].
  cbn [evaluateConditions]. now rewrite <- IH.
Qed.

Lemma evaluateGroup_conditions (operator : string) (cs : list Expression)
    (context : gmap string value) :
  evaluateGroup (Group operator cs) context =
  match cs with
  | nil => Ok true
  | _ =>
      match evaluateConditions cs context with
      | Ok results => Ok (Legacy.applyOperator operator results)
      | Thrown err => Thrown err
      end
  end.
Proof.
  simpl. destruct cs as [ | c cs]; [ reflexivity | ].
  now rewrite evaluateConditions_unfold.
Qed.

(** A group without conditions is true under every operator, [OR] and
    [NOR] included.  On a group with conditions [NAND], [NOR] and [XNOR]
    are the negations of [AND], [OR] and [XOR], also in what they throw. *)
Theorem negated_group_operators (cs : list Expression)
    (context : gmap string value) :
  (forall operator, evaluateGroup (Group operator []) context = Ok true)
  /\ (cs <> [] ->
      evaluateGroup (Group "NAND" cs) context =
        result_map negb (evaluateGroup (Group "AND" cs) context)
      /\ evaluateGroup (Group "NOR" cs) context =
        result_map negb (evaluateGroup (Group "OR" cs) context)
      /\ evaluateGroup (Group "XNOR" cs) context =
        result_map negb (evaluateGroup (Group "XOR" cs) context)).
Proof.
  split; [ reflexivity | ].
  destruct cs as [ | c cs]; [ congruence | intros _ ].
  rewrite !evaluateGroup_conditions.
  destruct (evaluateConditions (c :: cs) context); repeat split.
Qed.


Lemma parseValue_string (s : string) :
  match parseValue (VStr s) with
  | VBool _ | VNum _ | VStr _ => True
  | _ => False
  end.
Proof.
  unfold parseValue.
  destruct (strict_equals _ _); [ exact I | ].
  destruct (strict_equals _ _); [ exact I | ].
  now destruct (negb _).
Qed.


End WithHost.

Import Sample.

(** A group of one condition. *)
Lemma negated_group_operators_witness :
  evaluateGroup (Group "NOR" [Simple "x" "==" (VStr "true")]) ∅ =
  result_map negb
    (evaluateGroup (Group "OR" [Simple "x" "==" (VStr "true")]) ∅).
Proof.
  assert (N : [Simple "x" "==" (VStr "true")] <> []) by discriminate.
  exact (proj1 (proj2 (proj2 (negated_group_operators
                                [Simple "x" "==" (VStr "true")] ∅) N))).
Defined.



End BuilderFacts.

(* ================================================================== *)
(** ** How a run of the JavaScript engine ends *)
(* ================================================================== *)

Module LegacyRun.
Import JS Legacy.

Section WithHost.
Context `{Host} `{NodeHandlers}.

(** [execute] of the JavaScript engine never rejects, whatever the
    handlers do: a run that ends returns an outcome, with [isRunning]
    reset and the log and context of the engine in it.  A successful
    outcome carries no error and its log ends with the completion entry;
    a failed one carries the message of the error and its log ends with
    the entry ["Error: ..."] of level [error]. *)
Theorem legacy_execute_never_throws (fuel : nat) (workflow : Workflow)
    (initialContext : gmap string value) (s s' : State) (r : result Outcome) :
  execute fuel workflow initialContext s = Some (r, s') ->
  exists o before last,
    r = Ok o
    /\ isRunning s' = false
    /\ outcome_log o = executionLog s'
    /\ outcome_context o = context s'
    /\ executionLog s' = before ++ [last]
    /\ (if success o
        then error_message o = None
             /\ message last = "Workflow execution completed"
        else exists text,
               error_message o = Some text
               /\ level last = "error"
               /\ message last = ("Error: " ++ text)%string).
Proof.
  unfold execute, Run.bind at 1, Run.modify at 1, Run.try_catch.
  match goal with |- context [match ?m ?st with _ => _ end] =>
    destruct (m st) as [[[o | e] s1] | ] eqn:B end; try discriminate.
  - intros E. injection E as <- <-.
    unfold Run.bind at 1, log at 1, Run.modify at 1 in B.
    destruct (List.filter _ (nodes workflow)) as [ | t ts];
      [ discriminate B | ].
    unfold Run.bind at 1 in B.
    destruct (Run.for_each (t :: ts) _ _) as [[[u | e] s2] | ];
      try discriminate B.
    cbn in B. injection B as <- <-.
    eexists _, _, _. repeat split.
  - intros E. cbn in E. injection E as <- <-.
    eexists _, _, _. repeat split. cbn. eexists. repeat split.
Qed.

End WithHost.

Import Sample.

(** The workflow without nodes: the outcome is a failure. *)
Lemma legacy_execute_never_throws_witness :
  exists o s',
    execute 1 {| nodes := []; connections := [] |} ∅
      {| context := ∅; executionLog := []; isRunning := false; clock := 0 |}
    = Some (Ok o, s')
    /\ isRunning s' = false /\ success o = false.
Proof.
  destruct (legacy_execute_never_throws 1 {| nodes := []; connections := [] |}
              ∅ {| context := ∅; executionLog := []; isRunning := false;
                   clock := 0 |} _ _ eq_refl)
    as (o & before & last & E & R & _).
  eexists _, _. split; [ reflexivity | ]. split; [ exact R | reflexivity ].
Defined.

End LegacyRun.
